(** * go-ietools: the [buffers] and [pvrz] packages, embedded and verified

    A shallow embedding of [buffers/buffers.go], of the helpers of
    [ietools.go] it calls, and of [pvrz/pvrz.go].

    Conventions of the embedding:
    - Go's [int] is the 64-bit signed integer; a value is a [Z] and every
      addition, subtraction and multiplication of the source is wrapped
      ([int_add], [int_sub], [int_mul]).
    - a [[]byte] is a [list byte]; where the source distinguishes the nil
      slice, the value is an [option].  Capacity is not tracked: the only
      reslice of the source that goes beyond a length ([buf2[:offset]] in
      [DeleteBytes]) stays below the length of the slice it was cut from.
    - a run-time panic of Go (index or slice bounds out of range) is the
      outcome [Panic].
    - a method with a pointer receiver is a state transformer over the
      receiver, in the monad [M].
    - the zlib stream codec, the character maps, the io sinks, the image
      library and the squish block codec are outside the repository; they
      are the fields of the classes below.

    The statements numbered C1 to C10 are the properties the
    natural-language specification of the repository states about these
    two packages; each is settled against the embedding in the second
    half of the file. *)

From Stdlib Require Import String.
From Stdlib Require Import ZArith List Bool Lia.
From Stdlib Require Import Init.Byte Strings.Byte.
Import ListNotations.

Local Open Scope Z_scope.

(* ================================================================== *)
(** * Go primitives *)

Module Go.

(** Outcome of running Go code: a value, or a run-time panic. *)
Inductive outcome (A : Type) : Type :=
| Ok (a : A)
| Panic.
Arguments Ok {A} a.
Arguments Panic {A}.

Definition obind {A B} (o : outcome A) (k : A -> outcome B) : outcome B :=
  match o with
  | Ok a => k a
  | Panic => Panic
  end.

(** ** Fixed-width integers *)

Definition max_int : Z := 2 ^ 63 - 1.
Definition min_int : Z := - 2 ^ 63.

Definition wrap64 (z : Z) : Z := (z + 2 ^ 63) mod 2 ^ 64 - 2 ^ 63.

Definition int_add (a b : Z) : Z := wrap64 (a + b).
Definition int_sub (a b : Z) : Z := wrap64 (a - b).
Definition int_mul (a b : Z) : Z := wrap64 (a * b).

Definition is_int (z : Z) : Prop := min_int <= z <= max_int.

(** Conversions [uint8(x)], [uint16(x)], [uint32(x)], [int8(x)], ... *)
Definition to_uint8 (z : Z) : Z := z mod 2 ^ 8.
Definition to_uint16 (z : Z) : Z := z mod 2 ^ 16.
Definition to_uint32 (z : Z) : Z := z mod 2 ^ 32.
Definition to_int8 (z : Z) : Z := (z + 2 ^ 7) mod 2 ^ 8 - 2 ^ 7.
Definition to_int16 (z : Z) : Z := (z + 2 ^ 15) mod 2 ^ 16 - 2 ^ 15.
Definition to_int32 (z : Z) : Z := (z + 2 ^ 31) mod 2 ^ 32 - 2 ^ 31.

(** ** Bytes *)

Definition byte_val (x : byte) : Z := Z.of_N (Byte.to_N x).

Definition byte_of_Z (z : Z) : byte :=
  match Byte.of_N (Z.to_N (to_uint8 z)) with
  | Some x => x
  | None => x00
  end.

(** A Go [string] is its sequence of bytes. *)
Definition gostring : Type := list byte.

(** ** Slices *)

Definition len {A} (s : list A) : Z := Z.of_nat (length s).

(** [make([]T, n)] with the zero value [z] of [T]; a negative length
    panics. *)
Definition make {A} (z : A) (n : Z) : outcome (list A) :=
  if n <? 0 then Panic else Ok (repeat z (Z.to_nat n)).

(** [s[i]] *)
Definition index {A} (s : list A) (i : Z) : outcome A :=
  if (i <? 0) || (len s <=? i) then Panic
  else match nth_error s (Z.to_nat i) with
       | Some x => Ok x
       | None => Panic
       end.

(** [s[lo:hi]], [s[lo:]] and [s[:hi]] with [hi] within the length. *)
Definition slice {A} (s : list A) (lo hi : Z) : outcome (list A) :=
  if (lo <? 0) || (hi <? lo) || (len s <? hi) then Panic
  else Ok (firstn (Z.to_nat (hi - lo)) (skipn (Z.to_nat lo) s)).

Definition slice_from {A} (s : list A) (lo : Z) : outcome (list A) :=
  slice s lo (len s).

Definition slice_to {A} (s : list A) (hi : Z) : outcome (list A) :=
  slice s 0 hi.

(** [s[i] = x] *)
Definition store {A} (s : list A) (i : Z) (x : A) : outcome (list A) :=
  if (i <? 0) || (len s <=? i) then Panic
  else Ok (firstn (Z.to_nat i) s ++ x :: skipn (S (Z.to_nat i)) s).

(** [copy(s[lo:hi], src)]: the array [s] after the copy.  [src] is the
    value of the source slice before the copy (Go's copy is a memmove,
    so overlapping slices of one array are handled by passing the old
    value). *)
Definition copy_into {A} (s : list A) (lo hi : Z) (src : list A)
  : outcome (list A) :=
  if (lo <? 0) || (hi <? lo) || (len s <? hi) then Panic
  else
    let n := Nat.min (Z.to_nat (hi - lo)) (length src) in
    Ok (firstn (Z.to_nat lo) s ++ firstn n src
          ++ skipn (Z.to_nat lo + n) s).

(** [append(s, t...)]: a slice cannot grow beyond [max_int] elements. *)
Definition append {A} (s t : list A) : outcome (list A) :=
  if max_int <? len s + len t then Panic else Ok (s ++ t).

(** ** Errors *)

(** The error values that reach the [err] fields: the two sentinels of
    package ietools, the sentinel of package pvrz, errors built with
    [errors.New] / [fmt.Errorf] (format string and arguments), and
    errors handed over by an external library. *)
Inductive error : Type :=
| ErrOffsetOutOfRange
| ErrIllegalArguments
| PvrzErrIllegalArguments
| Errorf (fmt : String.string) (args : list Z)
| ErrExternal (code : Z).

(** ** [encoding/binary.LittleEndian] *)

Definition LE_Uint16 (s : list byte) : outcome Z :=
  obind (index s 1) (fun b1 =>
  obind (index s 0) (fun b0 =>
  Ok (Z.lor (byte_val b0) (Z.shiftl (byte_val b1) 8)))).

Definition LE_Uint32 (s : list byte) : outcome Z :=
  obind (index s 3) (fun b3 =>
  obind (index s 0) (fun b0 =>
  obind (index s 1) (fun b1 =>
  obind (index s 2) (fun b2 =>
  Ok (Z.lor (Z.lor (Z.lor (byte_val b0) (Z.shiftl (byte_val b1) 8))
               (Z.shiftl (byte_val b2) 16))
        (Z.shiftl (byte_val b3) 24)))))).

(** [PutUint16(s, v)] / [PutUint32(s, v)]: the slice after the write. *)
Definition LE_PutUint16 (s : list byte) (v : Z) : outcome (list byte) :=
  obind (index s 1) (fun _ =>
  obind (store s 0 (byte_of_Z v)) (fun s0 =>
  store s0 1 (byte_of_Z (Z.shiftr v 8)))).

Definition LE_PutUint32 (s : list byte) (v : Z) : outcome (list byte) :=
  obind (index s 3) (fun _ =>
  obind (store s 0 (byte_of_Z v)) (fun s0 =>
  obind (store s0 1 (byte_of_Z (Z.shiftr v 8))) (fun s1 =>
  obind (store s1 2 (byte_of_Z (Z.shiftr v 16))) (fun s2 =>
  store s2 3 (byte_of_Z (Z.shiftr v 24)))))).

(** ** [compress/zlib]: levels accepted by [zlib.NewWriterLevel] *)

Definition HuffmanOnly : Z := -2.
Definition BestCompression : Z := 9.

Definition zlib_invalid_level (level : Z) : error :=
  Errorf "zlib: invalid compression level: %d" [level].

Definition NewWriterLevel_err (level : Z) : option error :=
  if (level <? HuffmanOnly) || (BestCompression <? level)
  then Some (zlib_invalid_level level)
  else None.

(** ** Methods with a pointer receiver: state [S], failure [Panic] *)

Definition St (S A : Type) : Type := S -> outcome (A * S).

Definition ret {S A} (a : A) : St S A := fun s => Ok (a, s).

Definition bind {S A B} (c : St S A) (k : A -> St S B) : St S B :=
  fun s => match c s with
           | Ok (a, s') => k a s'
           | Panic => Panic
           end.

Definition lift {S A} (o : outcome A) : St S A :=
  fun s => match o with
           | Ok a => Ok (a, s)
           | Panic => Panic
           end.

Definition get {S} : St S S := fun s => Ok (s, s).

(** [e != nil] *)
Definition is_set (e : option error) : bool :=
  match e with Some _ => true | None => false end.

(** [len(s)] of a slice that may be nil. *)
Definition len_opt {A} (s : option (list A)) : Z :=
  match s with Some l => len l | None => 0 end.

(** A slice that may be nil, as the list of its elements. *)
Definition or_empty {A} (s : option (list A)) : list A :=
  match s with Some l => l | None => [] end.

End Go.
Export Go.

Declare Scope go_scope.
Delimit Scope go_scope with go.
Notation "x <- c ;; k" := (bind c (fun x => k))
  (at level 100, c at next level, right associativity) : go_scope.
Notation "' pat <- c ;; k" := (bind c (fun x => match x with pat => k end))
  (at level 100, pat pattern, c at next level, right associativity)
  : go_scope.
Notation "c ;; k" := (bind c (fun _ => k))
  (at level 100, right associativity) : go_scope.
Local Open Scope go_scope.

(* ================================================================== *)
(** * External collaborators *)

(** [golang.org/x/text/encoding/charmap]: the [Bytes] method of a
    character map's decoder and encoder. *)
Class Charmaps : Type := {
  Charmap : Type;
  Windows1252 : Charmap;
  decoder_Bytes : Charmap -> list byte -> list byte * option error;
  encoder_Bytes : Charmap -> list byte -> list byte * option error
}.

(** Result of pushing one region through a zlib writer at some level:
    what [Write] returned, what [Flush] returned, and the bytes that
    reached the underlying buffer by then. *)
Record deflated : Type := {
  zw_written : Z;
  zw_write_err : option error;
  zw_flush_err : option error;
  zw_out : list byte
}.

(** Result of draining a zlib reader over one region: the header is
    refused by [zlib.NewReader], or the stream yields [data] and then
    stops with [io.EOF] ([None]) or with another error. *)
Inductive inflated : Type :=
| BadHeader (e : error)
| Stream (data : list byte) (stop : option error).

Class StreamCodec : Type := {
  deflate : Z -> list byte -> deflated;
  inflate : list byte -> inflated
}.

(** An [io.Writer]: the sink after the write and the error returned. *)
Class Sink : Type := {
  Writer : Type;
  sink_Write : Writer -> list byte -> Writer * option error
}.

(** Package [image] of the Go standard library: points and rectangles. *)
Record Point : Type := Pt { X : Z; Y : Z }.
Record Rectangle : Type := mkRect { Min : Point; Max : Point }.

Definition ZP : Point := Pt 0 0.

(** [image.Rect]: the corners are put in order. *)
Definition Rect (x0 y0 x1 y1 : Z) : Rectangle :=
  let '(x0, x1) := if x1 <? x0 then (x1, x0) else (x0, x1) in
  let '(y0, y1) := if y1 <? y0 then (y1, y0) else (y0, y1) in
  mkRect (Pt x0 y0) (Pt x1 y1).

Definition Dx (r : Rectangle) : Z := int_sub (X (Max r)) (X (Min r)).
Definition Dy (r : Rectangle) : Z := int_sub (Y (Max r)) (Y (Min r)).
Definition Size (r : Rectangle) : Point := Pt (Dx r) (Dy r).
Definition Point_Add (p q : Point) : Point :=
  Pt (int_add (X p) (X q)) (int_add (Y p) (Y q)).

(** Packages [image], [image/color] and [image/draw]: images are opaque;
    [Draw dst r src sp] is [dst] after [draw.Draw(dst, r, src, sp,
    draw.Src)]. *)
Class Imaging : Type := {
  Image : Type;
  Color : Type;
  NewRGBA : Rectangle -> Image;
  NewNRGBA : Rectangle -> Image;
  Bounds : Image -> Rectangle;
  Draw : Image -> Rectangle -> Image -> Point -> Image;
  Uniform : Color -> Image;
  is_draw_Image : Image -> bool
}.

(** Package [go-squish], the block codec. *)
Class Squish `{Imaging} : Type := {
  FLAGS_DXT1 : Z;
  FLAGS_DXT3 : Z;
  FLAGS_DXT5 : Z;
  FLAGS_SOURCE_BGRA : Z;
  FLAGS_RANGE_FIT : Z;
  FLAGS_CLUSTER_FIT : Z;
  FLAGS_ITERATIVE_CLUSTER_FIT : Z;
  FLAGS_WEIGHT_BY_ALPHA : Z;
  Metric : Type;
  METRIC_PERCEPTUAL : Metric;
  METRIC_UNIFORM : Metric;
  GetStorageRequirements : Z -> Z -> Z -> Z;
  DecompressImage : Z -> Z -> list byte -> Z -> Image;
  CompressImage : Image -> Z -> Metric -> option (list byte)
}.

(* ================================================================== *)
(** * Package ietools: the transcoding helpers *)

Module ietools.
Section Transcode.
Context `{Charmaps}.

Definition AnsiToUtf8 (buffer : list byte) (cm : option Charmap)
  : gostring * option error :=
  if len buffer =? 0 then ([], None)
  else
    let cm := match cm with Some c => c | None => Windows1252 end in
    match decoder_Bytes cm buffer with
    | (_, Some e) => ([], Some e)
    | (out, None) => (out, None)
    end.

(** The first component is [None] for the nil slice. *)
Definition Utf8ToAnsi (text : gostring) (cm : option Charmap)
  : option (list byte) * option error :=
  let cm := match cm with Some c => c | None => Windows1252 end in
  match encoder_Bytes cm text with
  | (_, Some e) => (None, Some e)
  | (out, None) => (Some out, None)
  end.

End Transcode.
End ietools.

(* ================================================================== *)
(** * Package buffers *)

Module buffers.

(** [type Buffer struct] *)
Record Buffer : Type := mkBuffer {
  buf : list byte;
  dirty : bool;
  err : option error
}.

(** ** Methods on [*Buffer] *)

Definition M (A : Type) : Type := St Buffer A.

Definition set_buf (s : list byte) : M unit :=
  fun b => Ok (tt, mkBuffer s (dirty b) (err b)).

Definition set_dirty (d : bool) : M unit :=
  fun b => Ok (tt, mkBuffer (buf b) d (err b)).

Definition set_err (e : option error) : M unit :=
  fun b => Ok (tt, mkBuffer (buf b) (dirty b) e).

(** [b.err = ietools.ErrOffsetOutOfRange; return v] *)
Definition out_of_range {A} (v : A) : M A :=
  set_err (Some ErrOffsetOutOfRange) ;; ret v.

(** [b.err = ietools.ErrIllegalArguments; return v] *)
Definition illegal_arguments {A} (v : A) : M A :=
  set_err (Some ErrIllegalArguments) ;; ret v.

(** ** Loops of the source

    Each [for] loop runs a number of iterations fixed on entry; the loop
    counter stays below the loop bound, so its increment is not wrapped. *)

(** [GetStringEx]: [for idx := 0; idx < size; idx++ { if
    b.buf[offset+idx] == 0 { ...; break } }]; the index of the first zero
    byte, if any. *)
Fixpoint null_scan (s : list byte) (offset idx : Z) (steps : nat)
  : outcome (option Z) :=
  match steps with
  | O => Ok None
  | S k =>
      obind (index s (int_add offset idx)) (fun x =>
      if Byte.eqb x x00 then Ok (Some idx)
      else null_scan s offset (idx + 1) k)
  end.

(** [PutStringEx], [PutBuffer]: [for idx := 0; equal && idx < len(buf);
    idx++ { equal = (buf[idx] == b.buf[offset+idx]) }]; [src] is what is
    left of [buf] from [idx] on. *)
Fixpoint equal_scan (src s : list byte) (offset idx : Z) : outcome bool :=
  match src with
  | [] => Ok true
  | x :: rest =>
      obind (index s (int_add offset idx)) (fun y =>
      if Byte.eqb x y then equal_scan rest s offset (idx + 1)
      else Ok false)
  end.

(** [PutStringEx]: [for idx := len(buf); idx < size; idx++ {
    b.buf[offset+idx] = 0 }] *)
Fixpoint zero_fill (s : list byte) (offset idx : Z) (steps : nat)
  : outcome (list byte) :=
  match steps with
  | O => Ok s
  | S k =>
      obind (store s (int_add offset idx) x00) (fun s' =>
      zero_fill s' offset (idx + 1) k)
  end.

(** [GetOffsetArray]: [for i := idx; i < cnt; i++ { retVal[i - idx] =
    ofs + i*size }] *)
Fixpoint offset_loop (retVal : list Z) (ofs size idx i : Z) (steps : nat)
  : outcome (list Z) :=
  match steps with
  | O => Ok retVal
  | S k =>
      obind (store retVal (int_sub i idx) (int_add ofs (int_mul i size)))
        (fun r => offset_loop r ofs size idx (i + 1) k)
  end.

(** The array after [f] has written through the slice [s[lo:]]. *)
Definition through_from (s : list byte) (lo : Z)
  (f : list byte -> outcome (list byte)) : outcome (list byte) :=
  obind (slice_from s lo) (fun t =>
  obind (f t) (fun t' =>
  Ok (firstn (Z.to_nat lo) s ++ t'))).

Section Methods.
Context `{Charmaps} `{StreamCodec} `{Sink}.

(** ** Construction *)

Definition Wrap (data : option (list byte)) : Buffer :=
  let data := match data with
              | None => repeat x00 256
              | Some d => d
              end in
  mkBuffer data false None.

Definition Create : Buffer := Wrap None.

(** [Load(r)]: [read_all] is what [ioutil.ReadAll(r)] returns. *)
Definition Load (read_all : list byte * option error) : Buffer :=
  mkBuffer (fst read_all) false (snd read_all).

(** ** State accessors *)

Definition Save (w : Writer) : M Writer :=
  b <- get ;;
  if is_set (err b) then ret w
  else
    let '(w', e) := sink_Write w (buf b) in
    set_err e ;;
    (if is_set e then ret tt else set_dirty false) ;;
    ret w'.

Definition Bytes : M (list byte) :=
  b <- get ;;
  if is_set (err b) then ret [] else ret (buf b).

Definition Error : M (option error) :=
  b <- get ;; ret (err b).

Definition ClearError : M unit := set_err None.

Definition BufferLength : M Z :=
  b <- get ;; ret (len (buf b)).

Definition IsModified : M bool :=
  b <- get ;; ret (dirty b).

Definition ClearModified : M unit := set_dirty false.

(** ** Typed reads *)

Definition GetUint8 (offset : Z) : M Z :=
  b <- get ;;
  if is_set (err b) then ret 0
  else if (offset <? 0) || (len (buf b) <=? offset) then out_of_range 0
  else x <- lift (index (buf b) offset) ;; ret (byte_val x).

Definition GetInt8 (offset : Z) : M Z :=
  x <- GetUint8 offset ;; ret (to_int8 x).

Definition GetUint16 (offset : Z) : M Z :=
  b <- get ;;
  if is_set (err b) then ret 0
  else if (offset <? 0) || (len (buf b) <? int_add offset 2)
  then out_of_range 0
  else s <- lift (slice_from (buf b) offset) ;; lift (LE_Uint16 s).

Definition GetInt16 (offset : Z) : M Z :=
  x <- GetUint16 offset ;; ret (to_int16 x).

Definition GetUint32 (offset : Z) : M Z :=
  b <- get ;;
  if is_set (err b) then ret 0
  else if (offset <? 0) || (len (buf b) <? int_add offset 4)
  then out_of_range 0
  else s <- lift (slice_from (buf b) offset) ;; lift (LE_Uint32 s).

Definition GetInt32 (offset : Z) : M Z :=
  x <- GetUint32 offset ;; ret (to_int32 x).

Definition GetUint (offset bitsize : Z) : M Z :=
  if bitsize <=? 8 then GetUint8 offset
  else if bitsize <=? 16 then GetUint16 offset
  else GetUint32 offset.

Definition GetInt (offset bitsize : Z) : M Z :=
  if bitsize <=? 8 then GetInt8 offset
  else if bitsize <=? 16 then GetInt16 offset
  else GetInt32 offset.

(** ** Strings and raw ranges *)

Definition GetStringEx (offset size : Z) (null : bool)
  (cmap : option Charmap) : M gostring :=
  b <- get ;;
  if is_set (err b) then ret []
  else if size <=? 0 then ret []
  else if (offset <? 0) || (len (buf b) <? int_add offset size)
  then out_of_range []
  else
    whole <- lift (slice (buf b) offset (int_add offset size)) ;;
    s <- (if null then
            z <- lift (null_scan (buf b) offset 0 (Z.to_nat size)) ;;
            match z with
            | Some idx => lift (slice (buf b) offset (int_add offset idx))
            | None => ret whole
            end
          else ret whole) ;;
    match cmap with
    | Some c =>
        let '(str, e) := ietools.AnsiToUtf8 s (Some c) in
        set_err e ;; ret str
    | None => ret s
    end.

Definition GetString (offset size : Z) (null : bool) : M gostring :=
  GetStringEx offset size null (Some Windows1252).

Definition GetBuffer (offset size : Z) : M (list byte) :=
  b <- get ;;
  if is_set (err b) then ret []
  else if (offset <? 0) || (len (buf b) <? int_add offset size)
  then out_of_range []
  else
    retVal <- lift (make x00 size) ;;
    src <- lift (slice (buf b) offset (int_add offset size)) ;;
    lift (copy_into retVal 0 (len retVal) src).

(** ** Typed writes *)

Definition PutUint8 (offset value : Z) : M Z :=
  b <- get ;;
  if is_set (err b) then ret 0
  else if (offset <? 0) || (len (buf b) <=? offset) then out_of_range 0
  else
    x <- lift (index (buf b) offset) ;;
    let retVal := to_uint8 (byte_val x) in
    if retVal =? value then ret retVal
    else
      s <- lift (store (buf b) offset (byte_of_Z value)) ;;
      set_buf s ;; set_dirty true ;; ret retVal.

Definition PutInt8 (offset value : Z) : M Z :=
  x <- PutUint8 offset (to_uint8 value) ;; ret (to_int8 x).

Definition PutUint16 (offset value : Z) : M Z :=
  b <- get ;;
  if is_set (err b) then ret 0
  else if (offset <? 0) || (len (buf b) <? int_add offset 2)
  then out_of_range 0
  else
    t <- lift (slice_from (buf b) offset) ;;
    retVal <- lift (LE_Uint16 t) ;;
    if retVal =? value then ret retVal
    else
      s <- lift (through_from (buf b) offset
                   (fun t => LE_PutUint16 t value)) ;;
      set_buf s ;; set_dirty true ;; ret retVal.

Definition PutInt16 (offset value : Z) : M Z :=
  x <- PutUint16 offset (to_uint16 value) ;; ret (to_int16 x).

Definition PutUint32 (offset value : Z) : M Z :=
  b <- get ;;
  if is_set (err b) then ret 0
  else if (offset <? 0) || (len (buf b) <? int_add offset 4)
  then out_of_range 0
  else
    t <- lift (slice_from (buf b) offset) ;;
    retVal <- lift (LE_Uint32 t) ;;
    if retVal =? value then ret retVal
    else
      s <- lift (through_from (buf b) offset
                   (fun t => LE_PutUint32 t value)) ;;
      set_buf s ;; set_dirty true ;; ret retVal.

Definition PutInt32 (offset value : Z) : M Z :=
  x <- PutUint32 offset (to_uint32 value) ;; ret (to_int32 x).

Definition PutStringEx (offset size : Z) (value : gostring)
  (cmap : option Charmap) : M unit :=
  b <- get ;;
  if is_set (err b) then ret tt
  else if size <=? 0 then ret tt
  else if (offset <? 0) || (len (buf b) <? int_add offset size)
  then out_of_range tt
  else
    enc <- match cmap with
           | Some c =>
               let '(o, e) := ietools.Utf8ToAnsi value (Some c) in
               set_err e ;; ret (or_empty o, e)
           | None => ret (value, None)
           end ;;
    let '(src, e) := enc in
    if is_set e then ret tt
    else
      equal <- lift (equal_scan src (buf b) offset 0) ;;
      if equal then ret tt
      else
        s <- lift (copy_into (buf b) offset (int_add offset size) src) ;;
        s <- lift (zero_fill s offset (len src)
                     (Z.to_nat (size - len src))) ;;
        set_buf s ;; set_dirty true.

Definition PutString (offset size : Z) (value : gostring) : M unit :=
  PutStringEx offset size value (Some Windows1252).

Definition PutBuffer (offset : Z) (src : list byte) : M unit :=
  b <- get ;;
  if is_set (err b) then ret tt
  else if (offset <? 0) || (len (buf b) <? int_add offset (len src))
  then out_of_range tt
  else
    equal <- lift (equal_scan src (buf b) offset 0) ;;
    if equal then ret tt
    else
      s <- lift (copy_into (buf b) offset (int_add offset (len src)) src) ;;
      set_buf s ;; set_dirty true.

(** ** Structural edits *)

Definition ReplaceBuffer (data : option (list byte)) : M unit :=
  set_buf (or_empty data) ;; set_dirty true ;; set_err None.

Definition InsertBytes (offset size : Z) : M unit :=
  b <- get ;;
  if is_set (err b) then ret tt
  else if (offset <? 0) || (len (buf b) <? offset) then out_of_range tt
  else if 0 <? size then
    let l := len (buf b) in
    fresh <- lift (make x00 size) ;;
    s <- lift (append (buf b) fresh) ;;
    src <- lift (slice s offset l) ;;
    s <- lift (copy_into s (int_add offset size) (int_add l size) src) ;;
    set_buf s ;; set_dirty true
  else ret tt.

(** In the branch [offset != 0], [buf2] and [b.buf] are two slices of one
    array starting at the same element.  [copy(buf2[:offset],
    b.buf[:offset])] therefore rewrites every byte with itself; it is
    kept as the reslice [b.buf[:offset]], which cannot panic after the
    offset check. *)
Definition DeleteBytes (offset size : Z) : M unit :=
  b <- get ;;
  if is_set (err b) then ret tt
  else if (offset <? 0) || (len (buf b) <? offset) then out_of_range tt
  else if 0 <? size then
    if offset =? 0 then
      s <- lift (slice_from (buf b) size) ;;
      set_buf s ;; set_dirty true
    else
      buf2 <- lift (slice_to (buf b) (int_sub (len (buf b)) size)) ;;
      _ <- lift (slice_to (buf b) offset) ;;
      buf2 <- (if int_add offset size <? len buf2 then
                 src <- lift (slice (buf b) (int_add offset size)
                                (len (buf b))) ;;
                 lift (copy_into buf2 offset (len buf2) src)
               else ret buf2) ;;
      set_buf buf2 ;; set_dirty true
  else ret tt.

(** ** Stream compression *)

(** The read loop of the source drains the zlib reader into [buffer],
    doubling [buffer] whenever it is full, and finally cuts [buffer] to
    the number of bytes read; [buffer] is never empty when the loop
    starts ([size > 0]), so on exit it holds exactly the bytes the stream
    produced. *)
Definition DecompressInto (offset size : Z) (buffer : option (list byte))
  : M (option (list byte)) :=
  b <- get ;;
  if is_set (err b) then ret buffer
  else if (size <=? 0) || (offset <? 0)
          || (len (buf b) <? int_add offset size)
  then out_of_range buffer
  else
    region <- lift (slice (buf b) offset (int_add offset size)) ;;
    match inflate region with
    | BadHeader e => set_err (Some e) ;; ret buffer
    | Stream data stop =>
        _ <- (if len_opt buffer =? 0 then lift (make x00 size)
              else ret (or_empty buffer)) ;;
        (if is_set stop then set_err stop else ret tt) ;;
        ret (Some data)
    end.

(** The tail shared by [DecompressReplace] and [CompressReplace]: make
    room for [buffer] in place of the [size] bytes at [offset], copy it
    in. *)
Definition replace_region (offset size : Z) (buffer : option (list byte))
  : M Z :=
  let n := len_opt buffer in
  (if size <? n then InsertBytes (int_add offset size) (int_sub n size)
   else if n <? size then DeleteBytes (int_add offset n) (int_sub size n)
   else ret tt) ;;
  b <- get ;;
  if is_set (err b) then ret 0
  else
    s <- lift (copy_into (buf b) offset (int_add offset n)
                 (or_empty buffer)) ;;
    set_buf s ;; set_dirty true ;; ret n.

Definition DecompressReplace (offset size : Z) : M Z :=
  b <- get ;;
  if is_set (err b) then ret 0
  else
    let size := if size <? 0 then 0 else size in
    buffer <- DecompressInto offset size None ;;
    b <- get ;;
    if is_set (err b) then ret 0
    else replace_region offset size buffer.

Definition CompressInto (offset size level : Z)
  (buffer : option (list byte)) : M (option (list byte)) :=
  b <- get ;;
  if is_set (err b) then ret buffer
  else if (size <? 0) || (offset <? 0)
          || (len (buf b) <? int_add offset size)
  then out_of_range buffer
  else
    let level := if level <? -2 then -2
                 else if 9 <? level then 9 else level in
    let buffer := or_empty buffer in
    match NewWriterLevel_err level with
    | Some e => set_err (Some e) ;; ret (Some buffer)
    | None =>
        region <- lift (slice (buf b) offset (int_add offset size)) ;;
        let z := deflate level region in
        if is_set (zw_write_err z)
        then set_err (zw_write_err z) ;; ret (Some buffer)
        else if is_set (zw_flush_err z)
        then set_err (zw_flush_err z) ;; ret (Some buffer)
        else
          let out := buffer ++ zw_out z in
          if zw_written z <? len out
          then o <- lift (slice_to out (zw_written z)) ;; ret (Some o)
          else ret (Some out)
    end.

Definition CompressReplace (offset size level : Z) : M Z :=
  b <- get ;;
  if is_set (err b) then ret 0
  else
    let size := if size <? 0 then 0 else size in
    buffer <- CompressInto offset size level None ;;
    b <- get ;;
    if is_set (err b) then ret 0
    else replace_region offset size buffer.

(** ** Offset arrays *)

(** [switch width { case 1: GetInt8; case 2: GetInt16; case 4: GetInt32 }]
    with the variable left at 0 when no case matches. *)
Definition read_124 (width offset : Z) : M Z :=
  if width =? 1 then GetInt8 offset
  else if width =? 2 then GetInt16 offset
  else if width =? 4 then GetInt32 offset
  else ret 0.

Definition GetOffsetArray (sevenValues : list Z) : M (option (list Z)) :=
  let v i := nth i sevenValues 0 in
  b <- get ;;
  if is_set (err b) then ret (Some [])
  else if len sevenValues <? 7 then illegal_arguments (Some [])
  else if (v 0%nat <=? 0) || (v 2%nat <=? 0)
  then illegal_arguments (Some [])
  else if negb (v 1%nat =? 2) && negb (v 1%nat =? 4)
  then illegal_arguments (Some [])
  else if (v 3%nat <? 1) || (4 <? v 3%nat) || (v 3%nat =? 3)
  then illegal_arguments (Some [])
  else if (v 5%nat <? 0) || (4 <? v 5%nat) || (v 3%nat =? 3)
  then illegal_arguments (Some [])
  else if v 6%nat <=? 0 then illegal_arguments (Some [])
  else
    ofs <- (if v 1%nat =? 2 then GetInt16 (v 0%nat)
            else if v 1%nat =? 4 then GetInt32 (v 0%nat)
            else ret 0) ;;
    cnt <- read_124 (v 3%nat) (v 2%nat) ;;
    idx <- (if 0 <? v 4%nat then read_124 (v 5%nat) (v 4%nat)
            else ret 0) ;;
    if (0 <? ofs) && (0 <? cnt) && (idx <=? cnt) then
      let size := v 6%nat in
      retVal <- lift (make 0 (int_sub cnt idx)) ;;
      retVal <- lift (offset_loop retVal ofs size idx idx
                        (Z.to_nat (cnt - idx))) ;;
      ret (Some retVal)
    else ret None.

Definition GetOffsetArray2 (offset2 : Z) (sevenValues : list Z)
  : M (option (list Z)) :=
  let v i := nth i sevenValues 0 in
  b <- get ;;
  if is_set (err b) then ret (Some [])
  else if len sevenValues <? 7 then illegal_arguments (Some [])
  else if offset2 <=? 0 then illegal_arguments (Some [])
  else
    let ofs := v 0%nat in
    let cnt := int_add offset2 (v 2%nat) in
    let idx := if (0 <? v 4%nat) && (0 <? v 5%nat)
               then int_add offset2 (v 4%nat) else 0 in
    GetOffsetArray [ofs; v 1%nat; cnt; v 3%nat; idx; v 5%nat; v 6%nat].

End Methods.
End buffers.

(* ================================================================== *)
(** * Package pvrz *)

Module pvrz.

Definition FLAGS_PREMULTIPLIED : Z := 2.
Definition TYPE_BC1 : Z := 7.
Definition TYPE_BC2 : Z := 9.
Definition TYPE_BC3 : Z := 11.
Definition SPACE_LRGB : Z := 0.
Definition SPACE_SRGB : Z := 1.
Definition CHAN_UBN : Z := 0.
Definition CHAN_SBN : Z := 1.
Definition CHAN_UB : Z := 2.
Definition CHAN_SB : Z := 3.
Definition QUALITY_LOW : Z := 0.
Definition QUALITY_DEFAULT : Z := 1.
Definition QUALITY_HIGH : Z := 2.
Definition versionSig : Z := 0x03525650.

(** [type pvrInfo struct] *)
Record pvrInfo : Type := mkInfo {
  flags : Z;
  pixelType : Z;
  colorSpace : Z;
  channelType : Z;
  height : Z;
  width : Z;
  depth : Z;
  numSurfaces : Z;
  numFaces : Z;
  numMipMaps : Z;
  meta : list byte
}.

(** Used internally. Returns whether the pixel format is supported. *)
Definition pixelTypeSupported (value : Z) : bool :=
  (value =? TYPE_BC1) || (value =? TYPE_BC2) || (value =? TYPE_BC3).

Section Methods.
Context `{Charmaps} `{StreamCodec} `{Sink} `{Squish}.

(** [type Pvr struct] *)
Record Pvr : Type := mkPvr {
  info : pvrInfo;
  img : Image;
  err : option error;
  quality : Z;
  weightByAlpha : bool;
  useMetric : bool
}.

Definition M (A : Type) : Type := St Pvr A.

Definition set_info (i : pvrInfo) : M unit :=
  fun p => Ok (tt, mkPvr i (img p) (err p) (quality p) (weightByAlpha p)
                     (useMetric p)).

Definition set_img (m : Image) : M unit :=
  fun p => Ok (tt, mkPvr (info p) m (err p) (quality p) (weightByAlpha p)
                     (useMetric p)).

Definition set_err (e : option error) : M unit :=
  fun p => Ok (tt, mkPvr (info p) (img p) e (quality p) (weightByAlpha p)
                     (useMetric p)).

Definition set_quality (q : Z) : M unit :=
  fun p => Ok (tt, mkPvr (info p) (img p) (err p) q (weightByAlpha p)
                     (useMetric p)).

Definition set_weightByAlpha (w : bool) : M unit :=
  fun p => Ok (tt, mkPvr (info p) (img p) (err p) (quality p) w
                     (useMetric p)).

Definition set_useMetric (u : bool) : M unit :=
  fun p => Ok (tt, mkPvr (info p) (img p) (err p) (quality p)
                     (weightByAlpha p) u).

(** Single-field updates of [p.info]. *)
Definition with_pixelType (i : pvrInfo) (v : Z) : pvrInfo :=
  mkInfo (flags i) v (colorSpace i) (channelType i) (height i) (width i)
    (depth i) (numSurfaces i) (numFaces i) (numMipMaps i) (meta i).

Definition with_colorSpace (i : pvrInfo) (v : Z) : pvrInfo :=
  mkInfo (flags i) (pixelType i) v (channelType i) (height i) (width i)
    (depth i) (numSurfaces i) (numFaces i) (numMipMaps i) (meta i).

Definition with_channelType (i : pvrInfo) (v : Z) : pvrInfo :=
  mkInfo (flags i) (pixelType i) (colorSpace i) v (height i) (width i)
    (depth i) (numSurfaces i) (numFaces i) (numMipMaps i) (meta i).

Definition with_dimension (i : pvrInfo) (w h : Z) : pvrInfo :=
  mkInfo (flags i) (pixelType i) (colorSpace i) (channelType i) h w
    (depth i) (numSurfaces i) (numFaces i) (numMipMaps i) (meta i).

(** [p.err = e; return v] *)
Definition fail {A} (e : error) (v : A) : M A :=
  set_err (Some e) ;; ret v.

(** ** Internal helpers *)

Definition resizeCanvas (im : Image) (width height : Z) (preserve : bool)
  : option Image :=
  let imgNew := NewRGBA (Rect 0 0 width height) in
  if preserve
  then Some (Draw imgNew (Bounds imgNew) im (Min (Bounds im)))
  else Some imgNew.

Definition decodeTexture (data : option (list byte))
  (width height pixelType : Z) : option Image :=
  match data with
  | None => None
  | Some data =>
      if (width <=? 0) || (height <=? 0) then None
      else
        let flags := FLAGS_SOURCE_BGRA in
        let flags :=
          if pixelType =? TYPE_BC1 then Some (Z.lor flags FLAGS_DXT1)
          else if pixelType =? TYPE_BC2 then Some (Z.lor flags FLAGS_DXT3)
          else if pixelType =? TYPE_BC3 then Some (Z.lor flags FLAGS_DXT5)
          else None in
        match flags with
        | None => None
        | Some flags =>
            let im := DecompressImage width height data flags in
            if is_draw_Image im then Some im
            else
              let imgOut := NewRGBA (mkRect ZP (Size (Bounds im))) in
              Some (Draw imgOut (Bounds imgOut) im (Min (Bounds im)))
        end
  end.

Definition encodeTexture (im : Image) (pixelType quality : Z)
  (weightByAlpha useMetric : bool) : option (list byte) :=
  let width := Dx (Bounds im) in
  let height := Dy (Bounds im) in
  if (width <? 1) || negb (Z.land width 3 =? 0)
     || (height <? 1) || negb (Z.land height 3 =? 0) then None
  else
    let quality := if quality <? QUALITY_LOW then QUALITY_LOW else quality in
    let quality := if QUALITY_HIGH <? quality then QUALITY_HIGH
                   else quality in
    let round4 x := Z.land (int_add x 3) (Z.lnot 3) in
    let flags :=
      if pixelType =? TYPE_BC1 then Some FLAGS_DXT1
      else if pixelType =? TYPE_BC2 then Some FLAGS_DXT3
      else if pixelType =? TYPE_BC3 then Some FLAGS_DXT5
      else None in
    match flags with
    | None => None
    | Some flags =>
        let flags := Z.lor 0 flags in
        let newWidth := round4 width in
        let newHeight := round4 height in
        let resized :=
          if negb (newWidth =? width) || negb (newHeight =? height)
          then resizeCanvas im newWidth newHeight true
          else Some im in
        match resized with
        | None => None
        | Some im =>
            let flags :=
              if quality =? QUALITY_LOW then Z.lor flags FLAGS_RANGE_FIT
              else if quality =? QUALITY_HIGH
              then Z.lor flags FLAGS_ITERATIVE_CLUSTER_FIT
              else Z.lor flags FLAGS_CLUSTER_FIT in
            let flags := if weightByAlpha
                         then Z.lor flags FLAGS_WEIGHT_BY_ALPHA
                         else flags in
            let metric := if useMetric then METRIC_PERCEPTUAL
                          else METRIC_UNIFORM in
            let imgOut := NewNRGBA (Bounds im) in
            let imgOut := Draw imgOut (Bounds imgOut) im (Min (Bounds im)) in
            CompressImage imgOut flags metric
        end
    end.

(** A method call on a local [*buffers.Buffer]: the result and the
    buffer after the call. *)
Definition call {A} (c : buffers.M A) (b : buffers.Buffer)
  : M (A * buffers.Buffer) :=
  lift (c b).

(** Used internally. Returns current PVR header as byte array. *)
Definition prepareHeader (p : Pvr) : outcome (list byte) :=
  let i := info p in
  let steps : buffers.M (list byte) :=
    buffers.InsertBytes 0 0x34 ;;
    buffers.PutInt32 0x00 versionSig ;;
    buffers.PutInt32 0x04 (to_int32 (flags i)) ;;
    buffers.PutInt32 0x08 (to_int32 (pixelType i)) ;;
    buffers.PutInt32 0x0c 0 ;;
    buffers.PutInt32 0x10 (to_int32 (colorSpace i)) ;;
    buffers.PutInt32 0x14 (to_int32 (channelType i)) ;;
    buffers.PutInt32 0x18 (to_int32 (height i)) ;;
    buffers.PutInt32 0x1c (to_int32 (width i)) ;;
    buffers.PutInt32 0x20 (to_int32 (depth i)) ;;
    buffers.PutInt32 0x24 (to_int32 (numSurfaces i)) ;;
    buffers.PutInt32 0x28 (to_int32 (numFaces i)) ;;
    buffers.PutInt32 0x2c (to_int32 (numMipMaps i)) ;;
    buffers.PutInt32 0x30 (to_int32 (len (meta i))) ;;
    (if 0 <? len (meta i) then
       buffers.InsertBytes 0x34 (len (meta i)) ;;
       buffers.PutBuffer 0x34 (meta i)
     else ret tt) ;;
    buffers.Bytes in
  obind (steps buffers.Create) (fun r => Ok (fst r)).

(** Used internally. Creates a byte buffer containing PVR data; [None]
    is the nil slice. *)
Definition exportPvr : M (option (list byte)) :=
  p <- get ;;
  hdr <- lift (prepareHeader p) ;;
  match encodeTexture (img p) (pixelType (info p)) (quality p)
          (weightByAlpha p) (useMetric p) with
  | None => fail (Errorf "Unable to encode texture data" []) None
  | Some out => ret (Some (hdr ++ out))
  end.

(** The block [if sig != versionSig { ... }] of [importPvr]: unwraps
    PVRZ data in [b]; [None] when the block has returned from
    [importPvr] with [p.err] set, else the signature read again and the
    buffer. *)
Definition unwrapPvrz (sig : Z) (b : buffers.Buffer)
  : M (option (Z * buffers.Buffer)) :=
  if (sig <? 0x34) || (Z.shiftl 1 25 <? sig)
  then fail (Errorf "PVR target size outside of accepted limits: %d" [sig])
         None
  else
    '(n, b) <- call buffers.BufferLength b ;;
    '(_, b) <- call (buffers.DecompressReplace 4 (int_sub n 4)) b ;;
    '(e, b) <- call buffers.Error b ;;
    if is_set e then set_err e ;; ret None
    else
      '(_, b) <- call (buffers.DeleteBytes 0 4) b ;;
      '(n, b) <- call buffers.BufferLength b ;;
      if n <? sig
      then fail (Errorf "PVRZ data size mismatch: %d != %d" [n; sig]) None
      else
        '(_, b) <- (if sig <? n
                    then call (buffers.DeleteBytes sig (int_sub n sig)) b
                    else ret (tt, b)) ;;
        '(sig, b) <- call (buffers.GetInt32 0) b ;;
        ret (Some (sig, b)).

(** The part of [importPvr] from [// parsing PVR header] on. *)
Definition parsePvr (sig : Z) (b : buffers.Buffer) : M unit :=
  if negb (sig =? versionSig)
  then fail (Errorf "Invalid PVR header signature: %08x" [sig]) tt
  else
  '(n, b) <- call buffers.BufferLength b ;;
  if n <? 0x34 then fail (Errorf "PVR input buffer too small" []) tt
  else
  '(flags, b) <- call (buffers.GetInt32 0x04) b ;;
  '(pf, b) <- call (buffers.GetInt32 0x0c) b ;;
  if negb (pf =? 0)
  then fail (Errorf "Extended pixel format not supported" []) tt
  else
  '(pixelType, b) <- call (buffers.GetInt32 0x08) b ;;
  if negb (pixelTypeSupported pixelType)
  then fail (Errorf "Unsupported pixel format: %d" [pixelType]) tt
  else
  '(colorSpace, b) <- call (buffers.GetInt32 0x10) b ;;
  if (colorSpace <? 0) || (1 <? colorSpace)
  then fail (Errorf "Unsupported color space: %d" [colorSpace]) tt
  else
  '(channelType, b) <- call (buffers.GetInt32 0x14) b ;;
  if (channelType <? CHAN_UBN) || (CHAN_SB <? channelType)
  then fail (Errorf "Unsupported channel type: %d" [channelType]) tt
  else
  '(height, b) <- call (buffers.GetInt32 0x18) b ;;
  if (height <? 0) || (4096 <? height)
  then fail (Errorf "Unsupported texture height: %d" [height]) tt
  else if negb (Z.land height 3 =? 0)
  then fail (Errorf "Texture height must be a multiple of 4" []) tt
  else
  '(width, b) <- call (buffers.GetInt32 0x1c) b ;;
  if (width <? 0) || (4096 <? width)
  then fail (Errorf "Unsupported texture width: %d" [width]) tt
  else if negb (Z.land width 3 =? 0)
  then fail (Errorf "Texture width must be a multiple of 4" []) tt
  else
  '(depth, b) <- call (buffers.GetInt32 0x20) b ;;
  if negb (depth =? 1)
  then fail (Errorf "Unsupported texture depth: %d" [depth]) tt
  else
  '(numSurfaces, b) <- call (buffers.GetInt32 0x24) b ;;
  if negb (numSurfaces =? 1)
  then fail (Errorf "Unsupported number of texture surfaces: %d"
               [numSurfaces]) tt
  else
  '(numFaces, b) <- call (buffers.GetInt32 0x28) b ;;
  if negb (numFaces =? 1)
  then fail (Errorf "Unsupported number of texture faces: %d" [numFaces]) tt
  else
  '(numMipMaps, b) <- call (buffers.GetInt32 0x2c) b ;;
  if negb (numMipMaps =? 1)
  then fail (Errorf "Unsupported number of texture mip maps: %d"
               [numMipMaps]) tt
  else
  '(metaLen, b) <- call (buffers.GetInt32 0x30) b ;;
  let metaLen := if metaLen <? 0 then 0 else metaLen in
  '(n, b) <- call buffers.BufferLength b ;;
  if n <? int_add 0x34 metaLen
  then fail (Errorf "Metadata size mismatch" []) tt
  else
  '(meta, b) <- (if 0 <? metaLen then call (buffers.GetBuffer 0x34 metaLen) b
                 else ret ([], b)) ;;
  let ofsData := int_add 0x34 metaLen in
  let dxtFlags :=
    if pixelType =? TYPE_BC1 then FLAGS_DXT1
    else if pixelType =? TYPE_BC2 then FLAGS_DXT3
    else if pixelType =? TYPE_BC3 then FLAGS_DXT5
    else 0 in
  let texSize := GetStorageRequirements width height dxtFlags in
  '(n, b) <- call buffers.BufferLength b ;;
  if int_sub n ofsData <? texSize
  then fail (Errorf "PVR input buffer too small" []) tt
  else
  '(bytes, b) <- call buffers.Bytes b ;;
  data <- lift (slice_from bytes ofsData) ;;
  match decodeTexture (Some data) width height pixelType with
  | None => fail (Errorf "Error while decoding texture data" []) tt
  | Some im =>
      set_info (mkInfo flags pixelType colorSpace channelType height width
                  depth numSurfaces numFaces numMipMaps meta) ;;
      set_img im
  end.

(** Used internally. Imports PVR or PVRZ data from the specified byte
    array. *)
Definition importPvr (data : option (list byte)) : M unit :=
  match data with
  | None => fail (Errorf "No input buffer specified" []) tt
  | Some _ =>
      let b := buffers.Wrap data in
      '(e, b) <- call buffers.Error b ;;
      if is_set e then set_err e
      else
        '(n, b) <- call buffers.BufferLength b ;;
        if n <? 4 then fail (Errorf "Input buffer too small" []) tt
        else
          '(sig, b) <- call (buffers.GetInt32 0) b ;;
          if negb (sig =? versionSig) then
            r <- unwrapPvrz sig b ;;
            match r with
            | None => ret tt
            | Some (sig, b) => parsePvr sig b
            end
          else parsePvr sig b
  end.

(** ** Construction *)

Definition CreateNew (width height pixelType : Z) : Pvr :=
  let width := if width <? 1 then 1 else width in
  let height := if height <? 1 then 1 else height in
  mkPvr (mkInfo 0 pixelType SPACE_LRGB CHAN_UBN height width 1 1 1 1 [])
    (NewRGBA (Rect 0 0 width height)) None QUALITY_DEFAULT false false.

(** [Load(r)]: the read loop collects what the reader yields until it
    reports an error; [read_all] is the bytes collected and that error,
    [None] for [io.EOF]. *)
Definition Load (read_all : list byte * option error) : outcome Pvr :=
  let p := CreateNew 0 0 TYPE_BC1 in
  if is_set (snd read_all)
  then obind (set_err (snd read_all) p) (fun r => Ok (snd r))
  else obind (importPvr (Some (fst read_all)) p) (fun r => Ok (snd r)).

(** ** Public methods *)

Definition Save (w : Writer) (compress : bool) : M Writer :=
  p <- get ;;
  if is_set (err p) then ret w
  else
    data <- exportPvr ;;
    p <- get ;;
    if is_set (err p) then ret w
    else
      let b := buffers.Wrap data in
      '(_, b) <- (if compress then
                    '(pvrLen, b) <- call buffers.BufferLength b ;;
                    '(_, b) <- call (buffers.CompressReplace 0 pvrLen 9) b ;;
                    '(_, b) <- call (buffers.InsertBytes 0 4) b ;;
                    '(_, b) <- call (buffers.PutInt32 0 (to_int32 pvrLen)) b ;;
                    ret (tt, b)
                  else ret (tt, b)) ;;
      '(bytes, b) <- call buffers.Bytes b ;;
      ret (fst (sink_Write w bytes)).

Definition Error : M (option error) :=
  p <- get ;; ret (err p).

Definition ClearError : M unit := set_err None.

Definition SetImage (im : option Image) : M unit :=
  p <- get ;;
  if is_set (err p) then ret tt
  else
    match im with
    | None => fail PvrzErrIllegalArguments tt
    | Some im =>
        let width := Dx (Bounds im) in
        let height := Dy (Bounds im) in
        let imgOut := NewRGBA (Rect 0 0 width height) in
        let imgOut := Draw imgOut (Bounds imgOut) im (Min (Bounds im)) in
        set_info (with_dimension (info p) width height) ;;
        set_img imgOut
    end.

Definition GetImage : M (option Image) :=
  p <- get ;;
  if is_set (err p) then ret None
  else
    let imgOut := NewRGBA (Rect 0 0 (width (info p)) (height (info p))) in
    ret (Some (Draw imgOut (Bounds imgOut) (img p) (Min (Bounds (img p))))).

Definition SetImageRect (im : Image) (r : Rectangle) (dp : Point)
  : M unit :=
  p <- get ;;
  if is_set (err p) then ret tt
  else
    let dr := mkRect dp (Point_Add dp (Size r)) in
    set_img (Draw (img p) dr im (Min r)).

Definition GetImageRect (r : Rectangle) : M (option Image) :=
  p <- get ;;
  if is_set (err p) then ret None
  else
    let imgOut := NewRGBA (mkRect ZP (Size r)) in
    ret (Some (Draw imgOut (Bounds imgOut) (img p) (Min r))).

Definition FillImageRect (r : Rectangle) (col : Color) : M unit :=
  p <- get ;;
  if is_set (err p) then ret tt
  else set_img (Draw (img p) r (Uniform col) ZP).

Definition GetWidth : M Z :=
  p <- get ;;
  if is_set (err p) then ret 0 else ret (width (info p)).

Definition GetHeight : M Z :=
  p <- get ;;
  if is_set (err p) then ret 0 else ret (height (info p)).

Definition SetDimension (w h : Z) (preserve : bool) : M unit :=
  p <- get ;;
  if is_set (err p) then ret tt
  else if (w =? width (info p)) && (h =? height (info p)) && preserve
  then ret tt
  else if w <? 1 then fail PvrzErrIllegalArguments tt
  else if h <? 1 then fail PvrzErrIllegalArguments tt
  else
    match resizeCanvas (img p) w h preserve with
    | None => fail PvrzErrIllegalArguments tt
    | Some imgNew =>
        set_info (with_dimension (info p) (Dx (Bounds imgNew))
                    (Dy (Bounds imgNew))) ;;
        set_img imgNew
    end.

Definition GetPixelType : M Z :=
  p <- get ;; ret (pixelType (info p)).

Definition SetPixelType (pixelType : Z) : M unit :=
  p <- get ;;
  if is_set (err p) then ret tt
  else if negb (pixelTypeSupported pixelType)
  then fail PvrzErrIllegalArguments tt
  else set_info (with_pixelType (info p) pixelType).

Definition GetChannelType : M Z :=
  p <- get ;;
  if is_set (err p) then ret 0 else ret (channelType (info p)).

Definition SetChannelType (channelType : Z) : M unit :=
  p <- get ;;
  if is_set (err p) then ret tt
  else if (channelType <? CHAN_UBN) || (CHAN_SB <? channelType)
  then fail PvrzErrIllegalArguments tt
  else set_info (with_channelType (info p) channelType).

Definition GetColorSpace : M Z :=
  p <- get ;;
  if is_set (err p) then ret 0 else ret (colorSpace (info p)).

Definition SetColorSpace (colorSpace : Z) : M unit :=
  p <- get ;;
  if is_set (err p) then ret tt
  else if negb (colorSpace =? SPACE_LRGB) && negb (colorSpace =? SPACE_SRGB)
  then fail PvrzErrIllegalArguments tt
  else set_info (with_colorSpace (info p) colorSpace).

Definition GetQuality : M Z :=
  p <- get ;;
  if is_set (err p) then ret 0 else ret (quality p).

Definition SetQuality (q : Z) : M unit :=
  p <- get ;;
  if is_set (err p) then ret tt
  else
    let q := if q <? QUALITY_LOW then QUALITY_LOW else q in
    let q := if QUALITY_HIGH <? q then QUALITY_HIGH else q in
    set_quality q.

Definition GetWeightByAlpha : M bool :=
  p <- get ;;
  if is_set (err p) then ret false else ret (weightByAlpha p).

Definition SetWeightByAlpha (set : bool) : M unit :=
  p <- get ;;
  if is_set (err p) then ret tt else set_weightByAlpha set.

Definition IsPerceptiveMetric : M bool :=
  p <- get ;;
  if is_set (err p) then ret false else ret (useMetric p).

Definition SetPerceptiveMetric (set : bool) : M unit :=
  p <- get ;;
  if is_set (err p) then ret tt else set_useMetric set.

End Methods.
End pvrz.

(* ================================================================== *)
(** * The public methods as data

    The statements about "every operation" range over the calls below:
    one constructor per exported method, with its arguments. *)

Module buffers_calls.
Import buffers.

Section Calls.
Context `{Charmaps} `{StreamCodec} `{Sink}.

(** What a call returns. *)
Inductive value : Type :=
| VUnit
| VInt (z : Z)
| VBool (x : bool)
| VBytes (s : list byte)
| VSlice (s : option (list byte))
| VInts (s : option (list Z))
| VError (e : option error)
| VWriter (w : Writer).

Inductive op : Type :=
| op_Save (w : Writer)
| op_Bytes
| op_Error
| op_ClearError
| op_BufferLength
| op_IsModified
| op_ClearModified
| op_GetUint8 (offset : Z)
| op_GetInt8 (offset : Z)
| op_GetUint16 (offset : Z)
| op_GetInt16 (offset : Z)
| op_GetUint32 (offset : Z)
| op_GetInt32 (offset : Z)
| op_GetUint (offset bitsize : Z)
| op_GetInt (offset bitsize : Z)
| op_GetString (offset size : Z) (null : bool)
| op_GetStringEx (offset size : Z) (null : bool) (cmap : option Charmap)
| op_GetBuffer (offset size : Z)
| op_PutUint8 (offset value : Z)
| op_PutInt8 (offset value : Z)
| op_PutUint16 (offset value : Z)
| op_PutInt16 (offset value : Z)
| op_PutUint32 (offset value : Z)
| op_PutInt32 (offset value : Z)
| op_PutString (offset size : Z) (value : gostring)
| op_PutStringEx (offset size : Z) (value : gostring)
    (cmap : option Charmap)
| op_PutBuffer (offset : Z) (src : list byte)
| op_ReplaceBuffer (data : option (list byte))
| op_InsertBytes (offset size : Z)
| op_DeleteBytes (offset size : Z)
| op_DecompressInto (offset size : Z) (buffer : option (list byte))
| op_DecompressReplace (offset size : Z)
| op_CompressInto (offset size level : Z) (buffer : option (list byte))
| op_CompressReplace (offset size level : Z)
| op_GetOffsetArray (sevenValues : list Z)
| op_GetOffsetArray2 (offset2 : Z) (sevenValues : list Z).

(** Running a call on the receiver. *)
Definition run (c : op) : M value :=
  match c with
  | op_Save w => x <- Save w ;; ret (VWriter x)
  | op_Bytes => x <- Bytes ;; ret (VBytes x)
  | op_Error => x <- Error ;; ret (VError x)
  | op_ClearError => ClearError ;; ret VUnit
  | op_BufferLength => x <- BufferLength ;; ret (VInt x)
  | op_IsModified => x <- IsModified ;; ret (VBool x)
  | op_ClearModified => ClearModified ;; ret VUnit
  | op_GetUint8 o => x <- GetUint8 o ;; ret (VInt x)
  | op_GetInt8 o => x <- GetInt8 o ;; ret (VInt x)
  | op_GetUint16 o => x <- GetUint16 o ;; ret (VInt x)
  | op_GetInt16 o => x <- GetInt16 o ;; ret (VInt x)
  | op_GetUint32 o => x <- GetUint32 o ;; ret (VInt x)
  | op_GetInt32 o => x <- GetInt32 o ;; ret (VInt x)
  | op_GetUint o bits => x <- GetUint o bits ;; ret (VInt x)
  | op_GetInt o bits => x <- GetInt o bits ;; ret (VInt x)
  | op_GetString o n z => x <- GetString o n z ;; ret (VBytes x)
  | op_GetStringEx o n z cm => x <- GetStringEx o n z cm ;; ret (VBytes x)
  | op_GetBuffer o n => x <- GetBuffer o n ;; ret (VBytes x)
  | op_PutUint8 o v => x <- PutUint8 o v ;; ret (VInt x)
  | op_PutInt8 o v => x <- PutInt8 o v ;; ret (VInt x)
  | op_PutUint16 o v => x <- PutUint16 o v ;; ret (VInt x)
  | op_PutInt16 o v => x <- PutInt16 o v ;; ret (VInt x)
  | op_PutUint32 o v => x <- PutUint32 o v ;; ret (VInt x)
  | op_PutInt32 o v => x <- PutInt32 o v ;; ret (VInt x)
  | op_PutString o n v => PutString o n v ;; ret VUnit
  | op_PutStringEx o n v cm => PutStringEx o n v cm ;; ret VUnit
  | op_PutBuffer o src => PutBuffer o src ;; ret VUnit
  | op_ReplaceBuffer data => ReplaceBuffer data ;; ret VUnit
  | op_InsertBytes o n => InsertBytes o n ;; ret VUnit
  | op_DeleteBytes o n => DeleteBytes o n ;; ret VUnit
  | op_DecompressInto o n t => x <- DecompressInto o n t ;; ret (VSlice x)
  | op_DecompressReplace o n => x <- DecompressReplace o n ;; ret (VInt x)
  | op_CompressInto o n l t => x <- CompressInto o n l t ;; ret (VSlice x)
  | op_CompressReplace o n l => x <- CompressReplace o n l ;; ret (VInt x)
  | op_GetOffsetArray sv => x <- GetOffsetArray sv ;; ret (VInts x)
  | op_GetOffsetArray2 o sv => x <- GetOffsetArray2 o sv ;; ret (VInts x)
  end.

(** The value a call returns when it is skipped: the zero or empty value
    of its result type; [Save] hands back the sink untouched, and
    [DecompressInto] and [CompressInto] hand back the target they were
    given. *)
Definition skipped (c : op) : value :=
  match c with
  | op_Save w => VWriter w
  | op_Bytes | op_GetString _ _ _ | op_GetStringEx _ _ _ _
  | op_GetBuffer _ _ => VBytes []
  | op_Error => VError None
  | op_IsModified => VBool false
  | op_ClearError | op_ClearModified | op_PutString _ _ _
  | op_PutStringEx _ _ _ _ | op_PutBuffer _ _ | op_ReplaceBuffer _
  | op_InsertBytes _ _ | op_DeleteBytes _ _ => VUnit
  | op_DecompressInto _ _ t | op_CompressInto _ _ _ t => VSlice t
  | op_GetOffsetArray _ | op_GetOffsetArray2 _ _ => VInts (Some [])
  | _ => VInt 0
  end.

(** The calls that test the error state before doing anything.  The
    others are [Error], [ClearError], [BufferLength], [IsModified] and
    [ClearModified], which never look at it, and [ReplaceBuffer], which
    resets it. *)
Definition guarded (c : op) : bool :=
  match c with
  | op_Error | op_ClearError | op_BufferLength | op_IsModified
  | op_ClearModified | op_ReplaceBuffer _ => false
  | _ => true
  end.

(** The region [(offset, size)] a call validates against the buffer
    length before it touches the content, if it validates one.
    [InsertBytes] and [DeleteBytes] validate the offset alone; the string
    calls validate nothing when [size <= 0]; the two [Replace] calls
    raise a negative size to 0 first. *)
Definition validated (c : op) : option (Z * Z) :=
  match c with
  | op_GetUint8 o | op_GetInt8 o | op_PutUint8 o _
  | op_PutInt8 o _ => Some (o, 1)
  | op_GetUint16 o | op_GetInt16 o | op_PutUint16 o _
  | op_PutInt16 o _ => Some (o, 2)
  | op_GetUint32 o | op_GetInt32 o | op_PutUint32 o _
  | op_PutInt32 o _ => Some (o, 4)
  | op_GetUint o bits | op_GetInt o bits =>
      Some (o, if bits <=? 8 then 1 else if bits <=? 16 then 2 else 4)
  | op_GetString o n _ | op_GetStringEx o n _ _
  | op_PutString o n _ | op_PutStringEx o n _ _ =>
      if 0 <? n then Some (o, n) else None
  | op_GetBuffer o n => Some (o, n)
  | op_PutBuffer o src => Some (o, len src)
  | op_InsertBytes o _ | op_DeleteBytes o _ => Some (o, 0)
  | op_DecompressInto o n _ | op_CompressInto o n _ _ => Some (o, n)
  | op_DecompressReplace o n | op_CompressReplace o n _ =>
      Some (o, Z.max 0 n)
  | _ => None
  end.

(** The decompressor never yields more than a Go slice can hold next to
    [room] further bytes. *)
Definition inflate_bounded (room : Z) : Prop :=
  forall (region data : list byte) (stop : option error),
    inflate region = Stream data stop -> room + len data <= max_int.

End Calls.

(** What the [append] and the [copy] of [InsertBytes] leave in the array
    when [n] bytes are inserted at [o]: the bytes at [o .. o+n) are not
    cleared, they keep what the appended array held there. *)
Definition inserted (s : list byte) (o n : nat) : list byte :=
  firstn (o + n) (s ++ repeat x00 n) ++ skipn o s.

(** A compression level brought into [-2 .. 9]. *)
Definition clamp_level (level : Z) : Z := Z.max (-2) (Z.min 9 level).

End buffers_calls.

Module pvrz_calls.
Import pvrz.

Section Calls.
Context `{Charmaps} `{StreamCodec} `{Sink} `{Squish}.

(** What a call returns. *)
Inductive value : Type :=
| VUnit
| VInt (z : Z)
| VBool (x : bool)
| VImage (im : option Image)
| VError (e : option error)
| VWriter (w : Writer).

Inductive op : Type :=
| op_Save (w : Writer) (compress : bool)
| op_Error
| op_ClearError
| op_SetImage (im : option Image)
| op_GetImage
| op_SetImageRect (im : Image) (r : Rectangle) (dp : Point)
| op_GetImageRect (r : Rectangle)
| op_FillImageRect (r : Rectangle) (col : Color)
| op_GetWidth
| op_GetHeight
| op_SetDimension (width height : Z) (preserve : bool)
| op_GetPixelType
| op_SetPixelType (pixelType : Z)
| op_GetChannelType
| op_SetChannelType (channelType : Z)
| op_GetColorSpace
| op_SetColorSpace (colorSpace : Z)
| op_GetQuality
| op_SetQuality (q : Z)
| op_GetWeightByAlpha
| op_SetWeightByAlpha (set : bool)
| op_IsPerceptiveMetric
| op_SetPerceptiveMetric (set : bool).

(** Running a call on the receiver. *)
Definition run (c : op) : M value :=
  match c with
  | op_Save w z => x <- Save w z ;; ret (VWriter x)
  | op_Error => x <- Error ;; ret (VError x)
  | op_ClearError => ClearError ;; ret VUnit
  | op_SetImage im => SetImage im ;; ret VUnit
  | op_GetImage => x <- GetImage ;; ret (VImage x)
  | op_SetImageRect im r dp => SetImageRect im r dp ;; ret VUnit
  | op_GetImageRect r => x <- GetImageRect r ;; ret (VImage x)
  | op_FillImageRect r col => FillImageRect r col ;; ret VUnit
  | op_GetWidth => x <- GetWidth ;; ret (VInt x)
  | op_GetHeight => x <- GetHeight ;; ret (VInt x)
  | op_SetDimension w h z => SetDimension w h z ;; ret VUnit
  | op_GetPixelType => x <- GetPixelType ;; ret (VInt x)
  | op_SetPixelType v => SetPixelType v ;; ret VUnit
  | op_GetChannelType => x <- GetChannelType ;; ret (VInt x)
  | op_SetChannelType v => SetChannelType v ;; ret VUnit
  | op_GetColorSpace => x <- GetColorSpace ;; ret (VInt x)
  | op_SetColorSpace v => SetColorSpace v ;; ret VUnit
  | op_GetQuality => x <- GetQuality ;; ret (VInt x)
  | op_SetQuality v => SetQuality v ;; ret VUnit
  | op_GetWeightByAlpha => x <- GetWeightByAlpha ;; ret (VBool x)
  | op_SetWeightByAlpha v => SetWeightByAlpha v ;; ret VUnit
  | op_IsPerceptiveMetric => x <- IsPerceptiveMetric ;; ret (VBool x)
  | op_SetPerceptiveMetric v => SetPerceptiveMetric v ;; ret VUnit
  end.

(** The value a call returns when it is skipped: the zero value of its
    result type, [nil] for an image; [Save] hands back the sink
    untouched. *)
Definition skipped (c : op) : value :=
  match c with
  | op_Save w _ => VWriter w
  | op_Error => VError None
  | op_GetImage | op_GetImageRect _ => VImage None
  | op_GetWidth | op_GetHeight | op_GetPixelType
  | op_GetChannelType | op_GetColorSpace | op_GetQuality => VInt 0
  | op_GetWeightByAlpha | op_IsPerceptiveMetric => VBool false
  | _ => VUnit
  end.

(** The calls that test the error state before doing anything.  The
    others are [Error], [ClearError] and [GetPixelType]. *)
Definition guarded (c : op) : bool :=
  match c with
  | op_Error | op_ClearError | op_GetPixelType => false
  | _ => true
  end.

(** [p] with its error state replaced. *)
Definition with_err (p : Pvr) (e : option error) : Pvr :=
  mkPvr (info p) (img p) e (quality p) (weightByAlpha p) (useMetric p).

(** Everything but the error state is the same. *)
Definition same_content (p p' : Pvr) : Prop :=
  info p' = info p /\ img p' = img p /\ quality p' = quality p
  /\ weightByAlpha p' = weightByAlpha p /\ useMetric p' = useMetric p.

End Calls.
End pvrz_calls.

(* ================================================================== *)
(** * Vocabulary for the further properties of package buffers *)

Module buffers_views.
Import buffers buffers_calls.

(** [put o v] followed by [get o] on [b]: the put returns what the get
    returned before, the get then returns [v]; the error state stays
    clear, the modified flag is raised exactly when the value changes,
    the length stays, and only the [w] bytes at [o] may differ. *)
Definition writes_then_reads (get : Z -> M Z) (put : Z -> Z -> M Z)
  (w o v : Z) (b : Buffer) : Prop :=
  exists (old : Z) (b' : Buffer),
    get o b = Ok (old, b)
    /\ put o v b = Ok (old, b')
    /\ get o b' = Ok (v, b')
    /\ err b' = None
    /\ dirty b' = dirty b || negb (old =? v)
    /\ len (buf b') = len (buf b)
    /\ firstn (Z.to_nat o) (buf b') = firstn (Z.to_nat o) (buf b)
    /\ skipn (Z.to_nat (o + w)) (buf b') = skipn (Z.to_nat (o + w)) (buf b).

Definition nonzero (x : byte) : Prop := x <> x00.

(** A text up to its terminator: [r] holds no zero byte, and [rest] is
    empty or starts with one. *)
Definition terminated (r rest : list byte) : Prop :=
  Forall nonzero r /\ (rest = [] \/ exists t, rest = x00 :: t).

(** The offsets [ofs + i*size] for [i] from [idx] to [cnt - 1]. *)
Definition offsets (ofs size idx cnt : Z) : list Z :=
  map (fun j => ofs + (idx + Z.of_nat j) * size)
      (seq 0 (Z.to_nat (cnt - idx))).

(** Whenever [m] returns, [R] relates the buffer it started on to the
    buffer it leaves. *)
Definition keeps {A} (R : Buffer -> Buffer -> Prop) (m : M A) : Prop :=
  forall b v b', m b = Ok (v, b') -> R b b'.

Section Calls.
Context `{Charmaps} `{StreamCodec} `{Sink}.

(** The calls that only look at the receiver.  [DecompressInto] and
    [CompressInto] are among them when their target is nil: given a
    target they write into the caller's slice, which may share its
    array with the receiver. *)
Definition reads (c : op) : bool :=
  match c with
  | op_Bytes | op_Error | op_BufferLength | op_IsModified
  | op_GetUint8 _ | op_GetInt8 _ | op_GetUint16 _ | op_GetInt16 _
  | op_GetUint32 _ | op_GetInt32 _ | op_GetUint _ _ | op_GetInt _ _
  | op_GetString _ _ _ | op_GetStringEx _ _ _ _ | op_GetBuffer _ _
  | op_DecompressInto _ _ None | op_CompressInto _ _ _ None
  | op_GetOffsetArray _ | op_GetOffsetArray2 _ _ => true
  | _ => false
  end.

(** The calls that lower the modified flag. *)
Definition lowers_flag (c : op) : bool :=
  match c with
  | op_Save _ | op_ClearModified => true
  | _ => false
  end.

(** The calls that can change the length of the content. *)
Definition resizes (c : op) : bool :=
  match c with
  | op_ReplaceBuffer _ | op_InsertBytes _ _ | op_DeleteBytes _ _
  | op_DecompressReplace _ _ | op_CompressReplace _ _ _ => true
  | _ => false
  end.

End Calls.
End buffers_views.

(* ================================================================== *)
(** * Vocabulary for the further properties of package pvrz *)

Module pvrz_views.
Import pvrz.

(** A header [importPvr] accepts. *)
Definition accepted (i : pvrInfo) : Prop :=
  pixelTypeSupported (pixelType i) = true
  /\ SPACE_LRGB <= colorSpace i <= SPACE_SRGB
  /\ CHAN_UBN <= channelType i <= CHAN_SB
  /\ 0 < height i <= 4096 /\ Z.land (height i) 3 = 0
  /\ 0 < width i <= 4096 /\ Z.land (width i) 3 = 0
  /\ depth i = 1 /\ numSurfaces i = 1 /\ numFaces i = 1
  /\ numMipMaps i = 1.

(** The four bytes of a 32-bit word, low byte first, and the bytes of a
    list of words. *)
Definition le32 (w : Z) : list byte :=
  [byte_of_Z w; byte_of_Z (Z.shiftr w 8); byte_of_Z (Z.shiftr w 16);
   byte_of_Z (Z.shiftr w 24)].

Definition words (ws : list Z) : list byte := flat_map le32 ws.

(** The thirteen words of the fixed part of a PVR header, as
    [prepareHeader] writes them at the offsets 0x00 to 0x30. *)
Definition header_words (i : pvrInfo) : list Z :=
  map to_uint32
    [versionSig; flags i; pixelType i; 0; colorSpace i; channelType i;
     height i; width i; depth i; numSurfaces i; numFaces i; numMipMaps i;
     len (meta i)].

Section Views.
Context `{Charmaps} `{StreamCodec} `{Sink} `{Squish}.

(** [set] followed by [get] on [p]: the setter returns with the error
    state clear, [get] then returns [r], and the setter has kept the
    image, the metadata and the dimension. *)
Definition sets_then_gets {A} (set : M unit) (get : M A) (r : A)
  (p : Pvr) : Prop :=
  exists p', set p = Ok (tt, p') /\ get p' = Ok (r, p') /\ err p' = None
             /\ img p' = img p /\ meta (info p') = meta (info p)
             /\ width (info p') = width (info p)
             /\ height (info p') = height (info p).

(** An image [encodeTexture] takes: its width and its height are
    positive multiples of 4. *)
Definition aligned (im : Image) : Prop :=
  1 <= Dx (Bounds im) /\ Z.land (Dx (Bounds im)) 3 = 0
  /\ 1 <= Dy (Bounds im) /\ Z.land (Dy (Bounds im)) 3 = 0.

End Views.
End pvrz_views.

(* ================================================================== *)
(** * Package tables: the table in memory

    The package keeps a table as rows of items, [[][]string].  The
    embedding covers the methods that query and edit the table in
    memory; the text parser ([importTable], [importRow]), the formatter
    ([exportTable]) and the methods built on them are not embedded.
    [strings.TrimSpace] and [strings.ToUpper] are fields of the class
    [Strings]. *)

Module tables.

(** Package [strings] of the Go standard library. *)
Class Strings : Type := {
  TrimSpace : gostring -> gostring;
  ToUpper : gostring -> gostring
}.

(** [s == t] on strings. *)
Fixpoint string_eqb (s t : gostring) : bool :=
  match s, t with
  | [], [] => true
  | x :: s', y :: t' => Byte.eqb x y && string_eqb s' t'
  | _, _ => false
  end.

Section Methods.
Context `{Charmaps} `{Strings}.

(** [type Table struct] *)
Record Table : Type := mkTable {
  table : list (list gostring);
  cmap : option Charmap;
  dirty : bool;
  err : option error
}.

Definition M (A : Type) : Type := St Table A.

Definition set_table (rows : list (list gostring)) : M unit :=
  fun t => Ok (tt, mkTable rows (cmap t) (dirty t) (err t)).

Definition set_dirty (d : bool) : M unit :=
  fun t => Ok (tt, mkTable (table t) (cmap t) d (err t)).

Definition set_err (e : option error) : M unit :=
  fun t => Ok (tt, mkTable (table t) (cmap t) (dirty t) e).

(** [t.err = ietools.ErrIllegalArguments; return v] *)
Definition illegal_arguments {A} (v : A) : M A :=
  set_err (Some ErrIllegalArguments) ;; ret v.

(** ** Loops of the source

    The loops that move elements of a slice take the number of
    elements as the bound on their iterations; each of them makes
    fewer iterations than that or panics.  A row is edited in place in
    the source; the embedding edits the row and writes it back to the
    table when it is complete, which differs only in states a panic
    discards. *)

(** [absoluteRow]: [for r, match := 0, 0; r < len(t.table); r++ { if
    len(t.table[r]) >= minCols { if match == row { return r }; match++
    } }; return -1]; [rows] is what is left of the table from [r] on. *)
Fixpoint absolute_scan (rows : list (list gostring)) (r matched row minCols : Z)
  : Z :=
  match rows with
  | [] => -1
  | v :: rest =>
      if minCols <=? len v then
        if matched =? row then r
        else absolute_scan rest (r + 1) (matched + 1) row minCols
      else absolute_scan rest (r + 1) matched row minCols
  end.

(** [Columns]: [for _, v := range t.table { if numCols < len(v) {
    numCols = len(v) } }] *)
Fixpoint columns_scan (rows : list (list gostring)) (numCols : Z) : Z :=
  match rows with
  | [] => numCols
  | v :: rest =>
      columns_scan rest (if numCols <? len v then len v else numCols)
  end.

(** [Rows]: [for _, v := range t.table { if len(v) >= cols { numRows++
    } }] *)
Fixpoint rows_scan (rows : list (list gostring)) (cols numRows : Z) : Z :=
  match rows with
  | [] => numRows
  | v :: rest =>
      rows_scan rest cols (if cols <=? len v then numRows + 1 else numRows)
  end.

(** [for c := hi; c > lo; c-- { s[c] = s[c-1] }], the loop of
    [InsertItem] and [InsertRow]; [steps] bounds the iterations. *)
Fixpoint shift_up {A} (s : list A) (c lo : Z) (steps : nat)
  : outcome (list A) :=
  match steps with
  | O => Ok s
  | S k =>
      if lo <? c then
        obind (index s (c - 1)) (fun x =>
        obind (store s c x) (fun s' =>
        shift_up s' (c - 1) lo k))
      else Ok s
  end.

(** [for c := lo; c < len(s); c++ { s[c] = s[c-1] }], the loop of
    [DeleteItem]. *)
Fixpoint copy_forward {A} (s : list A) (c : Z) (steps : nat)
  : outcome (list A) :=
  match steps with
  | O => Ok s
  | S k =>
      if c <? len s then
        obind (index s (c - 1)) (fun x =>
        obind (store s c x) (fun s' =>
        copy_forward s' (c + 1) k))
      else Ok s
  end.

(** [for row := lo; row < len(s); row++ { s[row-1] = s[row] }], the
    loop of [DeleteRow]. *)
Fixpoint shift_down {A} (s : list A) (c : Z) (steps : nat)
  : outcome (list A) :=
  match steps with
  | O => Ok s
  | S k =>
      if c <? len s then
        obind (index s c) (fun x =>
        obind (store s (c - 1) x) (fun s' =>
        shift_down s' (c + 1) k))
      else Ok s
  end.

(** [InsertRow]: [for _, v := range items { v = strings.TrimSpace(v);
    if len(v) > 0 { row = append(row, v) } }] *)
Fixpoint fill_row (row : list gostring) (items : list gostring)
  : list gostring :=
  match items with
  | [] => row
  | v :: rest =>
      let v := TrimSpace v in
      fill_row (if 0 <? len v then row ++ [v] else row) rest
  end.

(** ** State accessors *)

Definition Error : M (option error) :=
  t <- get ;; ret (err t).

Definition ClearError : M unit := set_err None.

Definition IsModified : M bool :=
  t <- get ;; ret (dirty t).

Definition ClearModified : M unit := set_dirty false.

(** ** Queries *)

(** Used internally. Returns the absolute table row based on row and
    minCols; -1 if the row does not exist. *)
Definition absoluteRow (t : Table) (row minCols : Z) : Z :=
  let minCols := if minCols <? 0 then 0 else minCols in
  if (0 <=? row) && (row <? len (table t))
  then absolute_scan (table t) 0 0 row minCols
  else -1.

Definition Columns : M Z :=
  t <- get ;;
  if is_set (err t) then ret 0
  else ret (columns_scan (table t) 0).

Definition RowColumns (row minCols : Z) : M Z :=
  t <- get ;;
  if is_set (err t) then ret 0
  else
    let r := absoluteRow t row minCols in
    if r <? 0 then ret (-1)
    else v <- lift (index (table t) r) ;; ret (len v).

Definition Rows (cols : Z) : M Z :=
  t <- get ;;
  if is_set (err t) then ret 0
  else
    let cols := if cols <? 0 then 0 else cols in
    if 0 <? cols then ret (rows_scan (table t) cols 0)
    else ret (len (table t)).

(** The three tests of [Is2DA] are joined by [||]: a later one is
    evaluated only when the earlier ones are false. *)
Definition Is2DA : M bool :=
  t <- get ;;
  if is_set (err t) then ret false
  else
    cols <- Columns ;;
    if cols <? 2 then ret false
    else
      rows <- Rows 0 ;;
      if rows <? 2 then ret false
      else
        r0 <- lift (index (table t) 0) ;;
        x <- lift (index r0 0) ;;
        if negb (string_eqb (ToUpper x) [x32; x44; x41]) then ret false
        else
          r0 <- lift (index (table t) 0) ;;
          y <- lift (index r0 1) ;;
          if negb (string_eqb (ToUpper y) [x56; x31; x2e; x30])
          then ret false
          else
            r1 <- lift (index (table t) 1) ;;
            if negb (len r1 =? 1) then ret false else ret true.

(** ** Items *)

Definition GetItem (row col minCols : Z) : M gostring :=
  t <- get ;;
  if is_set (err t) then ret []
  else if (row <? 0) || (col <? 0) then illegal_arguments []
  else
    let minCols := if minCols <? 0 then 0 else minCols in
    let row := absoluteRow t row minCols in
    if row <? 0 then illegal_arguments []
    else
      r <- lift (index (table t) row) ;;
      if len r <=? col then illegal_arguments []
      else lift (index r col).

Definition PutItem (row col minCols : Z) (item : gostring) : M unit :=
  t <- get ;;
  if is_set (err t) then ret tt
  else
    let item := TrimSpace item in
    if (row <? 0) || (col <? 0) || (len item =? 0)
    then illegal_arguments tt
    else
      let minCols := if minCols <? 0 then 0 else minCols in
      let row := absoluteRow t row minCols in
      if row <? 0 then illegal_arguments tt
      else
        r <- lift (index (table t) row) ;;
        if len r <=? col then illegal_arguments tt
        else
          old <- lift (index r col) ;;
          (if negb (string_eqb old item) then set_dirty true else ret tt) ;;
          r' <- lift (store r col item) ;;
          rows <- lift (store (table t) row r') ;;
          set_table rows.

Definition InsertItem (row col minCols : Z) (item : gostring) : M unit :=
  t <- get ;;
  if is_set (err t) then ret tt
  else
    let item := TrimSpace item in
    if (row <? 0) || (col <? 0) || (len item =? 0)
    then illegal_arguments tt
    else
      let minCols := if minCols <? 0 then 0 else minCols in
      let row := absoluteRow t row minCols in
      if row <? 0 then illegal_arguments tt
      else
        r <- lift (index (table t) row) ;;
        if len r <? col then illegal_arguments tt
        else
          r <- lift (append r [[]]) ;;
          r <- lift (shift_up r (int_sub (len r) 1) col (length r)) ;;
          r <- lift (store r col item) ;;
          rows <- lift (store (table t) row r) ;;
          set_table rows ;; set_dirty true.

Definition DeleteItem (row col minCols : Z) : M gostring :=
  t <- get ;;
  if is_set (err t) then ret []
  else if (row <? 0) || (col <? 0) then illegal_arguments []
  else
    let minCols := if minCols <? 0 then 0 else minCols in
    let row := absoluteRow t row minCols in
    if row <? 0 then illegal_arguments []
    else
      r <- lift (index (table t) row) ;;
      if len r <=? col then illegal_arguments []
      else
        retVal <- lift (index r col) ;;
        r <- lift (copy_forward r (int_add col 1) (length r)) ;;
        r <- lift (slice_to r (int_sub (len r) 1)) ;;
        rows <- lift (store (table t) row r) ;;
        set_table rows ;; set_dirty true ;; ret retVal.

(** ** Rows *)

(** [items] is [None] for the nil slice. *)
Definition InsertRow (rowIndex : Z) (items : option (list gostring))
  : M unit :=
  t <- get ;;
  if is_set (err t) then ret tt
  else if len_opt items =? 0 then ret tt
  else
    rows <- lift (append (table t) [[]]) ;;
    rows <- lift (shift_up rows (int_sub (len rows) 1) rowIndex
                    (length rows)) ;;
    rows <- lift (store rows rowIndex []) ;;
    rows <- lift (store rows rowIndex (fill_row [] (or_empty items))) ;;
    set_table rows ;; set_dirty true.

Definition DeleteRow (rowIndex : Z) : M unit :=
  t <- get ;;
  if is_set (err t) then ret tt
  else if (rowIndex <? 0) || (len (table t) <=? rowIndex)
  then illegal_arguments tt
  else
    rows <- lift (shift_down (table t) (int_add rowIndex 1)
                    (length (table t))) ;;
    rows <- lift (slice_to rows (int_sub (len rows) 1)) ;;
    set_table rows ;; set_dirty true.

End Methods.
End tables.

(* ================================================================== *)
(** * Vocabulary for the properties of package tables *)

Module tables_views.
Import tables.

(** The rows of at least [minCols] items, in table order: the rows a
    call with this [minCols] counts. *)
Definition wide (minCols : Z) (rows : list (list gostring))
  : list (list gostring) :=
  filter (fun v => Z.max 0 minCols <=? len v) rows.

(** Row number [row] among the rows of at least [minCols] items is
    [v], with the rows [pre] above it and the rows [post] below. *)
Definition row_at (rows : list (list gostring)) (row minCols : Z)
  (pre : list (list gostring)) (v : list gostring)
  (post : list (list gostring)) : Prop :=
  rows = pre ++ v :: post
  /\ len (wide minCols pre) = row
  /\ Z.max 0 minCols <= len v.

(** The items of a new row: the trimmed items that are not empty. *)
Definition kept_items `{Strings} (items : list gostring) : list gostring :=
  filter (fun v => 0 <? len v) (map TrimSpace items).

Section Views.
Context `{Charmaps} `{Strings}.

Definition with_table (t : Table) (rows : list (list gostring)) : Table :=
  mkTable rows (cmap t) (dirty t) (err t).

Definition with_dirty (t : Table) (d : bool) : Table :=
  mkTable (table t) (cmap t) d (err t).

Definition with_err (t : Table) (e : option error) : Table :=
  mkTable (table t) (cmap t) (dirty t) e.

End Views.
End tables_views.

(* ================================================================== *)
(** * Stand-ins for the external collaborators

    Simple instances of the collaborator classes, used to run the
    embedding on concrete inputs. *)

Module doubles.

(** Character maps that leave every byte as it is. *)
Definition plain_charmaps : Charmaps :=
  {| Charmap := unit;
     Windows1252 := tt;
     decoder_Bytes := fun _ s => (s, None);
     encoder_Bytes := fun _ s => (s, None) |}.

(** A codec that stores its input unchanged. *)
Definition stored_codec : StreamCodec :=
  {| deflate := fun _ s =>
       {| zw_written := len s; zw_write_err := None;
          zw_flush_err := None; zw_out := s |};
     inflate := fun s => Stream s None |}.

(** A sink that keeps what is written to it. *)
Definition memory_sink : Sink :=
  {| Writer := list byte;
     sink_Write := fun w s => (w ++ s, None) |}.

(** Images that only know their bounds. *)
Definition outline_imaging : Imaging :=
  {| Image := Rectangle;
     Color := unit;
     NewRGBA := fun r => r;
     NewNRGBA := fun r => r;
     Bounds := fun im => im;
     Draw := fun dst _ _ _ => dst;
     Uniform := fun _ => mkRect ZP ZP;
     is_draw_Image := fun _ => true |}.

(** A block codec with 8-byte blocks that decodes to a blank image. *)
Definition blank_squish : @Squish outline_imaging :=
  {| FLAGS_DXT1 := 1;
     FLAGS_DXT3 := 2;
     FLAGS_DXT5 := 4;
     FLAGS_SOURCE_BGRA := 512;
     FLAGS_RANGE_FIT := 16;
     FLAGS_CLUSTER_FIT := 8;
     FLAGS_ITERATIVE_CLUSTER_FIT := 256;
     FLAGS_WEIGHT_BY_ALPHA := 128;
     Metric := bool;
     METRIC_PERCEPTUAL := true;
     METRIC_UNIFORM := false;
     GetStorageRequirements := fun w h _ => ((w + 3) / 4) * ((h + 3) / 4) * 8;
     DecompressImage := fun w h _ _ => (Rect 0 0 w h : @Image outline_imaging);
     CompressImage := fun (im : @Image outline_imaging) _ _ =>
       Some (repeat x00 (Z.to_nat (((Dx im + 3) / 4) * ((Dy im + 3) / 4) * 8)))
  |}.

End doubles.

(** A codec whose output is the first half of its input, for runs in
    which a region shrinks. *)
Module shrinking.

Definition halving_codec : StreamCodec :=
  {| deflate := fun _ s =>
       {| zw_written := len s; zw_write_err := None;
          zw_flush_err := None;
          zw_out := firstn (Nat.div2 (length s)) s |};
     inflate := fun s => Stream (firstn (Nat.div2 (length s)) s) None |}.

End shrinking.

(** A stand-in for package [strings] on ASCII text, used to run the
    embedding of package tables on concrete inputs. *)

Module lettering.
Import tables.

Definition is_space (x : byte) : bool :=
  match x with
  | x09 | x0a | x0b | x0c | x0d | x20 => true
  | _ => false
  end.

Fixpoint trim_left (s : gostring) : gostring :=
  match s with
  | [] => []
  | x :: rest => if is_space x then trim_left rest else s
  end.

Definition trim (s : gostring) : gostring :=
  rev (trim_left (rev (trim_left s))).

Definition upper (x : byte) : byte :=
  let v := byte_val x in
  if (97 <=? v) && (v <=? 122) then byte_of_Z (v - 32) else x.

Definition ascii_strings : Strings :=
  {| TrimSpace := trim; ToUpper := map upper |}.

(** The table of three rows [a b], [c], [d e f]. *)
Definition sample : @Table doubles.plain_charmaps :=
  mkTable [[[x61]; [x62]]; [[x63]]; [[x64]; [x65]; [x66]]] None false None.

End lettering.

(* ================================================================== *)
(** * Proof tools and facts about the Go primitives *)

(** Deciding the comparisons of a goal by linear arithmetic. *)
Ltac test_true t :=
  let E := fresh in
  assert (E : t = true)
    by (first [apply Z.ltb_lt | apply Z.leb_le | apply Z.eqb_eq]; lia);
  rewrite E; clear E.

Ltac test_false t :=
  let E := fresh in
  assert (E : t = false)
    by (first [apply Z.ltb_ge | apply Z.leb_gt | apply Z.eqb_neq]; lia);
  rewrite E; clear E.

Ltac decide_test :=
  match goal with
  | |- context [?a <? ?b] =>
      first [test_true (a <? b) | test_false (a <? b)]
  | |- context [?a <=? ?b] =>
      first [test_true (a <=? b) | test_false (a <=? b)]
  | |- context [?a =? ?b] =>
      first [test_true (a =? b) | test_false (a =? b)]
  end.

Ltac tests := repeat decide_test; cbn [orb andb negb]; cbv beta iota.

(** Taking apart a hypothesis that a monadic computation returned. *)
Ltac crack :=
  match goal with
  | E : Ok _ = Ok _ |- _ => inversion E; subst; clear E
  | E : (_, _) = (_, _) |- _ => inversion E; subst; clear E
  | E : Panic = Ok _ |- _ => discriminate E
  | E : context [match ?x with _ => _ end] |- _ => destruct x eqn:?
  end.

Lemma wrap64_small (z : Z) : min_int <= z <= max_int -> wrap64 z = z.
Proof.
  unfold wrap64, min_int, max_int. intros Hz.
  rewrite Z.mod_small; lia.
Qed.

Lemma to_int8_range (z : Z) : - 2 ^ 31 <= to_int8 z < 2 ^ 31.
Proof.
  unfold to_int8. pose proof (Z.mod_pos_bound (z + 2 ^ 7) (2 ^ 8)). lia.
Qed.

Lemma to_int16_range (z : Z) : - 2 ^ 31 <= to_int16 z < 2 ^ 31.
Proof.
  unfold to_int16. pose proof (Z.mod_pos_bound (z + 2 ^ 15) (2 ^ 16)). lia.
Qed.

Lemma to_int32_range (z : Z) : - 2 ^ 31 <= to_int32 z < 2 ^ 31.
Proof.
  unfold to_int32. pose proof (Z.mod_pos_bound (z + 2 ^ 31) (2 ^ 32)). lia.
Qed.

Lemma len_nonneg {A} (s : list A) : 0 <= len s.
Proof. unfold len. lia. Qed.

Lemma len_app {A} (s t : list A) : len (s ++ t) = len s + len t.
Proof. unfold len. rewrite length_app. lia. Qed.

Lemma len_repeat {A} (x : A) (n : nat) : len (repeat x n) = Z.of_nat n.
Proof. unfold len. now rewrite repeat_length. Qed.

Lemma tail_before_append {A} (s t : list A) (o : nat) :
  (o <= length s)%nat ->
  firstn (length s - o) (skipn o (s ++ t)) = skipn o s.
Proof.
  intros Ho. rewrite skipn_app, firstn_app, length_skipn.
  rewrite Nat.sub_diag, firstn_O, app_nil_r.
  apply firstn_all2. rewrite length_skipn. lia.
Qed.

Lemma index_ok {A} (s : list A) (i : Z) :
  0 <= i < len s -> exists x, index s i = Ok x.
Proof.
  intros Hi. unfold index. tests.
  destruct (nth_error s (Z.to_nat i)) as [x |] eqn:E; [now exists x |].
  apply nth_error_None in E. unfold len in Hi. lia.
Qed.

Lemma index_nth {A} (s : list A) (i : Z) (x : A) :
  0 <= i -> nth_error s (Z.to_nat i) = Some x -> index s i = Ok x.
Proof.
  intros Hi E. unfold index.
  assert (Z.to_nat i < length s)%nat by (apply nth_error_Some; congruence).
  unfold len. tests. now rewrite E.
Qed.

Lemma byte_eqb_refl (x : byte) : Byte.eqb x x = true.
Proof. now apply Byte.byte_dec_lb. Qed.

Lemma len_slice {A} (s : list A) (lo hi : Z) :
  0 <= lo <= hi -> hi <= len s ->
  exists t, slice s lo hi = Ok t /\ len t = hi - lo.
Proof.
  intros H1 H2. unfold slice. tests. eexists. split; [reflexivity |].
  unfold len in *. rewrite length_firstn, length_skipn. lia.
Qed.

Lemma copy_into_len {A} (s src : list A) (lo hi : Z) :
  0 <= lo <= hi -> hi <= len s ->
  exists t, copy_into s lo hi src = Ok t /\ len t = len s.
Proof.
  intros H1 H2. unfold copy_into. tests. eexists. split; [reflexivity |].
  unfold len in *.
  rewrite !length_app, !length_firstn, length_skipn. lia.
Qed.

Lemma LE_Uint32_ok (s : list byte) :
  4 <= len s -> exists v, LE_Uint32 s = Ok v.
Proof.
  intros L. unfold LE_Uint32.
  destruct (index_ok s 3) as [x3 ->]; [lia |].
  destruct (index_ok s 0) as [x0 ->]; [lia |].
  destruct (index_ok s 1) as [x1 ->]; [lia |].
  destruct (index_ok s 2) as [x2 ->]; [lia |].
  cbn [obind]. eauto.
Qed.

(** The bounds tests of the source, under the out-of-range condition. *)
Lemma range_test (o n L : Z) :
  o < 0 \/ L < o + n -> (o <? 0) || (L <? o + n) = true.
Proof.
  intros R. apply orb_true_iff.
  destruct R; [left; apply Z.ltb_lt | right; apply Z.ltb_lt]; lia.
Qed.

Lemma range_test_1 (o L : Z) :
  o < 0 \/ L < o + 1 -> (o <? 0) || (L <=? o) = true.
Proof.
  intros R. apply orb_true_iff.
  destruct R; [left; apply Z.ltb_lt | right; apply Z.leb_le]; lia.
Qed.

Lemma range_test_0 (o L : Z) :
  o < 0 \/ L < o + 0 -> (o <? 0) || (L <? o) = true.
Proof.
  intros R. apply orb_true_iff.
  destruct R; [left; apply Z.ltb_lt | right; apply Z.ltb_lt]; lia.
Qed.

Lemma range_test_3 (t : bool) (o n L : Z) :
  o < 0 \/ L < o + n -> t || (o <? 0) || (L <? o + n) = true.
Proof.
  intros R. now rewrite <- orb_assoc, (range_test _ _ _ R), orb_true_r.
Qed.

(* ================================================================== *)
(** * Properties of package buffers *)

Module buffers_spec.
Import buffers buffers_calls.

(** Unfolding one layer of the receiver monad. *)
Ltac run :=
  unfold bind, get, ret, lift, set_buf, set_dirty, set_err, out_of_range,
    illegal_arguments;
  cbn [buf dirty err fst snd is_set].

(** ** InsertBytes followed by DeleteBytes *)

Lemma inserted_length (s : list byte) (o n : nat) :
  (o <= length s)%nat ->
  length (inserted s o n) = (length s + n)%nat.
Proof.
  intros Ho. unfold inserted.
  rewrite length_app, length_firstn, length_app, repeat_length, length_skipn.
  lia.
Qed.

Lemma inserted_prefix (s : list byte) (o n : nat) :
  (o <= length s <= o + n)%nat ->
  firstn (length s) (inserted s o n) = s.
Proof.
  intros Ho. unfold inserted.
  rewrite firstn_app.
  rewrite length_firstn, length_app, repeat_length.
  replace (length s - Nat.min (o + n) (length s + n))%nat with 0%nat by lia.
  rewrite firstn_O, app_nil_r, firstn_firstn.
  replace (Nat.min (length s) (o + n)) with (length s) by lia.
  rewrite firstn_app, firstn_all, Nat.sub_diag, firstn_O. apply app_nil_r.
Qed.

Lemma inserted_head (s : list byte) (o n : nat) :
  (o <= length s)%nat ->
  firstn o (inserted s o n) = firstn o s.
Proof.
  intros Ho. unfold inserted.
  rewrite firstn_app, length_firstn, length_app, repeat_length.
  replace (o - Nat.min (o + n) (length s + n))%nat with 0%nat by lia.
  rewrite firstn_O, app_nil_r, firstn_firstn.
  replace (Nat.min o (o + n)) with o by lia.
  rewrite firstn_app.
  replace (o - length s)%nat with 0%nat by lia.
  now rewrite firstn_O, app_nil_r.
Qed.

Lemma inserted_tail (s : list byte) (o n : nat) :
  (o <= length s)%nat ->
  skipn (o + n) (inserted s o n) = skipn o s.
Proof.
  intros Ho. unfold inserted.
  rewrite skipn_app, length_firstn, length_app, repeat_length.
  replace (o + n - Nat.min (o + n) (length s + n))%nat with 0%nat by lia.
  rewrite skipn_firstn_comm.
  replace (o + n - (o + n))%nat with 0%nat by lia.
  reflexivity.
Qed.

Lemma InsertBytes_grows (b : Buffer) (o n : Z) :
  err b = None -> 0 <= o <= len (buf b) -> 0 < n ->
  len (buf b) + n <= max_int ->
  InsertBytes o n b
  = Ok (tt, mkBuffer (inserted (buf b) (Z.to_nat o) (Z.to_nat n)) true None).
Proof.
  destruct b as [s d e]. cbn [buf err]. intros -> Ho Hn Hmax.
  assert (Hl := len_nonneg s).
  unfold InsertBytes. run. tests.
  unfold make. tests.
  unfold append. rewrite len_repeat. tests.
  unfold slice. rewrite len_app, len_repeat. tests.
  unfold copy_into, int_add.
  rewrite !wrap64_small by (unfold min_int, max_int in *; lia).
  rewrite len_app, len_repeat. tests.
  do 3 f_equal.
  unfold inserted, len in *.
  rewrite Z2Nat.inj_add by lia. f_equal.
  replace (Z.to_nat (Z.of_nat (length s) - o))
    with (length s - Z.to_nat o)%nat by lia.
  rewrite tail_before_append by lia.
  rewrite length_skipn.
  replace (Z.to_nat (Z.of_nat (length s) + n - (o + n)))
    with (length s - Z.to_nat o)%nat by lia.
  rewrite Nat.min_id.
  rewrite firstn_all2 by (rewrite length_skipn; lia).
  rewrite (@skipn_all2 _ _ (s ++ _))
    by (rewrite length_app, repeat_length; lia).
  apply app_nil_r.
Qed.

Lemma DeleteBytes_of_inserted (s : list byte) (d : bool) (o n : Z) :
  0 <= o <= len s -> 0 < n -> len s + n <= max_int ->
  DeleteBytes o n (mkBuffer (inserted s (Z.to_nat o) (Z.to_nat n)) d None)
  = Ok (tt, mkBuffer s true None).
Proof.
  intros Ho Hn Hmax.
  assert (Hl := len_nonneg s).
  assert (Hlen : len (inserted s (Z.to_nat o) (Z.to_nat n)) = len s + n).
  { unfold len in *. rewrite inserted_length by lia. lia. }
  unfold DeleteBytes. run. rewrite Hlen. tests.
  destruct (Z.eqb_spec o 0) as [-> | Hne].
  - unfold slice_from, slice. rewrite Hlen. tests.
    do 3 f_equal.
    change (Z.to_nat 0) with 0%nat.
    pose proof (inserted_tail s 0 (Z.to_nat n)) as Ht. cbn [Nat.add] in Ht.
    rewrite Ht by lia.
    unfold len. cbn [skipn]. apply firstn_all2. lia.
  - unfold slice_to, slice, int_sub, int_add. rewrite Hlen.
    rewrite !wrap64_small by (unfold min_int, max_int in *; lia).
    replace (len s + n - n) with (len s) by lia.
    change (0 <? 0) with false. tests.
    change (Z.to_nat 0) with 0%nat. cbn [skipn].
    rewrite !Z.sub_0_r.
    set (ins := inserted s (Z.to_nat o) (Z.to_nat n)).
    assert (Hins : length ins = (length s + Z.to_nat n)%nat)
      by (apply inserted_length; unfold len in *; lia).
    assert (Hcut : len (firstn (Z.to_nat (len s)) ins) = len s).
    { unfold len in *. rewrite length_firstn. lia. }
    rewrite Hcut.
    destruct (Z.ltb_spec (o + n) (len s)) as [Hshift | Hstay].
    + tests. unfold copy_into. rewrite Hcut. tests.
      do 3 f_equal.
      rewrite firstn_firstn.
      replace (Nat.min (Z.to_nat o) (Z.to_nat (len s))) with (Z.to_nat o)
        by (unfold len in *; lia).
      unfold ins. rewrite inserted_head by (unfold len in *; lia).
      rewrite Z2Nat.inj_add by lia.
      rewrite inserted_tail by (unfold len in *; lia).
      rewrite length_firstn, length_skipn.
      rewrite (firstn_all2 (skipn _ _))
        by (rewrite length_skipn; unfold len in *; lia).
      rewrite (firstn_all2 (skipn _ _))
        by (rewrite length_skipn; unfold len in *; lia).
      rewrite (@skipn_all2 _ _ (firstn _ _)).
      * rewrite app_nil_r. apply firstn_skipn.
      * rewrite length_firstn. fold ins. unfold len in *. lia.
    + do 3 f_equal. unfold len. rewrite Nat2Z.id.
      apply inserted_prefix. unfold len in *. lia.
Qed.

(** C1. On an error-free buffer, for every offset [o] with [0 <= o <=
    length] and every [n >= 0] (the grown buffer still being a Go slice),
    [InsertBytes(o, n)] followed by [DeleteBytes(o, n)] runs without
    error or panic and leaves the buffer with its original bytes, hence
    its original length; the modified flag is raised when [n > 0]. *)
Theorem InsertBytes_then_DeleteBytes_restores (b : Buffer) (o n : Z) :
  err b = None ->
  0 <= o <= len (buf b) ->
  0 <= n ->
  len (buf b) + n <= max_int ->
  (InsertBytes o n ;; DeleteBytes o n) b
  = Ok (tt, mkBuffer (buf b) (dirty b || (0 <? n)) None).
Proof.
  intros He Ho Hn Hmax.
  destruct (Z.eq_dec n 0) as [-> | Hpos].
  - destruct b as [s d e]. cbn [buf err dirty] in *. subst e.
    unfold InsertBytes, DeleteBytes. do 2 (run; tests).
    now rewrite orb_false_r.
  - unfold bind at 1.
    rewrite InsertBytes_grows by (assumption || lia).
    rewrite DeleteBytes_of_inserted by (assumption || lia).
    test_true (0 <? n). now rewrite orb_true_r.
Qed.

Lemma InsertBytes_then_DeleteBytes_restores_witness :
  let b := mkBuffer [x01; x02; x03; x04] false None in
  (0 <= 1 <= len (buf b) /\ len (buf b) + 2 <= max_int)
  /\ (InsertBytes 1 2 ;; DeleteBytes 1 2) b
     = Ok (tt, mkBuffer [x01; x02; x03; x04] true None).
Proof.
  split.
  - unfold len, max_int. cbn. lia.
  - apply (InsertBytes_then_DeleteBytes_restores
             (mkBuffer [x01; x02; x03; x04] false None) 1 2).
    + reflexivity.
    + unfold len. cbn. lia.
    + lia.
    + unfold len, max_int. cbn. lia.
Defined.


(** The buggy side of [DeleteBytes], for the record: the size is not
    checked against the length.  Deleting past the end drops bytes from
    the end of the buffer without an error, or panics when more bytes
    are to go than the buffer holds. *)
Lemma DeleteBytes_past_the_end :
  DeleteBytes 2 2 (mkBuffer [x01; x02; x03] false None)
  = Ok (tt, mkBuffer [x01] true None)
  /\ DeleteBytes 2 5 (mkBuffer [x01; x02; x03] false None) = Panic.
Proof. split; reflexivity. Qed.

(** ** Calls that return *)

Lemma GetInt32_ok (b : Buffer) (o : Z) :
  err b = None -> 0 <= o -> o + 4 <= len (buf b) -> len (buf b) <= max_int ->
  exists v, GetInt32 o b = Ok (v, b) /\ - 2 ^ 31 <= v < 2 ^ 31.
Proof.
  destruct b as [s d e]. cbn [buf err]. intros -> Ho Hl Hm.
  unfold GetInt32, GetUint32. run.
  unfold int_add. rewrite wrap64_small by (unfold min_int, max_int in *; lia).
  tests.
  destruct (len_slice s o (len s)) as [t [Et Lt]]; [lia | lia |].
  unfold slice_from. rewrite Et.
  destruct (LE_Uint32_ok t) as [v Ev]; [lia |].
  rewrite Ev. eexists. split; [reflexivity | apply to_int32_range].
Qed.

Lemma GetBuffer_ok (b : Buffer) (o n : Z) :
  err b = None -> 0 <= o -> 0 <= n -> o + n <= len (buf b) ->
  len (buf b) <= max_int ->
  exists v, GetBuffer o n b = Ok (v, b).
Proof.
  destruct b as [s d e]. cbn [buf err]. intros -> Ho Hn Hl Hm.
  unfold GetBuffer. run.
  unfold int_add. rewrite wrap64_small by (unfold min_int, max_int in *; lia).
  tests. unfold make. tests. rewrite len_repeat.
  destruct (len_slice s o (o + n)) as [t [-> Lt]]; [lia | lia |].
  cbv beta iota.
  destruct (copy_into_len (repeat x00 (Z.to_nat n)) t 0
              (Z.of_nat (Z.to_nat n)))
    as [t2 [-> L2]]; [lia | rewrite len_repeat; lia |].
  eauto.
Qed.

Lemma InsertBytes_returns (b : Buffer) (o n : Z) :
  err b = None -> 0 <= o <= len (buf b) -> 0 < n ->
  len (buf b) + n <= max_int ->
  exists b', InsertBytes o n b = Ok (tt, b')
             /\ err b' = None /\ len (buf b') = len (buf b) + n.
Proof.
  intros He Ho Hn Hm. rewrite InsertBytes_grows by assumption.
  eexists. split; [reflexivity |]. split; [reflexivity |].
  cbn [buf]. unfold len in *. rewrite inserted_length by lia. lia.
Qed.

(** Within the length of the buffer, [DeleteBytes] always returns a
    buffer shorter by [n] bytes. *)
Lemma DeleteBytes_returns (b : Buffer) (o n : Z) :
  err b = None -> 0 <= o <= len (buf b) -> 0 < n <= len (buf b) ->
  o + n <= max_int -> len (buf b) <= max_int ->
  exists b', DeleteBytes o n b = Ok (tt, b')
             /\ err b' = None /\ len (buf b') = len (buf b) - n.
Proof.
  destruct b as [s d e]. cbn [buf err]. intros -> Ho Hn Hon Hm.
  unfold DeleteBytes. run. tests.
  destruct (Z.eqb_spec o 0) as [-> | Hne].
  - unfold slice_from.
    destruct (len_slice s n (len s)) as [t [-> Lt]]; [lia | lia |].
    eexists. split; [reflexivity |]. split; [reflexivity | exact Lt].
  - unfold slice_to, int_sub, int_add.
    rewrite !wrap64_small by (unfold min_int, max_int in *; lia).
    destruct (len_slice s 0 (len s - n)) as [t [-> Lt]]; [lia | lia |].
    destruct (len_slice s 0 o) as [t0 [-> _]]; [lia | lia |].
    cbv beta iota. rewrite Lt, Z.sub_0_r.
    destruct (Z.ltb_spec (o + n) (len s - n)) as [Hs | Hs].
    + destruct (len_slice s (o + n) (len s)) as [t1 [-> _]]; [lia | lia |].
      cbv beta iota.
      destruct (copy_into_len t t1 o (len s - n)) as [t2 [-> L2]];
        [lia | lia |].
      eexists. split; [reflexivity |]. split; [reflexivity |].
      cbn [buf]. lia.
    + eexists. split; [reflexivity |]. split; [reflexivity |].
      cbn [buf]. lia.
Qed.

(** ** Create *)

(** C7 (the code departs from the specification). [Create()], which is
    [Wrap(nil)], returns a buffer of 256 zero bytes: [BufferLength()] is
    256 and [Bytes()] is that array, not the empty one. *)
Theorem Create_holds_256_bytes :
  BufferLength Create = Ok (256, Create)
  /\ Bytes Create = Ok (repeat x00 256, Create)
  /\ Create = Wrap None.
Proof. repeat split. Qed.

(** ** GetOffsetArray *)

Lemma read_124_range (width offset : Z) (b b' : Buffer) (x : Z) :
  read_124 width offset b = Ok (x, b') -> - 2 ^ 31 <= x < 2 ^ 31.
Proof.
  unfold read_124, GetInt8, GetInt16, GetInt32, bind, ret.
  destruct (width =? 1).
  { destruct (GetUint8 offset b) as [[u b1] |]; [| discriminate].
    intros E. inversion E. apply to_int8_range. }
  destruct (width =? 2).
  { destruct (GetUint16 offset b) as [[u b1] |]; [| discriminate].
    intros E. inversion E. apply to_int16_range. }
  destruct (width =? 4).
  { destruct (GetUint32 offset b) as [[u b1] |]; [| discriminate].
    intros E. inversion E. apply to_int32_range. }
  intros E. inversion E. lia.
Qed.

(** C8 (the code departs from the specification). With an index-field width of
    3 and every other argument well formed, [GetOffsetArray] raises no
    error: the width test of the index field looks at the count field's
    width again.  The index field is then never read, the start index
    stays 0, and all five offsets from the base offset 8 come back. *)
Theorem GetOffsetArray_accepts_index_width_3 :
  let b := mkBuffer [x00; x08; x00; x05; x02] false None in
  GetOffsetArray [1; 2; 3; 1; 4; 3; 16] b
  = Ok (Some [8; 24; 40; 56; 72], b)
  /\ GetOffsetArray [1; 2; 3; 1; 4; 1; 16] b = Ok (Some [40; 56; 72], b).
Proof. split; reflexivity. Qed.

(** In general: with an index-field width of 3 the call does what it
    does when no index field is configured at all. *)
Lemma GetOffsetArray_index_width_3_is_ignored (b : Buffer)
  (ofs ofsSize cnt cntSize idx size : Z) :
  GetOffsetArray [ofs; ofsSize; cnt; cntSize; idx; 3; size] b
  = GetOffsetArray [ofs; ofsSize; cnt; cntSize; 0; 0; size] b.
Proof.
  unfold GetOffsetArray. cbn [nth].
  change (3 <? 0) with false. change (4 <? 3) with false.
  change (0 <? 0) with false. change (4 <? 0) with false.
  cbn [orb].
  assert (R : read_124 3 idx = ret 0) by reflexivity.
  rewrite R. destruct (0 <? idx); reflexivity.
Qed.

(** C9. On an error-free buffer, with a well-formed argument tuple whose
    offset field reads [O > 0], whose count field reads 5, whose index
    field is configured and reads 2, and whose [structSize] is 16,
    [GetOffsetArray] returns exactly [[O+32, O+48, O+64]] and leaves the
    buffer as it was. *)
Theorem GetOffsetArray_count_5_index_2_size_16 (b : Buffer) (O : Z)
  (ofs ofsSize cnt cntSize idx idxSize : Z) (rest : list Z) :
  err b = None ->
  0 < ofs -> ofsSize = 2 \/ ofsSize = 4 ->
  0 < cnt -> cntSize = 1 \/ cntSize = 2 \/ cntSize = 4 ->
  0 < idx -> idxSize = 1 \/ idxSize = 2 \/ idxSize = 4 ->
  read_124 ofsSize ofs b = Ok (O, b) ->
  read_124 cntSize cnt b = Ok (5, b) ->
  read_124 idxSize idx b = Ok (2, b) ->
  0 < O ->
  GetOffsetArray ([ofs; ofsSize; cnt; cntSize; idx; idxSize; 16] ++ rest) b
  = Ok (Some [O + 32; O + 48; O + 64], b).
Proof.
  intros He Hofs Hos Hcnt Hcs Hidx His RO RC RI HO.
  pose proof (read_124_range _ _ _ _ _ RO) as HR.
  unfold GetOffsetArray.
  unfold bind at 1. unfold get at 1. rewrite He. cbn [is_set].
  assert (L : (len ([ofs; ofsSize; cnt; cntSize; idx; idxSize; 16] ++ rest)
               <? 7) = false).
  { apply Z.ltb_ge. unfold len. cbn [app length]. lia. }
  rewrite L. cbn [nth app].
  test_false (ofs <=? 0). test_false (cnt <=? 0). cbn [orb].
  assert (T1 : negb (ofsSize =? 2) && negb (ofsSize =? 4) = false)
    by (destruct Hos; subst; reflexivity).
  rewrite T1.
  assert (T2 : (cntSize <? 1) || (4 <? cntSize) || (cntSize =? 3) = false)
    by (destruct Hcs as [-> | [-> | ->]]; reflexivity).
  rewrite T2.
  assert (T3 : (idxSize <? 0) || (4 <? idxSize) || (cntSize =? 3) = false)
    by (destruct His as [-> | [-> | ->]], Hcs as [-> | [-> | ->]];
        reflexivity).
  rewrite T3.
  change (16 <=? 0) with false. cbv iota.
  unfold bind at 1.
  match goal with
  | |- match ?c with _ => _ end = _ => assert (RO' : c = Ok (O, b))
  end.
  { revert RO. unfold read_124. destruct Hos; subst; cbn; auto. }
  rewrite RO'.
  unfold bind at 1. rewrite RC.
  test_true (0 <? idx).
  unfold bind at 1. rewrite RI.
  test_true (0 <? O).
  cbn [andb Z.ltb Z.leb Z.compare Pos.compare Pos.compare_cont].
  unfold bind, lift, ret, make.
  change (int_sub 5 2) with 3. change (3 <? 0) with false. cbv iota.
  change (Z.to_nat 3) with 3%nat. change (Z.to_nat (5 - 2)) with 3%nat.
  cbn [repeat offset_loop].
  change (int_sub 2 2) with 0. change (int_sub (2 + 1) 2) with 1.
  change (int_sub (2 + 1 + 1) 2) with 2.
  change (int_mul 2 16) with 32. change (int_mul (2 + 1) 16) with 48.
  change (int_mul (2 + 1 + 1) 16) with 64.
  unfold int_add.
  rewrite !wrap64_small by (unfold min_int, max_int; lia).
  reflexivity.
Qed.

Lemma GetOffsetArray_count_5_index_2_size_16_witness :
  let b := mkBuffer [x00; x08; x00; x05; x02] false None in
  GetOffsetArray ([1; 2; 3; 1; 4; 1; 16] ++ []) b
  = Ok (Some [8 + 32; 8 + 48; 8 + 64], b).
Proof.
  apply (GetOffsetArray_count_5_index_2_size_16
           (mkBuffer [x00; x08; x00; x05; x02] false None) 8
           1 2 3 1 4 1 []).
  - reflexivity.
  - lia.
  - left; reflexivity.
  - lia.
  - left; reflexivity.
  - lia.
  - left; reflexivity.
  - reflexivity.
  - reflexivity.
  - reflexivity.
  - lia.
Defined.

(** ** PutStringEx *)

(** The comparison loop answers [true] when the bytes to write are
    already at their place. *)
Lemma equal_scan_same (src s : list byte) (offset idx : Z) :
  0 <= offset + idx -> offset + idx + len src <= max_int ->
  firstn (length src) (skipn (Z.to_nat (offset + idx)) s) = src ->
  equal_scan src s offset idx = Ok true.
Proof.
  revert idx. induction src as [| x rest IH]; intros idx H0 Hm E.
  - reflexivity.
  - cbn [equal_scan]. unfold int_add.
    assert (Hr := len_nonneg rest).
    assert (Hlen : len (x :: rest) = 1 + len rest)
      by (unfold len; cbn [length]; lia).
    rewrite wrap64_small by (unfold min_int, max_int in *; lia).
    destruct (skipn (Z.to_nat (offset + idx)) s) as [| y tl] eqn:Sk;
      [discriminate E |].
    cbn [length firstn] in E. injection E as -> Et.
    assert (N : nth_error s (Z.to_nat (offset + idx)) = Some x).
    { rewrite <- (firstn_skipn (Z.to_nat (offset + idx)) s) at 1.
      assert (Hlt : (Z.to_nat (offset + idx) <= length s)%nat).
      { destruct (Nat.le_gt_cases (Z.to_nat (offset + idx)) (length s));
          [assumption |].
        rewrite skipn_all2 in Sk by lia. discriminate Sk. }
      rewrite nth_error_app2; rewrite length_firstn; [| lia].
      replace (Z.to_nat (offset + idx)
               - Nat.min (Z.to_nat (offset + idx)) (length s))%nat
        with 0%nat by lia.
      now rewrite Sk. }
    rewrite (index_nth _ _ _ H0 N). cbn [obind].
    rewrite byte_eqb_refl.
    apply IH; [lia | lia |].
    replace (Z.to_nat (offset + (idx + 1)))
      with (S (Z.to_nat (offset + idx))) by lia.
    pose proof (skipn_skipn 1 (Z.to_nat (offset + idx)) s) as K.
    cbn [Nat.add] in K. rewrite <- K, Sk. exact Et.
Qed.

Section Facts.
Context `{Charmaps} `{StreamCodec} `{Sink}.

(** Whenever the bytes of the string are those the field starts with,
    [PutStringEx] writes nothing: what follows them in the field stays,
    whatever it is. *)
Lemma PutStringEx_skips_equal_prefix (b : Buffer) (offset size : Z)
  (value : gostring) :
  err b = None -> 0 < size -> 0 <= offset ->
  offset + size <= len (buf b) -> len (buf b) <= max_int ->
  len value <= size ->
  firstn (length value) (skipn (Z.to_nat offset) (buf b)) = value ->
  PutStringEx offset size value None b = Ok (tt, b).
Proof.
  destruct b as [s d e]. cbn [buf err]. intros -> Hs Ho Hl Hm Hv E.
  unfold PutStringEx. run. unfold int_add.
  rewrite wrap64_small by (unfold min_int, max_int in *; lia).
  tests.
  rewrite equal_scan_same; [reflexivity | lia | lia |].
  now rewrite Z.add_0_r.
Qed.

(** C6 (the code departs from the specification). Writing ["AB"] into the
    4-byte field that holds ["ABCD"] changes nothing: only the encoded
    bytes are compared with the field, they are found equal, and the
    copy and the zero fill are skipped.  The field keeps ["ABCD"], it
    does not become ["AB\000\000"], and the modified flag stays down. *)
Theorem PutStringEx_keeps_stale_tail :
  let b := mkBuffer [x41; x42; x43; x44] false None in
  PutStringEx 0 4 [x41; x42] None b = Ok (tt, b)
  /\ buf b <> [x41; x42; x00; x00]
  /\ PutStringEx 0 4 [x41; x45] None b
     = Ok (tt, mkBuffer [x41; x45; x00; x00] true None).
Proof.
  repeat split. discriminate.
Qed.

(** ** The error state *)

(** On a buffer whose error state is set, every guarded call returns its
    skipped value and leaves the buffer as it is. *)
Lemma buffer_guarded_call_is_skipped (c : op) (b : Buffer) :
  err b <> None -> guarded c = true -> run c b = Ok (skipped c, b).
Proof.
  destruct b as [s d [e |]]; [intros _ | intros E; now elim E].
  destruct c; cbn [guarded]; intros G; try discriminate G;
    try reflexivity.
  - cbn [run]. unfold GetUint.
    destruct (bitsize <=? 8); [reflexivity |].
    destruct (bitsize <=? 16); reflexivity.
  - cbn [run]. unfold GetInt.
    destruct (bitsize <=? 8); [reflexivity |].
    destruct (bitsize <=? 16); reflexivity.
Qed.

(** ** Bounds validation *)

Ltac refuse R I :=
  unfold int_add; rewrite ?(wrap64_small _ I); run;
  first [rewrite (range_test_3 _ _ _ _ R) | rewrite (range_test _ _ _ R)
        | rewrite (range_test_1 _ _ R) | rewrite (range_test_0 _ _ R)];
  run; reflexivity.

(** C3, as amended. On an error-free buffer, a call whose validated
    region [(o, n)] has [o < 0] or [o + n > length] (the sum being an
    [int]) sets [ErrOffsetOutOfRange], returns its skipped value, leaves
    content and modified flag as they are, and does not panic.  The
    validated region of the typed reads and writes is the width of the
    value; of the string calls their field, when its size is positive;
    of [GetBuffer], [PutBuffer], [DecompressInto] and [CompressInto]
    the region they are given; of the two [Replace] calls that region
    with a negative size raised to 0; of [InsertBytes] and [DeleteBytes]
    the offset alone. *)
Theorem out_of_range_is_reported (c : op) (b : Buffer) (o n : Z) :
  err b = None ->
  validated c = Some (o, n) ->
  is_int (o + n) ->
  o < 0 \/ len (buf b) < o + n ->
  run c b
  = Ok (skipped c, mkBuffer (buf b) (dirty b) (Some ErrOffsetOutOfRange)).
Proof.
  destruct b as [s d e]. cbn [buf err dirty]. intros -> V I R.
  assert (Hl := len_nonneg s).
  destruct c; cbn [validated] in V; try discriminate V;
    try (injection V as <- <-).
  all: cbn [run skipped].
  all: try (unfold GetInt8, GetInt16, GetInt32, PutInt8, PutInt16, PutInt32).
  all: try (unfold GetUint8, GetUint16, GetUint32, PutUint8, PutUint16,
              PutUint32, GetBuffer, PutBuffer, InsertBytes, DeleteBytes,
              DecompressInto, CompressInto;
            refuse R I).
  - unfold GetUint. destruct (bitsize <=? 8); [| destruct (bitsize <=? 16)];
      unfold GetUint8, GetUint16, GetUint32; refuse R I.
  - unfold GetInt. destruct (bitsize <=? 8); [| destruct (bitsize <=? 16)];
      unfold GetInt8, GetInt16, GetInt32, GetUint8, GetUint16, GetUint32;
      refuse R I.
  - destruct (Z.ltb_spec 0 size) as [Hs |]; [| discriminate V].
    injection V as <- <-. unfold GetString, GetStringEx. run.
    test_false (size <=? 0). refuse R I.
  - destruct (Z.ltb_spec 0 size) as [Hs |]; [| discriminate V].
    injection V as <- <-. unfold GetStringEx. run.
    test_false (size <=? 0). refuse R I.
  - destruct (Z.ltb_spec 0 size) as [Hs |]; [| discriminate V].
    injection V as <- <-. unfold PutString, PutStringEx. run.
    test_false (size <=? 0). refuse R I.
  - destruct (Z.ltb_spec 0 size) as [Hs |]; [| discriminate V].
    injection V as <- <-. unfold PutStringEx. run.
    test_false (size <=? 0). refuse R I.
  - unfold DecompressReplace. run.
    replace (if size <? 0 then 0 else size) with (Z.max 0 size)
      by (destruct (Z.ltb_spec size 0); lia).
    unfold DecompressInto. refuse R I.
  - unfold CompressReplace. run.
    replace (if size <? 0 then 0 else size) with (Z.max 0 size)
      by (destruct (Z.ltb_spec size 0); lia).
    unfold CompressInto. refuse R I.
Qed.

(** ** DecompressReplace *)

(** On an in-bounds region [DecompressReplace] returns; when it leaves no
    error, the region has been replaced by [v] bytes. *)
Lemma DecompressReplace_returns (b : Buffer) (offset size : Z) :
  err b = None -> 0 <= offset -> offset + size <= len (buf b) ->
  len (buf b) <= max_int ->
  inflate_bounded (len (buf b)) ->
  exists v b', DecompressReplace offset size b = Ok (v, b')
    /\ (err b' = None ->
        len (buf b') = len (buf b) - size + v /\ 0 <= v /\ 0 < size
        /\ len (buf b') <= max_int).
Proof.
  destruct b as [s d e]. cbn [buf err]. intros -> Ho Hs Hm Hb.
  assert (Hl := len_nonneg s).
  unfold DecompressReplace. run.
  destruct (Z.ltb_spec size 0) as [Hneg | Hpos].
  { unfold DecompressInto. run. tests.
    do 2 eexists. split; [reflexivity |]. cbn [err]. discriminate. }
  unfold DecompressInto. run.
  unfold int_add. rewrite !wrap64_small by (unfold min_int, max_int in *; lia).
  destruct (Z.leb_spec size 0) as [Hz | Hgt].
  { tests. do 2 eexists. split; [reflexivity |]. cbn [err]. discriminate. }
  tests.
  destruct (len_slice s offset (offset + size)) as [region [-> Lr]];
    [lia | lia |].
  cbv beta iota.
  destruct (inflate region) as [e | data stop] eqn:I.
  { run. do 2 eexists. split; [reflexivity |]. cbn [err]. discriminate. }
  cbn [len_opt]. change (0 =? 0) with true. cbv iota.
  unfold make. tests.
  destruct stop as [e |].
  { run. do 2 eexists. split; [reflexivity |]. cbn [err]. discriminate. }
  run.
  pose proof (Hb _ _ _ I) as Hd.
  assert (Hn := len_nonneg data).
  unfold replace_region. cbn [len_opt or_empty].
  unfold int_sub, int_add.
  rewrite !wrap64_small by (unfold min_int, max_int in *; lia).
  destruct (Z.ltb_spec size (len data)) as [Hgrow | Hng].
  - destruct (InsertBytes_returns (mkBuffer s d None) (offset + size)
                (len data - size)) as [b1 [E1 [Er1 L1]]];
      cbn [buf err]; try lia; try reflexivity.
    unfold bind at 1. rewrite E1.
    destruct b1 as [s1 d1 e1]. cbn [buf err] in *. subst e1. run.
    destruct (copy_into_len s1 data offset (offset + len data))
      as [t [-> Lt]]; [lia | lia |].
    do 2 eexists. split; [reflexivity |]. cbn [buf err]. intros _. lia.
  - destruct (Z.ltb_spec (len data) size) as [Hshrink | Hsame].
    + destruct (DeleteBytes_returns (mkBuffer s d None) (offset + len data)
                  (size - len data)) as [b1 [E1 [Er1 L1]]];
        cbn [buf err]; try lia; try reflexivity.
      unfold bind at 1. rewrite E1.
      destruct b1 as [s1 d1 e1]. cbn [buf err] in *. subst e1. run.
      destruct (copy_into_len s1 data offset (offset + len data))
        as [t [-> Lt]]; [lia | lia |].
      do 2 eexists. split; [reflexivity |]. cbn [buf err]. intros _. lia.
    + run.
      destruct (copy_into_len s data offset (offset + len data))
        as [t [-> Lt]]; [lia | lia |].
      do 2 eexists. split; [reflexivity |]. cbn [buf err]. intros _. lia.
Qed.

(** ** Compression level *)

(** On any buffer, [CompressInto] and [CompressReplace] run at a
    level as at that level clamped to [-2 .. 9], a level the zlib
    writer accepts. *)
Lemma clamped_level_runs_alike (offset size level : Z)
  (buffer : option (list byte)) (b : Buffer) :
  CompressInto offset size level buffer b
  = CompressInto offset size (clamp_level level) buffer b
  /\ CompressReplace offset size level b
     = CompressReplace offset size (clamp_level level) b
  /\ NewWriterLevel_err (clamp_level level) = None
  /\ (level < -2 -> clamp_level level = -2)
  /\ (9 < level -> clamp_level level = 9)
  /\ (-2 <= level <= 9 -> clamp_level level = level).
Proof.
  assert (E : (if clamp_level level <? -2 then -2
               else if 9 <? clamp_level level then 9 else clamp_level level)
              = (if level <? -2 then -2 else if 9 <? level then 9 else level)).
  { unfold clamp_level.
    destruct (Z.ltb_spec level (-2)), (Z.ltb_spec 9 level);
      destruct (Z.ltb_spec (Z.max (-2) (Z.min 9 level)) (-2));
      destruct (Z.ltb_spec 9 (Z.max (-2) (Z.min 9 level))); lia. }
  assert (C : forall t, CompressInto offset size level t b
              = CompressInto offset size (clamp_level level) t b).
  { intros t. unfold CompressInto. now rewrite E. }
  split; [apply C |]. split; [| split].
  - unfold CompressReplace, bind.
    destruct (get b) as [[b0 b1] |] eqn:G; [| reflexivity].
    unfold get in G. inversion G; subst.
    destruct (is_set (err b1)); [reflexivity |].
    unfold CompressInto. now rewrite E.
  - unfold NewWriterLevel_err, clamp_level, HuffmanOnly, BestCompression.
    destruct (Z.ltb_spec (Z.max (-2) (Z.min 9 level)) (-2)); [lia |].
    destruct (Z.ltb_spec 9 (Z.max (-2) (Z.min 9 level))); [lia |].
    reflexivity.
  - unfold clamp_level. repeat split; lia.
Qed.

End Facts.

(** ** Runs on concrete buffers *)

Section Runs.
Existing Instance doubles.plain_charmaps.
Existing Instance doubles.stored_codec.
Existing Instance doubles.memory_sink.

(** C3, as stated, fails: inserting 5 bytes at offset 0 of a 3-byte
    buffer has [offset + size > length], and yet no error is set and the
    buffer grows to 8 bytes. *)
Lemma InsertBytes_accepts_any_size :
  let b := mkBuffer [x01; x02; x03] false None in
  len (buf b) < 0 + 5
  /\ run (op_InsertBytes 0 5) b
     = Ok (VUnit,
           mkBuffer [x01; x02; x03; x00; x00; x01; x02; x03] true None)
  /\ run (op_InsertBytes 0 5) b
     <> Ok (skipped (op_InsertBytes 0 5),
            mkBuffer (buf b) (dirty b) (Some ErrOffsetOutOfRange)).
Proof.
  intros b. split; [| split].
  - unfold b, len. cbn. lia.
  - reflexivity.
  - intros E. vm_compute in E. discriminate E.
Qed.

(** The same with [PutString], under a character map that leaves the
    bytes as they are. *)
Lemma PutString_keeps_stale_tail :
  let b := mkBuffer [x41; x42; x43; x44] false None in
  PutString 0 4 [x41; x42] b = Ok (tt, b).
Proof. reflexivity. Qed.

Lemma out_of_range_is_reported_witness :
  let b := mkBuffer [x01; x02; x03] false None in
  run (op_GetUint16 2) b
  = Ok (VInt 0, mkBuffer [x01; x02; x03] false (Some ErrOffsetOutOfRange)).
Proof.
  apply (out_of_range_is_reported (op_GetUint16 2)
           (mkBuffer [x01; x02; x03] false None) 2 2).
  - reflexivity.
  - reflexivity.
  - unfold is_int, min_int, max_int. lia.
  - right. unfold len. cbn. lia.
Defined.

End Runs.

End buffers_spec.

(* ================================================================== *)
(** * Properties of package pvrz *)

Module pvrz_spec.
Import pvrz pvrz_calls.

Section Facts.
Context `{Charmaps} `{StreamCodec} `{Sink} `{Squish}.

(** ** The error state *)

(** On a container whose error state is set, every guarded call returns
    its skipped value and leaves the container as it is. *)
Lemma pvr_guarded_call_is_skipped (c : op) (p : Pvr) :
  err p <> None -> guarded c = true -> run c p = Ok (skipped c, p).
Proof.
  destruct p as [i im [e |] q wa um]; [intros _ | intros E; now elim E].
  destruct c; cbn [guarded]; intros G; try discriminate G; reflexivity.
Qed.

(** [GetPixelType] is the one getter without the test of the error
    state: it answers whatever that state is. *)
Lemma GetPixelType_ignores_error_state (p : Pvr) :
  GetPixelType p = Ok (pixelType (info p), p).
Proof. reflexivity. Qed.

(** ** Import *)

Lemma same_content_with_err (p : Pvr) (e : option error) :
  same_content p (with_err p e).
Proof. repeat split. Qed.

(** Header parsing either commits the parsed container and leaves the
    error state alone, or sets the error state and nothing else. *)
Lemma parsePvr_failure (sig : Z) (b : buffers.Buffer) (p p' : Pvr)
  (a : unit) :
  parsePvr sig b p = Ok (a, p') -> err p' <> err p -> same_content p p'.
Proof.
  unfold parsePvr, call, fail, bind, lift, ret, set_err, set_info, set_img.
  intros E D.
  repeat crack; cbn [err info img quality weightByAlpha useMetric] in *;
    try (now elim D); try (repeat split; reflexivity).
Qed.

(** Unwrapping PVRZ data touches the container only to set the error
    state, and then it hands back nothing to parse. *)
Lemma unwrapPvrz_frame (sig : Z) (b : buffers.Buffer) (p p' : Pvr)
  (r : option (Z * buffers.Buffer)) :
  unwrapPvrz sig b p = Ok (r, p') ->
  match r with
  | Some _ => p' = p
  | None => same_content p p'
  end.
Proof.
  unfold unwrapPvrz, call, fail, bind, lift, ret, set_err.
  intros E.
  repeat crack; cbn [err info img quality weightByAlpha useMetric] in *;
    try reflexivity; try (repeat split; reflexivity).
Qed.

Lemma importPvr_changes_err_only (data : option (list byte)) (p p' : Pvr)
  (a : unit) :
  importPvr data p = Ok (a, p') -> err p' <> err p -> same_content p p'.
Proof.
  unfold importPvr. intros E D.
  destruct data as [d |].
  - unfold call, fail, bind, lift, ret, set_err in E.
    destruct (buffers.Error (buffers.Wrap (Some d))) as [[e b] |];
      [| discriminate E].
    destruct (is_set e).
    { inversion E; subst. repeat split. }
    destruct (buffers.BufferLength b) as [[n b1] |]; [| discriminate E].
    destruct (n <? 4).
    { inversion E; subst. repeat split. }
    destruct (buffers.GetInt32 0 b1) as [[sig b2] |]; [| discriminate E].
    destruct (negb (sig =? versionSig)).
    + destruct (unwrapPvrz sig b2 p) as [[r p1] |] eqn:U; [| discriminate E].
      apply unwrapPvrz_frame in U.
      destruct r as [[sig' b3] |].
      * subst p1. eapply parsePvr_failure; eassumption.
      * inversion E; subst. exact U.
    + eapply parsePvr_failure; eassumption.
  - unfold fail, bind, ret, set_err in E. inversion E; subst. repeat split.
Qed.

Lemma importPvr_wrapper_size (d : list byte) (p : Pvr) (S : Z)
  (b : buffers.Buffer) :
  4 <= len d ->
  buffers.GetInt32 0 (buffers.Wrap (Some d)) = Ok (S, b) ->
  S <> versionSig ->
  S < 0x34 \/ 2 ^ 25 < S ->
  importPvr (Some d) p
  = Ok (tt, with_err p
              (Some (Errorf "PVR target size outside of accepted limits: %d"
                       [S]))).
Proof.
  intros L G NS R.
  change (buffers.Wrap (Some d)) with (buffers.mkBuffer d false None) in G.
  unfold importPvr, call, bind, lift, ret.
  change (buffers.Wrap (Some d)) with (buffers.mkBuffer d false None).
  unfold buffers.Error, buffers.BufferLength, bind, get, ret.
  cbn [buffers.err buffers.buf is_set].
  test_false (len d <? 4).
  rewrite G.
  test_false (S =? versionSig). cbn [negb].
  unfold unwrapPvrz.
  assert (T : (S <? 52) || (Z.shiftl 1 25 <? S) = true).
  { apply orb_true_iff. change (Z.shiftl 1 25) with (2 ^ 25).
    destruct R; [left | right]; apply Z.ltb_lt; lia. }
  rewrite T. reflexivity.
Qed.

(** *** The import returns *)

Ltac unwrap :=
  unfold int_add, int_sub in *;
  rewrite ?wrap64_small in * by (unfold min_int, max_int in *; lia).

Ltac step :=
  match goal with
  | E : buffers.err ?b = None |- context [is_set (buffers.err ?b)] =>
      rewrite E; cbn [is_set]
  | |- context [buffers.GetInt32 ?k ?b] =>
      let v := fresh "v" in
      let E := fresh "E" in
      let R := fresh "R" in
      destruct (buffers_spec.GetInt32_ok b k) as [v [E R]];
      [assumption | lia | lia | assumption | rewrite E; clear E;
                                              cbv beta iota]
  | |- context [buffers.GetBuffer ?k ?n ?b] =>
      let v := fresh "meta" in
      let E := fresh "E" in
      destruct (buffers_spec.GetBuffer_ok b k n) as [v E];
      [assumption | lia | lia | lia | assumption | rewrite E; clear E;
                                                    cbv beta iota]
  | |- context [slice_from ?s ?k] =>
      let v := fresh "data" in
      let E := fresh "E" in
      destruct (len_slice s k (len s)) as [v [E _]];
      [lia | lia | unfold slice_from; rewrite E; clear E; cbv beta iota]
  | |- context [match decodeTexture ?a ?b ?c ?d with _ => _ end] =>
      destruct (decodeTexture a b c d)
  | |- context [if negb ?c then _ else _] => destruct c; cbn [negb]
  | |- context [if ?a <? ?b then _ else _] =>
      destruct (Z.ltb_spec a b); unwrap
  | |- context [if ?c then _ else _] => destruct c
  end.

Lemma parsePvr_returns (sig : Z) (b : buffers.Buffer) (p : Pvr) :
  buffers.err b = None -> len (buffers.buf b) <= max_int ->
  exists p', parsePvr sig b p = Ok (tt, p').
Proof.
  intros He Hm.
  assert (Hl := len_nonneg (buffers.buf b)).
  unfold parsePvr, call, fail, bind, lift, ret, set_err, set_info, set_img.
  unfold buffers.BufferLength, buffers.Bytes, bind, get, ret.
  cbv beta iota. rewrite ?He. cbn [is_set].
  destruct (negb (sig =? versionSig)); [eauto |].
  destruct (Z.ltb_spec (len (buffers.buf b)) 52); [eauto |].
  repeat (step; try lia; try (solve [eauto])).
Qed.

Lemma unwrapPvrz_returns (sig : Z) (b : buffers.Buffer) (p : Pvr) :
  buffers.err b = None -> 4 <= len (buffers.buf b) <= max_int ->
  buffers_calls.inflate_bounded (len (buffers.buf b)) ->
  exists r p', unwrapPvrz sig b p = Ok (r, p')
    /\ match r with
       | Some (_, b') =>
           buffers.err b' = None /\ len (buffers.buf b') <= max_int
       | None => True
       end.
Proof.
  intros He Hm Hb.
  unfold unwrapPvrz, call, fail, bind, lift, ret, set_err.
  destruct ((sig <? 52) || (Z.shiftl 1 25 <? sig)) eqn:T.
  { do 2 eexists. split; [reflexivity | exact I]. }
  apply orb_false_iff in T. destruct T as [T1 T2].
  apply Z.ltb_ge in T1.
  unfold buffers.BufferLength, buffers.Error, bind, get, ret.
  cbv beta iota. unwrap.
  destruct (buffers_spec.DecompressReplace_returns b 4
              (len (buffers.buf b) - 4))
    as [v [b1 [E1 P1]]]; [assumption | lia | lia | lia | assumption |].
  rewrite E1. cbv beta iota.
  destruct (buffers.err b1) as [e |] eqn:Er1.
  { cbn [is_set]. do 2 eexists. split; [reflexivity | exact I]. }
  cbn [is_set]. destruct (P1 eq_refl) as [L1 [Hv [_ M1]]].
  destruct (buffers_spec.DeleteBytes_returns b1 0 4) as [b2 [E2 [Er2 L2]]];
    [assumption | lia | lia | lia | lia |].
  rewrite E2. cbv beta iota.
  destruct (Z.ltb_spec (len (buffers.buf b2)) sig) as [Hlt | Hge].
  { do 2 eexists. split; [reflexivity | exact I]. }
  destruct (Z.ltb_spec sig (len (buffers.buf b2))) as [Hcut | Hns].
  - unwrap.
    destruct (buffers_spec.DeleteBytes_returns b2 sig
                (len (buffers.buf b2) - sig))
      as [b3 [E3 [Er3 L3]]]; [assumption | lia | lia | lia | lia |].
    rewrite E3. cbv beta iota.
    destruct (buffers_spec.GetInt32_ok b3 0) as [s' [E4 _]];
      [assumption | lia | lia | lia |].
    rewrite E4. do 2 eexists. split; [reflexivity |].
    split; [assumption | lia].
  - cbv beta iota.
    destruct (buffers_spec.GetInt32_ok b2 0) as [s' [E4 _]];
      [assumption | lia | lia | lia |].
    rewrite E4. do 2 eexists. split; [reflexivity |].
    split; [assumption | lia].
Qed.

(** Whatever the input, [importPvr] returns (it does not panic), as long
    as input and decompressed data fit a Go slice. *)
Lemma importPvr_returns (data : option (list byte)) (p : Pvr) :
  len_opt data <= max_int ->
  buffers_calls.inflate_bounded (len_opt data) ->
  exists p', importPvr data p = Ok (tt, p').
Proof.
  intros Hm Hb. unfold importPvr.
  destruct data as [d |]; [| unfold fail, bind, ret, set_err; eauto].
  cbn [len_opt] in *.
  assert (Hl := len_nonneg d).
  unfold call, fail, bind, lift, ret, set_err.
  change (buffers.Wrap (Some d)) with (buffers.mkBuffer d false None).
  unfold buffers.Error, buffers.BufferLength, bind, get, ret.
  cbn [buffers.err buffers.buf is_set].
  destruct (Z.ltb_spec (len d) 4); [eauto |].
  destruct (buffers_spec.GetInt32_ok (buffers.mkBuffer d false None) 0)
    as [sig [E _]];
    cbn [buffers.err buffers.buf]; try lia; try reflexivity.
  rewrite E.
  destruct (negb (sig =? versionSig)).
  - destruct (unwrapPvrz_returns sig (buffers.mkBuffer d false None) p)
      as [r [p1 [E1 P1]]]; cbn [buffers.err buffers.buf];
      try lia; try reflexivity; try assumption.
    rewrite E1. destruct r as [[sig' b'] |]; [| eauto].
    destruct P1. now apply parsePvr_returns.
  - apply parsePvr_returns; cbn [buffers.err buffers.buf];
      [reflexivity | lia].
Qed.

(** C4. [importPvr], run on a container without error (as [Load] runs
    it), returns for every input (input and decompressed data fitting a
    Go slice), and when it ends with the error state set, the header
    fields, the metadata, the pixel image and the encoding parameters
    are what they were before the call; only the error state has
    changed.  Data whose leading four bytes read as a size [S] other
    than the PVR signature, with [S < 0x34] (negative values included)
    or [S > 2^25], is such a case: the import ends with the size
    error. *)
Theorem importPvr_failure_keeps_state (data : option (list byte))
  (p : Pvr) :
  err p = None ->
  (len_opt data <= max_int ->
   buffers_calls.inflate_bounded (len_opt data) ->
   exists p' : Pvr, importPvr data p = Ok (tt, p'))
  /\ (forall p' : Pvr,
        importPvr data p = Ok (tt, p') -> err p' <> None ->
        same_content p p')
  /\ (forall (d : list byte) (S : Z) (b : buffers.Buffer),
        data = Some d ->
        4 <= len d ->
        buffers.GetInt32 0 (buffers.Wrap (Some d)) = Ok (S, b) ->
        S <> versionSig ->
        S < 0x34 \/ 2 ^ 25 < S ->
        exists p' : Pvr,
          importPvr data p = Ok (tt, p')
          /\ err p'
             = Some (Errorf "PVR target size outside of accepted limits: %d"
                       [S])
          /\ same_content p p').
Proof.
  intros He. split; [| split].
  - apply importPvr_returns.
  - intros p' E D. apply (importPvr_changes_err_only data p p' tt E).
    now rewrite He.
  - intros d S b -> L G NS R.
    eexists. split; [apply (importPvr_wrapper_size d p S b); assumption |].
    split; [reflexivity | apply same_content_with_err].
Qed.

(** [Load] starts from the blank container of [CreateNew(0, 0,
    TYPE_BC1)]: when it ends with the error state set, it hands back
    that blank container with the error. *)
Lemma Load_failure_keeps_blank_state (read_all : list byte * option error)
  (p' : Pvr) :
  Load read_all = Ok p' -> err p' <> None ->
  same_content (CreateNew 0 0 TYPE_BC1) p'.
Proof.
  unfold Load. intros E D.
  destruct (is_set (snd read_all)).
  - cbn in E. inversion E; subst. repeat split.
  - destruct (importPvr (Some (fst read_all)) (CreateNew 0 0 TYPE_BC1))
      as [[a p1] |] eqn:I; [| discriminate E].
    cbn in E. inversion E; subst.
    apply (importPvr_changes_err_only _ _ _ _ I). exact D.
Qed.

(** ** Setters of the encoding parameters *)

(** C5, as amended. On an error-free container, [SetPixelType],
    [SetChannelType] and [SetColorSpace] called with a value outside
    their enumeration set [ErrIllegalArguments] and change nothing else.
    [SetQuality] sets no error: it stores the value brought into
    [QUALITY_LOW .. QUALITY_HIGH].  [SetWeightByAlpha] and
    [SetPerceptiveMetric] take a boolean and store it. *)
Theorem setters_check_enumerations (p : Pvr) (v : Z) :
  err p = None ->
  (v <> TYPE_BC1 -> v <> TYPE_BC2 -> v <> TYPE_BC3 ->
   SetPixelType v p = Ok (tt, with_err p (Some PvrzErrIllegalArguments)))
  /\ (v < CHAN_UBN \/ CHAN_SB < v ->
      SetChannelType v p
      = Ok (tt, with_err p (Some PvrzErrIllegalArguments)))
  /\ (v <> SPACE_LRGB -> v <> SPACE_SRGB ->
      SetColorSpace v p
      = Ok (tt, with_err p (Some PvrzErrIllegalArguments)))
  /\ SetQuality v p
     = Ok (tt, mkPvr (info p) (img p) None
                 (Z.max QUALITY_LOW (Z.min QUALITY_HIGH v))
                 (weightByAlpha p) (useMetric p))
  /\ (forall x : bool,
        SetWeightByAlpha x p
        = Ok (tt, mkPvr (info p) (img p) None (quality p) x (useMetric p)))
  /\ (forall x : bool,
        SetPerceptiveMetric x p
        = Ok (tt, mkPvr (info p) (img p) None (quality p)
                    (weightByAlpha p) x)).
Proof.
  destruct p as [i im e q wa um]. cbn [err]. intros ->.
  unfold with_err. cbn [info img err quality weightByAlpha useMetric].
  split; [| split; [| split; [| split; [| split]]]].
  - intros N1 N2 N3. unfold SetPixelType, pixelTypeSupported, fail, bind,
      get, ret, set_err. cbn [err is_set info img quality weightByAlpha
      useMetric].
    test_false (v =? TYPE_BC1). test_false (v =? TYPE_BC2).
    test_false (v =? TYPE_BC3). reflexivity.
  - intros R. unfold SetChannelType, fail, bind, get, ret, set_err.
    cbn [err is_set info img quality weightByAlpha useMetric].
    assert (T : (v <? CHAN_UBN) || (CHAN_SB <? v) = true).
    { apply orb_true_iff.
      destruct R; [left | right]; apply Z.ltb_lt; lia. }
    rewrite T. reflexivity.
  - intros N1 N2. unfold SetColorSpace, fail, bind, get, ret, set_err.
    cbn [err is_set info img quality weightByAlpha useMetric].
    test_false (v =? SPACE_LRGB). test_false (v =? SPACE_SRGB).
    reflexivity.
  - unfold SetQuality, set_quality, bind, get, ret.
    cbn [err is_set info img quality weightByAlpha useMetric].
    do 3 f_equal. unfold QUALITY_LOW, QUALITY_HIGH.
    destruct (Z.ltb_spec v 0); [destruct (Z.ltb_spec 2 0) |
                                 destruct (Z.ltb_spec 2 v)]; lia.
  - intros x. reflexivity.
  - intros x. reflexivity.
Qed.

End Facts.

(** ** Runs on concrete containers *)

Section Runs.
Existing Instance doubles.plain_charmaps.
Existing Instance doubles.stored_codec.
Existing Instance doubles.memory_sink.
Existing Instance doubles.outline_imaging.
Existing Instance doubles.blank_squish.

Lemma importPvr_failure_keeps_state_witness :
  let p := CreateNew 8 8 TYPE_BC1 in
  let p' :=
    with_err p
      (Some (Errorf "PVR target size outside of accepted limits: %d" [0])) in
  importPvr (Some [x00; x00; x00; x00]) p = Ok (tt, p')
  /\ same_content p p'.
Proof.
  intros p p'. split.
  - reflexivity.
  - apply (proj1 (proj2 (importPvr_failure_keeps_state
                           (Some [x00; x00; x00; x00]) p eq_refl)) p').
    + reflexivity.
    + discriminate.
Defined.

(** C5, as stated, fails: [SetQuality(5)] is not rejected; no error is
    set and the stored quality changes from [QUALITY_DEFAULT] to
    [QUALITY_HIGH]. *)
Lemma SetQuality_clamps_and_accepts :
  let p := CreateNew 8 8 TYPE_BC1 in
  SetQuality 5 p
  = Ok (tt, mkPvr (info p) (img p) None QUALITY_HIGH false false)
  /\ quality p = QUALITY_DEFAULT
  /\ SetQuality 5 p <> Ok (tt, with_err p (Some PvrzErrIllegalArguments)).
Proof.
  intros p. split; [reflexivity | split; [reflexivity |]].
  intros E. vm_compute in E. discriminate E.
Qed.

(** [prepareHeader] starts from [buffers.Create()] and inserts the 0x34
    header bytes in front of what that buffer holds: the header it
    returns is 256 bytes longer than the fixed layout. *)
Lemma prepareHeader_is_308_bytes :
  exists hdr : list byte,
    prepareHeader (CreateNew 8 8 TYPE_BC1) = Ok hdr /\ len hdr = 0x34 + 256.
Proof.
  eexists. split; [vm_compute; reflexivity | reflexivity].
Qed.

Lemma setters_check_enumerations_witness :
  let p := CreateNew 8 8 TYPE_BC1 in
  SetPixelType 8 p = Ok (tt, with_err p (Some PvrzErrIllegalArguments)).
Proof.
  intros p.
  apply (proj1 (setters_check_enumerations p 8 eq_refl)).
  - discriminate.
  - discriminate.
  - discriminate.
Defined.

End Runs.

End pvrz_spec.

(* ================================================================== *)
(** * The sticky error state of both packages *)

Section Sticky.
Context `{Charmaps} `{StreamCodec} `{Sink} `{Squish}.

(** C2, as amended. While the error state of a [Buffer] is set, every
    method but [Error], [ClearError], [BufferLength], [IsModified],
    [ClearModified] and [ReplaceBuffer] returns its skipped value (zero
    or empty; the target handed in for [DecompressInto] and
    [CompressInto], the sink untouched for [Save]) and leaves the buffer
    as it is.  While the error state of a [Pvr] is set, every public
    method but [Error], [ClearError] and [GetPixelType] does.
    [ClearError] resets the error state and nothing else; [ReplaceBuffer]
    installs the new content and resets the error state as well. *)
Theorem error_state_skips_guarded_calls :
  (forall (c : buffers_calls.op) (b : buffers.Buffer),
     buffers.err b <> None ->
     buffers_calls.guarded c = true ->
     buffers_calls.run c b = Ok (buffers_calls.skipped c, b))
  /\ (forall (c : pvrz_calls.op) (p : pvrz.Pvr),
        pvrz.err p <> None ->
        pvrz_calls.guarded c = true ->
        pvrz_calls.run c p = Ok (pvrz_calls.skipped c, p))
  /\ (forall b : buffers.Buffer,
        buffers.ClearError b
        = Ok (tt, buffers.mkBuffer (buffers.buf b) (buffers.dirty b) None))
  /\ (forall p : pvrz.Pvr,
        pvrz.ClearError p = Ok (tt, pvrz_calls.with_err p None))
  /\ (forall (data : option (list byte)) (b : buffers.Buffer),
        buffers.ReplaceBuffer data b
        = Ok (tt, buffers.mkBuffer (or_empty data) true None)).
Proof.
  split; [| split; [| split; [| split]]].
  - apply buffers_spec.buffer_guarded_call_is_skipped.
  - apply pvrz_spec.pvr_guarded_call_is_skipped.
  - reflexivity.
  - reflexivity.
  - reflexivity.
Qed.

End Sticky.

Section StickyRuns.
Existing Instance doubles.plain_charmaps.
Existing Instance doubles.stored_codec.
Existing Instance doubles.memory_sink.
Existing Instance doubles.outline_imaging.
Existing Instance doubles.blank_squish.

(** C2, as stated, fails: on a buffer whose error state is set,
    [ReplaceBuffer] is not skipped; it replaces the content, raises the
    modified flag and resets the error state. *)
Lemma ReplaceBuffer_runs_on_error :
  let b := buffers.mkBuffer [x01] false (Some ErrOffsetOutOfRange) in
  buffers.ReplaceBuffer (Some [x02]) b
  = Ok (tt, buffers.mkBuffer [x02] true None)
  /\ buffers.ReplaceBuffer (Some [x02]) b <> Ok (tt, b).
Proof.
  split; [reflexivity | discriminate].
Qed.

Lemma error_state_skips_guarded_calls_witness :
  let b := buffers.mkBuffer [x01; x02] false (Some ErrOffsetOutOfRange) in
  buffers_calls.run (buffers_calls.op_PutUint8 0 7) b
  = Ok (buffers_calls.VInt 0, b).
Proof.
  intros b.
  apply (proj1 error_state_skips_guarded_calls
           (buffers_calls.op_PutUint8 0 7) b).
  - discriminate.
  - reflexivity.
Defined.

End StickyRuns.

(* ================================================================== *)
(** * Further properties of package buffers

    The statements numbered X1 to X18 are read off the code of the
    package: what the typed accessors, the string and raw accessors, the
    structural edits, the two [Replace] calls and [GetOffsetArray] do on
    an error-free buffer, and what no call ever does. *)

Module buffers_more.
Import buffers buffers_calls buffers_views buffers_spec.

(** ** Bytes and little-endian words *)

(** ** Bytes and little-endian words *)

Lemma byte_val_range (x : byte) : 0 <= byte_val x < 256.
Proof.
  unfold byte_val. pose proof (Byte.to_N_bounded x). lia.
Qed.

Lemma byte_val_of_Z (z : Z) : byte_val (byte_of_Z z) = z mod 256.
Proof.
  unfold byte_val, byte_of_Z, to_uint8.
  change (2 ^ 8) with 256.
  pose proof (Z.mod_pos_bound z 256 eq_refl) as B.
  destruct (Byte.of_N (Z.to_N (z mod 256))) as [x |] eqn:E.
  - apply Byte.to_of_N in E. rewrite E. lia.
  - apply Byte.of_N_None_iff in E. lia.
Qed.

Lemma byte_of_Z_val (x : byte) : byte_of_Z (byte_val x) = x.
Proof.
  unfold byte_of_Z, to_uint8. change (2 ^ 8) with 256.
  rewrite Z.mod_small by apply byte_val_range.
  unfold byte_val. rewrite N2Z.id, Byte.of_to_N. reflexivity.
Qed.

Lemma lor_shiftl_add (a b n : Z) :
  0 <= n -> 0 <= a < 2 ^ n -> Z.lor a (Z.shiftl b n) = a + b * 2 ^ n.
Proof.
  intros Hn Ha.
  rewrite <- Z.shiftl_mul_pow2 by assumption.
  rewrite <- Z.add_lor_land.
  replace (Z.land a (Z.shiftl b n)) with 0; [lia |].
  symmetry. apply Z.bits_inj'. intros i Hi.
  rewrite Z.land_spec, Z.bits_0.
  destruct (Z.lt_ge_cases i n) as [Hlt | Hge].
  - rewrite Z.shiftl_spec_low by assumption. apply andb_false_r.
  - rewrite <- (Z.mod_small a (2 ^ n)) by assumption.
    rewrite Z.mod_pow2_bits_high by lia. reflexivity.
Qed.

Lemma LE_Uint16_cons (c0 c1 : byte) (post : list byte) :
  LE_Uint16 (c0 :: c1 :: post) = Ok (byte_val c0 + 256 * byte_val c1).
Proof.
  unfold LE_Uint16.
  rewrite (index_nth _ 1 c1) by (lia || reflexivity).
  rewrite (index_nth _ 0 c0) by (lia || reflexivity).
  cbn [obind]. f_equal.
  rewrite lor_shiftl_add by (lia || apply byte_val_range). lia.
Qed.

Lemma LE_Uint32_cons (c0 c1 c2 c3 : byte) (post : list byte) :
  LE_Uint32 (c0 :: c1 :: c2 :: c3 :: post)
  = Ok (byte_val c0 + 256 * byte_val c1 + 65536 * byte_val c2
        + 16777216 * byte_val c3).
Proof.
  unfold LE_Uint32.
  rewrite (index_nth _ 3 c3) by (lia || reflexivity).
  rewrite (index_nth _ 0 c0) by (lia || reflexivity).
  rewrite (index_nth _ 1 c1) by (lia || reflexivity).
  rewrite (index_nth _ 2 c2) by (lia || reflexivity).
  cbn [obind]. f_equal.
  pose proof (byte_val_range c0). pose proof (byte_val_range c1).
  pose proof (byte_val_range c2). pose proof (byte_val_range c3).
  rewrite (lor_shiftl_add (byte_val c0)) by lia.
  rewrite (lor_shiftl_add (byte_val c0 + _) _ 16) by lia.
  rewrite (lor_shiftl_add _ _ 24) by lia.
  lia.
Qed.

Lemma store_cons_0 {A} (x y : A) (s : list A) :
  store (y :: s) 0 x = Ok (x :: s).
Proof.
  unfold store, len. cbn [length].
  assert (E : (0 <? 0) || (Z.of_nat (S (length s)) <=? 0) = false).
  { apply orb_false_iff. split; [reflexivity | apply Z.leb_gt; lia]. }
  rewrite E. reflexivity.
Qed.

Lemma store_cons_S {A} (x y : A) (s t : list A) (i : Z) :
  0 <= i -> store s i x = Ok t -> store (y :: s) (i + 1) x = Ok (y :: t).
Proof.
  intros Hi. unfold store, len. cbn [length].
  destruct ((i <? 0) || (Z.of_nat (length s) <=? i)) eqn:E; [discriminate |].
  apply orb_false_iff in E. destruct E as [E1 E2].
  apply Z.leb_gt in E2.
  intros T. inversion T; subst.
  assert (E : (i + 1 <? 0) || (Z.of_nat (S (length s)) <=? i + 1) = false).
  { apply orb_false_iff. split; [apply Z.ltb_ge | apply Z.leb_gt]; lia. }
  rewrite E. replace (Z.to_nat (i + 1)) with (S (Z.to_nat i)) by lia.
  reflexivity.
Qed.

Lemma LE_PutUint16_cons (c0 c1 : byte) (post : list byte) (v : Z) :
  LE_PutUint16 (c0 :: c1 :: post) v
  = Ok (byte_of_Z v :: byte_of_Z (Z.shiftr v 8) :: post).
Proof.
  unfold LE_PutUint16.
  rewrite (index_nth _ 1 c1) by (lia || reflexivity). cbn [obind].
  rewrite store_cons_0. cbn [obind].
  apply (store_cons_S _ _ _ _ 0); [lia | apply store_cons_0].
Qed.

Lemma LE_PutUint32_cons (c0 c1 c2 c3 : byte) (post : list byte) (v : Z) :
  LE_PutUint32 (c0 :: c1 :: c2 :: c3 :: post) v
  = Ok (byte_of_Z v :: byte_of_Z (Z.shiftr v 8)
          :: byte_of_Z (Z.shiftr v 16) :: byte_of_Z (Z.shiftr v 24) :: post).
Proof.
  unfold LE_PutUint32.
  rewrite (index_nth _ 3 c3) by (lia || reflexivity). cbn [obind].
  rewrite store_cons_0. cbn [obind].
  rewrite (store_cons_S _ _ _ _ 0 (Z.le_refl 0) (store_cons_0 _ _ _)).
  cbn [obind].
  rewrite (store_cons_S _ _ _ _ 1 ltac:(lia)
             (store_cons_S _ _ _ _ 0 (Z.le_refl 0) (store_cons_0 _ _ _))).
  cbn [obind].
  apply (store_cons_S _ _ _ _ 2); [lia |].
  apply (store_cons_S _ _ _ _ 1); [lia |].
  apply (store_cons_S _ _ _ _ 0); [lia | apply store_cons_0].
Qed.

Lemma le16_value (v : Z) :
  0 <= v < 2 ^ 16 ->
  byte_val (byte_of_Z v) + 256 * byte_val (byte_of_Z (Z.shiftr v 8)) = v.
Proof.
  intros Hv. rewrite !byte_val_of_Z, Z.shiftr_div_pow2 by lia.
  change (2 ^ 8) with 256. change (2 ^ 16) with 65536 in Hv.
  assert (Q : 0 <= v / 256 < 256)
    by (split; [apply Z.div_pos | apply Z.div_lt_upper_bound]; lia).
  rewrite (Z.mod_small (v / 256)) by exact Q.
  pose proof (Z.div_mod v 256). lia.
Qed.

Lemma le32_value (v : Z) :
  0 <= v < 2 ^ 32 ->
  byte_val (byte_of_Z v) + 256 * byte_val (byte_of_Z (Z.shiftr v 8))
  + 65536 * byte_val (byte_of_Z (Z.shiftr v 16))
  + 16777216 * byte_val (byte_of_Z (Z.shiftr v 24)) = v.
Proof.
  intros Hv. rewrite !byte_val_of_Z, !Z.shiftr_div_pow2 by lia.
  change (2 ^ 8) with 256. change (2 ^ 16) with 65536.
  change (2 ^ 24) with 16777216. change (2 ^ 32) with 4294967296 in Hv.
  assert (Q3 : 0 <= v / 16777216 < 256)
    by (split; [apply Z.div_pos | apply Z.div_lt_upper_bound]; lia).
  rewrite (Z.mod_small (v / 16777216)) by exact Q3.
  pose proof (Z.div_mod v 256 ltac:(lia)) as D0.
  pose proof (Z.mod_pos_bound v 256 ltac:(lia)) as B0.
  pose proof (Z.div_mod (v / 256) 256 ltac:(lia)) as D1.
  pose proof (Z.mod_pos_bound (v / 256) 256 ltac:(lia)) as B1.
  pose proof (Z.div_mod (v / 65536) 256 ltac:(lia)) as D2.
  pose proof (Z.mod_pos_bound (v / 65536) 256 ltac:(lia)) as B2.
  replace (v / 65536) with (v / 256 / 256) in *
    by (rewrite Z.div_div by lia; reflexivity).
  replace (v / 16777216) with (v / 256 / 256 / 256) in *
    by (rewrite !Z.div_div by lia; reflexivity).
  lia.
Qed.

(** ** Cutting an array at an offset *)

(** ** Cutting a buffer at an offset *)

Lemma cut_at {A} (s : list A) (o : Z) :
  0 <= o <= len s ->
  exists pre post, s = pre ++ post /\ len pre = o.
Proof.
  intros Ho. exists (firstn (Z.to_nat o) s), (skipn (Z.to_nat o) s).
  split; [symmetry; apply firstn_skipn |].
  unfold len in *. rewrite length_firstn. lia.
Qed.

Lemma cut1 {A} (s : list A) (o : Z) :
  0 <= o -> o + 1 <= len s ->
  exists pre c0 post, s = pre ++ c0 :: post /\ len pre = o.
Proof.
  intros Ho Hl. destruct (cut_at s o) as [pre [t [-> L]]]; [lia |].
  rewrite len_app in Hl.
  destruct t as [| c0 post]; [unfold len in *; cbn in *; lia |].
  now exists pre, c0, post.
Qed.

Lemma cut2 {A} (s : list A) (o : Z) :
  0 <= o -> o + 2 <= len s ->
  exists pre c0 c1 post, s = pre ++ c0 :: c1 :: post /\ len pre = o.
Proof.
  intros Ho Hl. destruct (cut_at s o) as [pre [t [-> L]]]; [lia |].
  rewrite len_app in Hl.
  destruct t as [| c0 [| c1 post]]; try (unfold len in *; cbn in *; lia).
  now exists pre, c0, c1, post.
Qed.

Lemma cut4 {A} (s : list A) (o : Z) :
  0 <= o -> o + 4 <= len s ->
  exists pre c0 c1 c2 c3 post,
    s = pre ++ c0 :: c1 :: c2 :: c3 :: post /\ len pre = o.
Proof.
  intros Ho Hl. destruct (cut_at s o) as [pre [t [-> L]]]; [lia |].
  rewrite len_app in Hl.
  destruct t as [| c0 [| c1 [| c2 [| c3 post]]]];
    try (unfold len in *; cbn in *; lia).
  now exists pre, c0, c1, c2, c3, post.
Qed.

Lemma slice_from_app {A} (pre t : list A) :
  slice_from (pre ++ t) (len pre) = Ok t.
Proof.
  unfold slice_from, slice. rewrite len_app.
  assert (H1 := len_nonneg pre). assert (H2 := len_nonneg t). tests.
  f_equal. unfold len. rewrite Nat2Z.id.
  rewrite skipn_app, Nat.sub_diag, skipn_all. cbn [app skipn].
  apply firstn_all2. lia.
Qed.

Lemma through_from_app (pre t t' : list byte)
  (f : list byte -> outcome (list byte)) :
  f t = Ok t' -> through_from (pre ++ t) (len pre) f = Ok (pre ++ t').
Proof.
  intros E. unfold through_from. rewrite slice_from_app. cbn [obind].
  rewrite E. cbn [obind]. f_equal. f_equal.
  unfold len. rewrite Nat2Z.id, firstn_app, Nat.sub_diag, firstn_all.
  cbn [firstn]. apply app_nil_r.
Qed.

Lemma index_app {A} (pre post : list A) (x : A) :
  index (pre ++ x :: post) (len pre) = Ok x.
Proof.
  apply index_nth; [apply len_nonneg |].
  unfold len. rewrite Nat2Z.id, nth_error_app2, Nat.sub_diag by lia.
  reflexivity.
Qed.

Lemma store_app {A} (pre post : list A) (x y : A) :
  store (pre ++ x :: post) (len pre) y = Ok (pre ++ y :: post).
Proof.
  unfold store. rewrite len_app.
  assert (H1 := len_nonneg pre). assert (H2 := len_nonneg post).
  assert (L : len (x :: post) = 1 + len post)
    by (unfold len; cbn [length]; lia).
  rewrite L. tests. f_equal. unfold len. rewrite Nat2Z.id.
  rewrite firstn_app, Nat.sub_diag, firstn_all. cbn [firstn].
  rewrite app_nil_r. f_equal.
  change (S (length pre)) with (1 + length pre)%nat.
  rewrite <- skipn_skipn, skipn_app, Nat.sub_diag, skipn_all.
  reflexivity.
Qed.

Lemma byte_of_Z_mod (z : Z) : byte_of_Z (z mod 256) = byte_of_Z z.
Proof.
  unfold byte_of_Z, to_uint8. change (2 ^ 8) with 256.
  now rewrite Z.mod_mod by lia.
Qed.

Lemma byte_of_Z_low (c : byte) (k : Z) :
  byte_of_Z (byte_val c + 256 * k) = c.
Proof.
  rewrite <- byte_of_Z_mod.
  rewrite (Z.mul_comm 256 k), Z_mod_plus_full.
  rewrite Z.mod_small by apply byte_val_range.
  apply byte_of_Z_val.
Qed.

Lemma shiftr_8_low (c : byte) (k : Z) :
  Z.shiftr (byte_val c + 256 * k) 8 = k.
Proof.
  rewrite Z.shiftr_div_pow2 by lia. change (2 ^ 8) with 256.
  pose proof (byte_val_range c).
  rewrite (Z.mul_comm 256 k), Z.div_add by lia.
  rewrite Z.div_small by lia. lia.
Qed.

Lemma slice_app_mid {A} (pre mid post : list A) :
  slice (pre ++ mid ++ post) (len pre) (len pre + len mid) = Ok mid.
Proof.
  unfold slice. rewrite !len_app.
  assert (H1 := len_nonneg pre). assert (H2 := len_nonneg mid).
  assert (H3 := len_nonneg post). tests. f_equal.
  replace (len pre + len mid - len pre) with (len mid) by lia.
  unfold len. rewrite !Nat2Z.id.
  rewrite skipn_app, Nat.sub_diag, skipn_all. cbn [app skipn].
  rewrite firstn_app, Nat.sub_diag, firstn_all. cbn [firstn].
  apply app_nil_r.
Qed.

Lemma copy_into_app {A} (pre mid post src : list A) :
  len src = len mid ->
  copy_into (pre ++ mid ++ post) (len pre) (len pre + len mid) src
  = Ok (pre ++ src ++ post).
Proof.
  intros L. unfold copy_into. rewrite !len_app.
  assert (H1 := len_nonneg pre). assert (H2 := len_nonneg mid).
  assert (H3 := len_nonneg post). tests. f_equal.
  replace (len pre + len mid - len pre) with (len mid) by lia.
  unfold len in *. rewrite !Nat2Z.id.
  replace (Nat.min (length mid) (length src)) with (length src) by lia.
  rewrite firstn_app, Nat.sub_diag, firstn_all. cbn [firstn].
  rewrite app_nil_r, firstn_all. do 2 f_equal.
  replace (length pre + length src)%nat with (length (pre ++ mid))
    by (rewrite length_app; lia).
  rewrite app_assoc, skipn_app, skipn_all, Nat.sub_diag. reflexivity.
Qed.

Lemma copy_into_app_short {A} (pre mid post src : list A) :
  len src <= len mid ->
  copy_into (pre ++ mid ++ post) (len pre) (len pre + len mid) src
  = Ok (pre ++ src ++ skipn (length src) mid ++ post).
Proof.
  intros L. unfold copy_into. rewrite !len_app.
  assert (H1 := len_nonneg pre). assert (H2 := len_nonneg mid).
  assert (H3 := len_nonneg post). tests. f_equal.
  replace (len pre + len mid - len pre) with (len mid) by lia.
  unfold len in *. rewrite !Nat2Z.id.
  replace (Nat.min (length mid) (length src)) with (length src) by lia.
  rewrite firstn_app, Nat.sub_diag, firstn_all. cbn [firstn].
  rewrite app_nil_r, firstn_all. do 2 f_equal.
  rewrite (Nat.add_comm (length pre)), <- skipn_skipn.
  rewrite (skipn_app (length pre)), skipn_all, Nat.sub_diag.
  cbn [app skipn]. rewrite skipn_app.
  replace (length src - length mid)%nat with 0%nat by lia.
  reflexivity.
Qed.

Lemma copy_into_app_long {A} (pre mid post src : list A) :
  len mid <= len src ->
  copy_into (pre ++ mid ++ post) (len pre) (len pre + len mid) src
  = Ok (pre ++ firstn (length mid) src ++ post).
Proof.
  intros L.
  assert (Lf : len (firstn (length mid) src) = len mid)
    by (unfold len in *; rewrite length_firstn; lia).
  rewrite <- (copy_into_app pre mid post _ Lf).
  unfold copy_into. rewrite !len_app.
  assert (H1 := len_nonneg pre). assert (H2 := len_nonneg mid).
  assert (H4 := len_nonneg post).
  tests. f_equal.
  replace (len pre + len mid - len pre) with (len mid) by lia.
  unfold len in *. rewrite !Nat2Z.id. rewrite length_firstn.
  replace (Nat.min (length mid) (Nat.min (length mid) (length src)))
    with (length mid) by lia.
  replace (Nat.min (length mid) (length src)) with (length mid) by lia.
  rewrite firstn_firstn, Nat.min_id. reflexivity.
Qed.

Lemma region_cut {A} (s : list A) (o n : Z) :
  0 <= o -> 0 <= n -> o + n <= len s ->
  exists pre mid post,
    s = pre ++ mid ++ post /\ len pre = o /\ len mid = n
    /\ pre = firstn (Z.to_nat o) s
    /\ mid = firstn (Z.to_nat n) (skipn (Z.to_nat o) s)
    /\ post = skipn (Z.to_nat (o + n)) s.
Proof.
  intros Ho Hn Hl.
  exists (firstn (Z.to_nat o) s),
         (firstn (Z.to_nat n) (skipn (Z.to_nat o) s)),
         (skipn (Z.to_nat (o + n)) s).
  unfold len in *. repeat split.
  - rewrite <- (firstn_skipn (Z.to_nat o) s) at 1. f_equal.
    rewrite <- (firstn_skipn (Z.to_nat n) (skipn (Z.to_nat o) s)) at 1.
    f_equal. rewrite skipn_skipn. f_equal. lia.
  - rewrite length_firstn. lia.
  - rewrite length_firstn, length_skipn. lia.
Qed.

Lemma firstn_len_app {A} (pre t : list A) :
  firstn (Z.to_nat (len pre)) (pre ++ t) = pre.
Proof.
  unfold len. rewrite Nat2Z.id, firstn_app, Nat.sub_diag, firstn_all.
  cbn [firstn]. apply app_nil_r.
Qed.

Lemma skipn_len_app {A} (pre mid post : list A) (w : Z) :
  len mid = w ->
  skipn (Z.to_nat (len pre + w)) (pre ++ mid ++ post) = post.
Proof.
  intros <-. unfold len. rewrite <- Nat2Z.inj_add, Nat2Z.id.
  rewrite app_assoc, skipn_app, length_app.
  rewrite skipn_all2 by (rewrite length_app; lia).
  now rewrite Nat.sub_diag.
Qed.

Lemma len_cons_app {A} (pre mid post : list A) :
  len (pre ++ mid ++ post) = len pre + Z.of_nat (length mid) + len post.
Proof. rewrite !len_app. unfold len. lia. Qed.

(** ** The typed accessors at a cut *)

(** ** The typed accessors at a cut *)

Lemma GetUint8_at (pre post : list byte) (c : byte) (d : bool) :
  GetUint8 (len pre) (mkBuffer (pre ++ c :: post) d None)
  = Ok (byte_val c, mkBuffer (pre ++ c :: post) d None).
Proof.
  unfold GetUint8. run. rewrite len_app.
  assert (H1 := len_nonneg pre). assert (H2 := len_nonneg post).
  assert (L : len (c :: post) = 1 + len post)
    by (unfold len; cbn [length]; lia).
  rewrite L. tests. now rewrite index_app.
Qed.

Lemma PutUint8_at (pre post : list byte) (c : byte) (d : bool) (v : Z) :
  0 <= v < 256 ->
  PutUint8 (len pre) v (mkBuffer (pre ++ c :: post) d None)
  = Ok (byte_val c,
        mkBuffer (pre ++ byte_of_Z v :: post)
          (d || negb (byte_val c =? v)) None).
Proof.
  intros Hv. unfold PutUint8. run. rewrite len_app.
  assert (H1 := len_nonneg pre). assert (H2 := len_nonneg post).
  assert (L : len (c :: post) = 1 + len post)
    by (unfold len; cbn [length]; lia).
  rewrite L. tests. rewrite index_app. cbv beta iota.
  unfold to_uint8. change (2 ^ 8) with 256.
  rewrite Z.mod_small by apply byte_val_range.
  destruct (Z.eqb_spec (byte_val c) v) as [<- | Hne].
  - cbn [negb]. now rewrite orb_false_r, byte_of_Z_val.
  - rewrite store_app. cbv beta iota. cbn [negb].
    now rewrite orb_true_r.
Qed.

Lemma wide_enough (pre t : list byte) (k : Z) :
  len pre + len t <= max_int -> 0 <= k <= len t ->
  (len pre <? 0) || (len (pre ++ t) <? int_add (len pre) k) = false.
Proof.
  intros Hm Hk. assert (H1 := len_nonneg pre).
  unfold int_add. rewrite wrap64_small by (unfold min_int, max_int in *; lia).
  rewrite len_app. apply orb_false_iff.
  split; apply Z.ltb_ge; lia.
Qed.

Lemma GetUint16_at (pre post : list byte) (c0 c1 : byte) (d : bool) :
  len (pre ++ c0 :: c1 :: post) <= max_int ->
  GetUint16 (len pre) (mkBuffer (pre ++ c0 :: c1 :: post) d None)
  = Ok (byte_val c0 + 256 * byte_val c1,
        mkBuffer (pre ++ c0 :: c1 :: post) d None).
Proof.
  intros Hm. rewrite len_app in Hm.
  assert (H2 := len_nonneg post).
  assert (L : len (c0 :: c1 :: post) = 2 + len post)
    by (unfold len; cbn [length]; lia).
  unfold GetUint16. run.
  rewrite wide_enough by lia.
  now rewrite slice_from_app, LE_Uint16_cons.
Qed.

Lemma PutUint16_at (pre post : list byte) (c0 c1 : byte) (d : bool)
  (v : Z) :
  len (pre ++ c0 :: c1 :: post) <= max_int ->
  let old := byte_val c0 + 256 * byte_val c1 in
  PutUint16 (len pre) v (mkBuffer (pre ++ c0 :: c1 :: post) d None)
  = Ok (old,
        mkBuffer (pre ++ byte_of_Z v :: byte_of_Z (Z.shiftr v 8) :: post)
          (d || negb (old =? v)) None).
Proof.
  intros Hm old. rewrite len_app in Hm.
  assert (H2 := len_nonneg post).
  assert (L : len (c0 :: c1 :: post) = 2 + len post)
    by (unfold len; cbn [length]; lia).
  unfold PutUint16. run.
  rewrite wide_enough by lia.
  rewrite slice_from_app, LE_Uint16_cons. cbv beta iota. fold old.
  destruct (Z.eqb_spec old v) as [<- | Hne].
  - cbn [negb]. unfold old.
    now rewrite orb_false_r, shiftr_8_low, byte_of_Z_low, byte_of_Z_val.
  - rewrite (through_from_app _ _ _ _ (LE_PutUint16_cons c0 c1 post v)).
    cbv beta iota. cbn [negb]. now rewrite orb_true_r.
Qed.

Lemma le32_bytes (c0 c1 c2 c3 : byte) :
  let v := byte_val c0 + 256 * byte_val c1 + 65536 * byte_val c2
           + 16777216 * byte_val c3 in
  byte_of_Z v = c0 /\ byte_of_Z (Z.shiftr v 8) = c1
  /\ byte_of_Z (Z.shiftr v 16) = c2 /\ byte_of_Z (Z.shiftr v 24) = c3.
Proof.
  intros v.
  assert (E : v = byte_val c0
                  + 256 * (byte_val c1
                           + 256 * (byte_val c2 + 256 * byte_val c3)))
    by (unfold v; lia).
  rewrite E.
  change 16 with (8 + 8). change 24 with (8 + 8 + 8).
  rewrite <- !Z.shiftr_shiftr by lia.
  rewrite !shiftr_8_low, !byte_of_Z_low.
  repeat split.
  rewrite <- (Z.add_0_r (byte_val c3)) at 1.
  change 0 with (256 * 0) at 1. apply byte_of_Z_low.
Qed.

Lemma GetUint32_at (pre post : list byte) (c0 c1 c2 c3 : byte) (d : bool) :
  len (pre ++ c0 :: c1 :: c2 :: c3 :: post) <= max_int ->
  GetUint32 (len pre) (mkBuffer (pre ++ c0 :: c1 :: c2 :: c3 :: post) d None)
  = Ok (byte_val c0 + 256 * byte_val c1 + 65536 * byte_val c2
        + 16777216 * byte_val c3,
        mkBuffer (pre ++ c0 :: c1 :: c2 :: c3 :: post) d None).
Proof.
  intros Hm. rewrite len_app in Hm.
  assert (H2 := len_nonneg post).
  assert (L : len (c0 :: c1 :: c2 :: c3 :: post) = 4 + len post)
    by (unfold len; cbn [length]; lia).
  unfold GetUint32. run.
  rewrite wide_enough by lia.
  now rewrite slice_from_app, LE_Uint32_cons.
Qed.

Lemma PutUint32_at (pre post : list byte) (c0 c1 c2 c3 : byte) (d : bool)
  (v : Z) :
  len (pre ++ c0 :: c1 :: c2 :: c3 :: post) <= max_int ->
  let old := byte_val c0 + 256 * byte_val c1 + 65536 * byte_val c2
             + 16777216 * byte_val c3 in
  PutUint32 (len pre) v
    (mkBuffer (pre ++ c0 :: c1 :: c2 :: c3 :: post) d None)
  = Ok (old,
        mkBuffer (pre ++ byte_of_Z v :: byte_of_Z (Z.shiftr v 8)
                      :: byte_of_Z (Z.shiftr v 16)
                      :: byte_of_Z (Z.shiftr v 24) :: post)
          (d || negb (old =? v)) None).
Proof.
  intros Hm old. rewrite len_app in Hm.
  assert (H2 := len_nonneg post).
  assert (L : len (c0 :: c1 :: c2 :: c3 :: post) = 4 + len post)
    by (unfold len; cbn [length]; lia).
  unfold PutUint32. run.
  rewrite wide_enough by lia.
  rewrite slice_from_app, LE_Uint32_cons. cbv beta iota. fold old.
  destruct (Z.eqb_spec old v) as [<- | Hne].
  - cbn [negb]. destruct (le32_bytes c0 c1 c2 c3) as [E0 [E1 [E2 E3]]].
    fold old in E0, E1, E2, E3.
    now rewrite orb_false_r, E0, E1, E2, E3.
  - rewrite (through_from_app _ _ _ _ (LE_PutUint32_cons c0 c1 c2 c3 post v)).
    cbv beta iota. cbn [negb]. now rewrite orb_true_r.
Qed.
(** ** Typed writes followed by typed reads *)

Lemma put_get_uint8 (b : Buffer) (o v : Z) :
  err b = None -> len (buf b) <= max_int -> 0 <= o ->
  o + 1 <= len (buf b) -> 0 <= v < 2 ^ 8 ->
  writes_then_reads GetUint8 PutUint8 1 o v b.
Proof.
  destruct b as [s d e]. cbn [buf err]. intros -> Hm Ho Hl Hv.
  unfold writes_then_reads; cbn [buf err dirty].
  destruct (cut1 s o Ho Hl) as [pre [c [post [-> L]]]]. subst o.
  do 2 eexists.
  split; [apply GetUint8_at |].
  split; [apply PutUint8_at; exact Hv |].
  split.
  { rewrite GetUint8_at, byte_val_of_Z.
    change 256 with (2 ^ 8). now rewrite Z.mod_small by exact Hv. }
  cbn [buf err dirty]. repeat split.
  - rewrite !len_app. unfold len. cbn [length]. lia.
  - now rewrite !firstn_len_app.
  - etransitivity;
      [apply (skipn_len_app pre [byte_of_Z v] post 1 eq_refl)
      | symmetry; apply (skipn_len_app pre [c] post 1 eq_refl)].
Qed.

Lemma put_get_uint16 (b : Buffer) (o v : Z) :
  err b = None -> len (buf b) <= max_int -> 0 <= o ->
  o + 2 <= len (buf b) -> 0 <= v < 2 ^ 16 ->
  writes_then_reads GetUint16 PutUint16 2 o v b.
Proof.
  destruct b as [s d e]. cbn [buf err]. intros -> Hm Ho Hl Hv.
  unfold writes_then_reads; cbn [buf err dirty].
  destruct (cut2 s o Ho Hl) as [pre [c0 [c1 [post [-> L]]]]]. subst o.
  do 2 eexists.
  split; [apply GetUint16_at; exact Hm |].
  split; [apply PutUint16_at; exact Hm |].
  assert (Hm' : len (pre ++ byte_of_Z v :: byte_of_Z (Z.shiftr v 8) :: post)
                <= max_int).
  { revert Hm. rewrite !len_app. unfold len. cbn [length]. lia. }
  split.
  { rewrite GetUint16_at by exact Hm'. now rewrite le16_value. }
  cbn [buf err dirty]. repeat split.
  - rewrite !len_app. unfold len. cbn [length]. lia.
  - now rewrite !firstn_len_app.
  - etransitivity;
      [apply (skipn_len_app pre [_; _] post 2 eq_refl)
      | symmetry; apply (skipn_len_app pre [c0; c1] post 2 eq_refl)].
Qed.

Lemma put_get_uint32 (b : Buffer) (o v : Z) :
  err b = None -> len (buf b) <= max_int -> 0 <= o ->
  o + 4 <= len (buf b) -> 0 <= v < 2 ^ 32 ->
  writes_then_reads GetUint32 PutUint32 4 o v b.
Proof.
  destruct b as [s d e]. cbn [buf err]. intros -> Hm Ho Hl Hv.
  unfold writes_then_reads; cbn [buf err dirty].
  destruct (cut4 s o Ho Hl) as [pre [c0 [c1 [c2 [c3 [post [-> L]]]]]]].
  subst o. do 2 eexists.
  split; [apply GetUint32_at; exact Hm |].
  split; [apply PutUint32_at; exact Hm |].
  assert (Hm' : len (pre ++ byte_of_Z v :: byte_of_Z (Z.shiftr v 8)
                         :: byte_of_Z (Z.shiftr v 16)
                         :: byte_of_Z (Z.shiftr v 24) :: post)
                <= max_int).
  { revert Hm. rewrite !len_app. unfold len. cbn [length]. lia. }
  split.
  { rewrite GetUint32_at by exact Hm'. now rewrite le32_value. }
  cbn [buf err dirty]. repeat split.
  - rewrite !len_app. unfold len. cbn [length]. lia.
  - now rewrite !firstn_len_app.
  - etransitivity;
      [apply (skipn_len_app pre [_; _; _; _] post 4 eq_refl)
      | symmetry; apply (skipn_len_app pre [c0; c1; c2; c3] post 4 eq_refl)].
Qed.

(** The conversions between the signed and the unsigned types of one
    width, decided by arithmetic. *)

Ltac modular :=
  unfold to_int8, to_uint8, to_int16, to_uint16, to_int32, to_uint32 in *;
  change (2 ^ 7) with 128 in *; change (2 ^ 8) with 256 in *;
  change (2 ^ 15) with 32768 in *; change (2 ^ 16) with 65536 in *;
  change (2 ^ 31) with 2147483648 in *;
  change (2 ^ 32) with 4294967296 in *;
  Z.div_mod_to_equations; lia.

Lemma to_int8_uint8 (v : Z) : - 2 ^ 7 <= v < 2 ^ 7 -> to_int8 (to_uint8 v) = v.
Proof. intros Hv. modular. Qed.

Lemma to_int16_uint16 (v : Z) :
  - 2 ^ 15 <= v < 2 ^ 15 -> to_int16 (to_uint16 v) = v.
Proof. intros Hv. modular. Qed.

Lemma to_int32_uint32 (v : Z) :
  - 2 ^ 31 <= v < 2 ^ 31 -> to_int32 (to_uint32 v) = v.
Proof. intros Hv. modular. Qed.

Lemma to_int8_eqb (u v : Z) :
  0 <= u < 2 ^ 8 -> - 2 ^ 7 <= v < 2 ^ 7 ->
  (to_int8 u =? v) = (u =? to_uint8 v).
Proof.
  intros Hu Hv.
  destruct (Z.eqb_spec (to_int8 u) v), (Z.eqb_spec u (to_uint8 v));
    try reflexivity; exfalso; modular.
Qed.

Lemma to_int16_eqb (u v : Z) :
  0 <= u < 2 ^ 16 -> - 2 ^ 15 <= v < 2 ^ 15 ->
  (to_int16 u =? v) = (u =? to_uint16 v).
Proof.
  intros Hu Hv.
  destruct (Z.eqb_spec (to_int16 u) v), (Z.eqb_spec u (to_uint16 v));
    try reflexivity; exfalso; modular.
Qed.

Lemma to_int32_eqb (u v : Z) :
  0 <= u < 2 ^ 32 -> - 2 ^ 31 <= v < 2 ^ 31 ->
  (to_int32 u =? v) = (u =? to_uint32 v).
Proof.
  intros Hu Hv.
  destruct (Z.eqb_spec (to_int32 u) v), (Z.eqb_spec u (to_uint32 v));
    try reflexivity; exfalso; modular.
Qed.

Lemma GetUint8_range (o x : Z) (b b' : Buffer) :
  GetUint8 o b = Ok (x, b') -> 0 <= x < 2 ^ 8.
Proof.
  unfold GetUint8, out_of_range, bind, get, ret, lift, set_err. intros E.
  repeat crack; try (change (2 ^ 8) with 256; lia).
  apply byte_val_range.
Qed.

Lemma LE_Uint16_range (s : list byte) (x : Z) :
  LE_Uint16 s = Ok x -> 0 <= x < 2 ^ 16.
Proof.
  unfold LE_Uint16, obind.
  destruct (index s 1) as [a |]; [| discriminate].
  destruct (index s 0) as [a0 |]; [| discriminate].
  intros E.
  apply (f_equal (fun r => match r with Ok y => y | Panic => 0 end)) in E.
  cbv beta iota in E. subst x.
  pose proof (byte_val_range a0). pose proof (byte_val_range a).
  rewrite lor_shiftl_add by lia. change (2 ^ 16) with 65536. lia.
Qed.

Lemma LE_Uint32_range (s : list byte) (x : Z) :
  LE_Uint32 s = Ok x -> 0 <= x < 2 ^ 32.
Proof.
  unfold LE_Uint32, obind.
  destruct (index s 3) as [a2 |]; [| discriminate].
  destruct (index s 0) as [a0 |]; [| discriminate].
  destruct (index s 1) as [a |]; [| discriminate].
  destruct (index s 2) as [a1 |]; [| discriminate].
  intros E.
  apply (f_equal (fun r => match r with Ok y => y | Panic => 0 end)) in E.
  cbv beta iota in E. subst x.
  pose proof (byte_val_range a). pose proof (byte_val_range a0).
  pose proof (byte_val_range a1). pose proof (byte_val_range a2).
  rewrite (lor_shiftl_add (byte_val a0)) by lia.
  rewrite (lor_shiftl_add (byte_val a0 + _) _ 16) by lia.
  rewrite (lor_shiftl_add _ _ 24) by lia.
  change (2 ^ 32) with 4294967296. lia.
Qed.

Lemma GetUint16_range (o x : Z) (b b' : Buffer) :
  GetUint16 o b = Ok (x, b') -> 0 <= x < 2 ^ 16.
Proof.
  unfold GetUint16, out_of_range, bind, get, ret, lift, set_err. intros E.
  repeat crack; try (change (2 ^ 16) with 65536; lia).
  eapply LE_Uint16_range; eassumption.
Qed.

Lemma GetUint32_range (o x : Z) (b b' : Buffer) :
  GetUint32 o b = Ok (x, b') -> 0 <= x < 2 ^ 32.
Proof.
  unfold GetUint32, out_of_range, bind, get, ret, lift, set_err. intros E.
  repeat crack; try (change (2 ^ 32) with 4294967296; lia).
  eapply LE_Uint32_range; eassumption.
Qed.

Lemma signed_from_unsigned (getU : Z -> M Z) (putU : Z -> Z -> M Z)
  (toS toU : Z -> Z) (w o v : Z) (b : Buffer) :
  writes_then_reads getU putU w o (toU v) b ->
  (forall old, getU o b = Ok (old, b) -> (toS old =? v) = (old =? toU v)) ->
  toS (toU v) = v ->
  writes_then_reads (fun o => x <- getU o ;; ret (toS x))
    (fun o v => x <- putU o (toU v) ;; ret (toS x)) w o v b.
Proof.
  intros [old [b' [G [P [G' [E [D [L [F1 F2]]]]]]]]] Q R.
  exists (toS old), b'. unfold bind, ret.
  rewrite G, P, G', R, (Q old G). repeat split; assumption.
Qed.

(** X1. On an error-free buffer, writing an unsigned value of 8, 16 or
    32 bits at an offset that leaves room for it returns the value that
    was there, and reading the same place then returns the value
    written.  The write leaves the error state clear and the length as
    it was, changes no byte outside the place written, and raises the
    modified flag exactly when the value written differs from the one
    that was there. *)
Theorem unsigned_put_get (b : Buffer) (o v : Z) :
  err b = None -> len (buf b) <= max_int -> 0 <= o ->
  (o + 1 <= len (buf b) -> 0 <= v < 2 ^ 8 ->
   writes_then_reads GetUint8 PutUint8 1 o v b)
  /\ (o + 2 <= len (buf b) -> 0 <= v < 2 ^ 16 ->
      writes_then_reads GetUint16 PutUint16 2 o v b)
  /\ (o + 4 <= len (buf b) -> 0 <= v < 2 ^ 32 ->
      writes_then_reads GetUint32 PutUint32 4 o v b).
Proof.
  intros He Hm Ho. split; [| split]; intros Hl Hv.
  - now apply put_get_uint8.
  - now apply put_get_uint16.
  - now apply put_get_uint32.
Qed.

Lemma unsigned_put_get_witness :
  let b := mkBuffer [x01; x02; x03; x04; x05] false None in
  writes_then_reads GetUint8 PutUint8 1 1 200 b
  /\ writes_then_reads GetUint16 PutUint16 2 1 513 b
  /\ writes_then_reads GetUint32 PutUint32 4 1 70000 b.
Proof.
  intros b.
  assert (Hm : len (buf b) <= max_int) by (unfold len, max_int; cbn; lia).
  assert (Ho : 0 <= 1) by lia.
  split; [| split].
  - apply (proj1 (unsigned_put_get b 1 200 eq_refl Hm Ho)).
    + unfold len. cbn. lia.
    + lia.
  - apply (proj1 (proj2 (unsigned_put_get b 1 513 eq_refl Hm Ho))).
    + unfold len. cbn. lia.
    + lia.
  - apply (proj2 (proj2 (unsigned_put_get b 1 70000 eq_refl Hm Ho))).
    + unfold len. cbn. lia.
    + lia.
Defined.

(** X2. The same for the signed accessors: a signed value of 8, 16 or
    32 bits written with [PutInt8], [PutInt16] or [PutInt32] is read
    back by [GetInt8], [GetInt16] or [GetInt32], the write returns the
    signed value that was there, and the modified flag is raised exactly
    when the two differ. *)
Theorem signed_put_get (b : Buffer) (o v : Z) :
  err b = None -> len (buf b) <= max_int -> 0 <= o ->
  (o + 1 <= len (buf b) -> - 2 ^ 7 <= v < 2 ^ 7 ->
   writes_then_reads GetInt8 PutInt8 1 o v b)
  /\ (o + 2 <= len (buf b) -> - 2 ^ 15 <= v < 2 ^ 15 ->
      writes_then_reads GetInt16 PutInt16 2 o v b)
  /\ (o + 4 <= len (buf b) -> - 2 ^ 31 <= v < 2 ^ 31 ->
      writes_then_reads GetInt32 PutInt32 4 o v b).
Proof.
  intros He Hm Ho.
  split; [| split]; intros Hl Hv.
  - apply (signed_from_unsigned GetUint8 PutUint8 to_int8 to_uint8).
    + apply (put_get_uint8 b o (to_uint8 v) He Hm Ho Hl).
      apply Z.mod_pos_bound. reflexivity.
    + intros old G. apply to_int8_eqb; [| exact Hv].
      eapply GetUint8_range; eassumption.
    + now apply to_int8_uint8.
  - apply (signed_from_unsigned GetUint16 PutUint16 to_int16 to_uint16).
    + apply (put_get_uint16 b o (to_uint16 v) He Hm Ho Hl).
      apply Z.mod_pos_bound. reflexivity.
    + intros old G. apply to_int16_eqb; [| exact Hv].
      eapply GetUint16_range; eassumption.
    + now apply to_int16_uint16.
  - apply (signed_from_unsigned GetUint32 PutUint32 to_int32 to_uint32).
    + apply (put_get_uint32 b o (to_uint32 v) He Hm Ho Hl).
      apply Z.mod_pos_bound. reflexivity.
    + intros old G. apply to_int32_eqb; [| exact Hv].
      eapply GetUint32_range; eassumption.
    + now apply to_int32_uint32.
Qed.

Lemma signed_put_get_witness :
  let b := mkBuffer [x01; x02; x03; x04; x05] false None in
  writes_then_reads GetInt8 PutInt8 1 1 (-3) b
  /\ writes_then_reads GetInt16 PutInt16 2 1 (-300) b
  /\ writes_then_reads GetInt32 PutInt32 4 1 (-70000) b.
Proof.
  intros b.
  assert (Hm : len (buf b) <= max_int) by (unfold len, max_int; cbn; lia).
  assert (Ho : 0 <= 1) by lia.
  split; [| split].
  - apply (proj1 (signed_put_get b 1 (-3) eq_refl Hm Ho)).
    + unfold len. cbn. lia.
    + lia.
  - apply (proj1 (proj2 (signed_put_get b 1 (-300) eq_refl Hm Ho))).
    + unfold len. cbn. lia.
    + lia.
  - apply (proj2 (proj2 (signed_put_get b 1 (-70000) eq_refl Hm Ho))).
    + unfold len. cbn. lia.
    + lia.
Defined.

(** X3. A 32-bit value is stored least significant byte first: the four
    bytes and the two 16-bit halves read back from the place where it
    was written are its base-256 digits and its base-65536 digits, low
    one first. *)
Theorem PutUint32_is_little_endian (b : Buffer) (o v : Z) :
  err b = None -> 0 <= o -> o + 4 <= len (buf b) ->
  len (buf b) <= max_int -> 0 <= v < 2 ^ 32 ->
  exists old b',
    PutUint32 o v b = Ok (old, b')
    /\ GetUint8 o b' = Ok (v mod 256, b')
    /\ GetUint8 (o + 1) b' = Ok (v / 256 mod 256, b')
    /\ GetUint8 (o + 2) b' = Ok (v / 65536 mod 256, b')
    /\ GetUint8 (o + 3) b' = Ok (v / 16777216, b')
    /\ GetUint16 o b' = Ok (v mod 65536, b')
    /\ GetUint16 (o + 2) b' = Ok (v / 65536, b').
Proof.
  destruct b as [s d e]. cbn [buf err]. intros -> Ho Hl Hm Hv.
  destruct (cut4 s o) as [pre [c0 [c1 [c2 [c3 [post [-> Lp]]]]]]];
    [lia | lia |].
  subst o.
  set (b0 := byte_of_Z v). set (b1 := byte_of_Z (Z.shiftr v 8)).
  set (b2 := byte_of_Z (Z.shiftr v 16)).
  set (b3 := byte_of_Z (Z.shiftr v 24)).
  assert (V0 : byte_val b0 = v mod 256) by apply byte_val_of_Z.
  assert (V1 : byte_val b1 = v / 256 mod 256).
  { unfold b1. rewrite byte_val_of_Z, Z.shiftr_div_pow2 by lia.
    reflexivity. }
  assert (V2 : byte_val b2 = v / 65536 mod 256).
  { unfold b2. rewrite byte_val_of_Z, Z.shiftr_div_pow2 by lia.
    reflexivity. }
  assert (V3 : byte_val b3 = v / 16777216).
  { unfold b3. rewrite byte_val_of_Z, Z.shiftr_div_pow2 by lia.
    change (2 ^ 24) with 16777216. change (2 ^ 32) with 4294967296 in Hv.
    apply Z.mod_small. split; [apply Z.div_pos; lia |].
    apply Z.div_lt_upper_bound; lia. }
  assert (L : forall x0 x1 x2 x3 : byte,
            len (pre ++ x0 :: x1 :: x2 :: x3 :: post) = len pre + 4 + len post).
  { intros. rewrite len_app. unfold len. cbn [length]. lia. }
  rewrite L in *.
  rewrite PutUint32_at by (rewrite L; lia).
  fold b0 b1 b2 b3.
  do 2 eexists. split; [reflexivity |].
  set (d' := d || negb (_ =? v)).
  assert (A1 : pre ++ b0 :: b1 :: b2 :: b3 :: post
               = (pre ++ [b0]) ++ b1 :: b2 :: b3 :: post)
    by (rewrite <- app_assoc; reflexivity).
  assert (A2 : pre ++ b0 :: b1 :: b2 :: b3 :: post
               = (pre ++ [b0; b1]) ++ b2 :: b3 :: post)
    by (rewrite <- app_assoc; reflexivity).
  assert (A3 : pre ++ b0 :: b1 :: b2 :: b3 :: post
               = (pre ++ [b0; b1; b2]) ++ b3 :: post)
    by (rewrite <- app_assoc; reflexivity).
  assert (L1 : len pre + 1 = len (pre ++ [b0]))
    by (rewrite len_app; reflexivity).
  assert (L2 : len pre + 2 = len (pre ++ [b0; b1]))
    by (rewrite len_app; reflexivity).
  assert (L3 : len pre + 3 = len (pre ++ [b0; b1; b2]))
    by (rewrite len_app; reflexivity).
  change (2 ^ 32) with 4294967296 in Hv.
  split; [rewrite GetUint8_at, V0; reflexivity |].
  split; [rewrite L1, A1, GetUint8_at, V1; reflexivity |].
  split; [rewrite L2, A2, GetUint8_at, V2; reflexivity |].
  split; [rewrite L3, A3, GetUint8_at, V3; reflexivity |].
  split.
  - rewrite GetUint16_at by (rewrite L; lia). rewrite V0, V1.
    do 2 f_equal. Z.div_mod_to_equations. lia.
  - rewrite L2, A2, GetUint16_at by (rewrite <- A2, L; lia).
    rewrite V2, V3. do 2 f_equal. Z.div_mod_to_equations. lia.
Qed.

Lemma PutUint32_is_little_endian_witness :
  let b := mkBuffer [x01; x02; x03; x04; x05; x06] false None in
  exists old b',
    PutUint32 1 305419896 b = Ok (old, b')
    /\ GetUint8 1 b' = Ok (305419896 mod 256, b')
    /\ GetUint8 (1 + 1) b' = Ok (305419896 / 256 mod 256, b')
    /\ GetUint8 (1 + 2) b' = Ok (305419896 / 65536 mod 256, b')
    /\ GetUint8 (1 + 3) b' = Ok (305419896 / 16777216, b')
    /\ GetUint16 1 b' = Ok (305419896 mod 65536, b')
    /\ GetUint16 (1 + 2) b' = Ok (305419896 / 65536, b').
Proof.
  intros b. apply (PutUint32_is_little_endian b 1 305419896).
  - reflexivity.
  - lia.
  - unfold len. cbn. lia.
  - unfold len, max_int. cbn. lia.
  - lia.
Defined.
(** ** InsertBytes and DeleteBytes *)

Lemma inserted_parts (s : list byte) (o n : nat) :
  (o <= length s)%nat ->
  inserted s o n
  = firstn o s ++ firstn n (skipn o s ++ repeat x00 n) ++ skipn o s.
Proof.
  intros Ho. unfold inserted. rewrite app_assoc. f_equal.
  rewrite <- (firstn_skipn o s) at 1. rewrite <- app_assoc.
  assert (L : length (firstn o s) = o) by (rewrite length_firstn; lia).
  rewrite <- L at 1. apply firstn_app_2.
Qed.

(** X4. [InsertBytes(o, n)] with [n > 0] on an error-free buffer makes
    room for [n] bytes at [o]: the bytes before [o] and the bytes from
    [o] on, now at [o + n], are those of the old content.  The [n] bytes
    in between are not cleared: they are the first [n] bytes of the old
    content from [o] on followed by zero bytes, so they are all zero
    only when the insertion is at the end. *)
Theorem InsertBytes_layout (b : Buffer) (o n : Z) :
  err b = None -> 0 <= o <= len (buf b) -> 0 < n ->
  len (buf b) + n <= max_int ->
  let head := firstn (Z.to_nat o) (buf b) in
  let tail := skipn (Z.to_nat o) (buf b) in
  InsertBytes o n b
  = Ok (tt, mkBuffer
              (head ++ firstn (Z.to_nat n) (tail ++ repeat x00 (Z.to_nat n))
                 ++ tail) true None)
  /\ (o = len (buf b) ->
      InsertBytes o n b
      = Ok (tt, mkBuffer (buf b ++ repeat x00 (Z.to_nat n)) true None)).
Proof.
  intros He Ho Hn Hm head tail.
  rewrite InsertBytes_grows by assumption.
  rewrite inserted_parts by (unfold len in Ho; lia).
  split; [reflexivity |].
  intros E. do 3 f_equal.
  rewrite (firstn_all2 (buf b)) by (unfold len in E; lia).
  rewrite (skipn_all2 (buf b)) by (unfold len in E; lia).
  cbn [app]. rewrite app_nil_r. f_equal.
  apply firstn_all2. rewrite repeat_length. lia.
Qed.

Lemma InsertBytes_layout_witness :
  InsertBytes 1 2 (mkBuffer [x01; x02; x03; x04] false None)
  = Ok (tt, mkBuffer [x01; x02; x03; x02; x03; x04] true None)
  /\ InsertBytes 4 2 (mkBuffer [x01; x02; x03; x04] false None)
     = Ok (tt, mkBuffer [x01; x02; x03; x04; x00; x00] true None).
Proof.
  split.
  - apply (proj1 (InsertBytes_layout
                    (mkBuffer [x01; x02; x03; x04] false None) 1 2
                    eq_refl ltac:(unfold len; cbn; lia) ltac:(lia)
                    ltac:(unfold len, max_int; cbn; lia))).
  - apply (proj2 (InsertBytes_layout
                    (mkBuffer [x01; x02; x03; x04] false None) 4 2
                    eq_refl ltac:(unfold len; cbn; lia) ltac:(lia)
                    ltac:(unfold len, max_int; cbn; lia))).
    reflexivity.
Defined.

Lemma DeleteBytes_result (b : Buffer) (o n : Z) :
  err b = None -> 0 <= o <= len (buf b) -> 0 < n <= len (buf b) ->
  o + n <= max_int -> len (buf b) <= max_int ->
  DeleteBytes o n b
  = Ok (tt, mkBuffer
              (if (o =? 0) || (o + n <? len (buf b) - n)
               then firstn (Z.to_nat o) (buf b)
                      ++ skipn (Z.to_nat (o + n)) (buf b)
               else firstn (Z.to_nat (len (buf b) - n)) (buf b))
              true None).
Proof.
  destruct b as [s d e]. cbn [buf err]. intros -> Ho Hn Hon Hm.
  unfold DeleteBytes. run. tests.
  destruct (Z.eqb_spec o 0) as [-> | Hne].
  - cbn [orb]. unfold slice_from, slice. tests. do 3 f_equal.
    change (Z.to_nat 0) with 0%nat. cbn [firstn app].
    rewrite Z.add_0_l. apply firstn_all2. rewrite length_skipn.
    unfold len in *. lia.
  - cbn [orb]. unfold slice_to, slice, int_sub, int_add.
    rewrite !wrap64_small by (unfold min_int, max_int in *; lia).
    change (0 <? 0) with false. tests.
    change (Z.to_nat 0) with 0%nat. cbn [skipn]. rewrite !Z.sub_0_r.
    assert (Hcut : len (firstn (Z.to_nat (len s - n)) s) = len s - n).
    { unfold len in *. rewrite length_firstn. lia. }
    rewrite Hcut.
    destruct (Z.ltb_spec (o + n) (len s - n)) as [Hshift | Hstay];
      [| reflexivity].
    tests. unfold copy_into. rewrite Hcut. tests. do 3 f_equal.
    rewrite firstn_firstn.
    replace (Nat.min (Z.to_nat o) (Z.to_nat (len s - n))) with (Z.to_nat o)
      by lia.
    f_equal.
    rewrite length_firstn, length_skipn.
    rewrite (firstn_all2 (skipn _ _))
      by (rewrite length_skipn; unfold len in *; lia).
    rewrite (firstn_all2 (skipn _ _))
      by (rewrite length_skipn; unfold len in *; lia).
    rewrite (@skipn_all2 _ _ (firstn _ _)).
    + apply app_nil_r.
    + rewrite length_firstn. unfold len in *. lia.
Qed.

(** X5. [DeleteBytes(o, n)] with [0 < n <= len] on an error-free buffer
    takes the [n] bytes at [o] out of the content when [o] is 0 or more
    than [n] bytes follow them.  Otherwise, with [o > 0] and at most [n]
    bytes after the range, it drops the last [n] bytes of the content
    and leaves the bytes at [o] where they are. *)
Theorem DeleteBytes_layout (b : Buffer) (o n : Z) :
  err b = None -> 0 <= o <= len (buf b) -> 0 < n <= len (buf b) ->
  o + n <= max_int -> len (buf b) <= max_int ->
  (o = 0 \/ o + n < len (buf b) - n ->
   DeleteBytes o n b
   = Ok (tt, mkBuffer (firstn (Z.to_nat o) (buf b)
                         ++ skipn (Z.to_nat (o + n)) (buf b)) true None))
  /\ (0 < o -> len (buf b) - n <= o + n ->
      DeleteBytes o n b
      = Ok (tt, mkBuffer (firstn (Z.to_nat (len (buf b) - n)) (buf b))
                  true None)).
Proof.
  intros He Ho Hn Hon Hm.
  rewrite DeleteBytes_result by assumption. split.
  - intros Hc.
    assert (T : (o =? 0) || (o + n <? len (buf b) - n) = true).
    { destruct (Z.eqb_spec o 0), (Z.ltb_spec (o + n) (len (buf b) - n));
        try reflexivity; lia. }
    now rewrite T.
  - intros Hp Hr.
    assert (T : (o =? 0) || (o + n <? len (buf b) - n) = false).
    { destruct (Z.eqb_spec o 0), (Z.ltb_spec (o + n) (len (buf b) - n));
        try reflexivity; lia. }
    now rewrite T.
Qed.

Lemma DeleteBytes_layout_witness :
  DeleteBytes 1 1 (mkBuffer [x01; x02; x03; x04] false None)
  = Ok (tt, mkBuffer [x01; x03; x04] true None)
  /\ DeleteBytes 1 2 (mkBuffer [x01; x02; x03; x04] false None)
     = Ok (tt, mkBuffer [x01; x02] true None).
Proof.
  split.
  - apply (proj1 (DeleteBytes_layout
                    (mkBuffer [x01; x02; x03; x04] false None) 1 1
                    eq_refl ltac:(unfold len; cbn; lia)
                    ltac:(unfold len; cbn; lia)
                    ltac:(unfold max_int; lia)
                    ltac:(unfold len, max_int; cbn; lia))).
    right. unfold len. cbn. lia.
  - apply (proj2 (DeleteBytes_layout
                    (mkBuffer [x01; x02; x03; x04] false None) 1 2
                    eq_refl ltac:(unfold len; cbn; lia)
                    ltac:(unfold len; cbn; lia)
                    ltac:(unfold max_int; lia)
                    ltac:(unfold len, max_int; cbn; lia))).
    + lia.
    + unfold len. cbn. lia.
Defined.
(** ** GetBuffer and PutBuffer *)

(** The comparison loop decides whether the bytes at [offset] are those
    of [src]. *)
Lemma equal_scan_decides (src s : list byte) (offset idx : Z) :
  0 <= offset + idx -> offset + idx + len src <= len s ->
  len s <= max_int ->
  exists e, equal_scan src s offset idx = Ok e
    /\ (e = true <->
        firstn (length src) (skipn (Z.to_nat (offset + idx)) s) = src).
Proof.
  revert idx. induction src as [| x rest IH]; intros idx H0 Hl Hm.
  - exists true. split; [reflexivity | now split].
  - cbn [equal_scan]. unfold int_add.
    assert (Hr := len_nonneg rest).
    assert (Hlen : len (x :: rest) = 1 + len rest)
      by (unfold len; cbn [length]; lia).
    rewrite wrap64_small by (unfold min_int, max_int in *; lia).
    destruct (cut1 s (offset + idx)) as [pre [y [post [Es Lp]]]];
      [lia | lia |].
    assert (Sk : skipn (Z.to_nat (offset + idx)) s = y :: post).
    { rewrite Es. rewrite <- Lp. unfold len. rewrite Nat2Z.id.
      rewrite skipn_app, skipn_all, Nat.sub_diag. reflexivity. }
    rewrite Sk.
    assert (Ix : index s (offset + idx) = Ok y)
      by (rewrite Es, <- Lp; apply index_app).
    rewrite Ix. cbn [obind]. cbn [length firstn].
    destruct (Byte.eqb x y) eqn:Exy.
    + apply Byte.byte_dec_bl in Exy. subst y.
      destruct (IH (idx + 1)) as [e [-> He]]; [lia | lia | assumption |].
      exists e. split; [reflexivity |]. rewrite He.
      replace (Z.to_nat (offset + (idx + 1)))
        with (S (Z.to_nat (offset + idx))) by lia.
      change (skipn (S (Z.to_nat (offset + idx))) s)
        with (skipn (1 + Z.to_nat (offset + idx)) s).
      rewrite <- skipn_skipn, Sk. cbn [skipn].
      split; [intros -> ; reflexivity | intros E; now injection E].
    + exists false. split; [reflexivity |].
      split; [discriminate |]. intros E. injection E as E1 _. subst y.
      rewrite byte_eqb_refl in Exy. discriminate Exy.
Qed.

(** The comparison loop stops with [false] at the first difference it
    meets. *)
Lemma equal_scan_differs (k : nat) (src s : list byte) (offset idx : Z) :
  (k <= length src)%nat ->
  0 <= offset + idx -> offset + idx + Z.of_nat k <= len s ->
  len s <= max_int ->
  firstn k src <> firstn k (skipn (Z.to_nat (offset + idx)) s) ->
  equal_scan src s offset idx = Ok false.
Proof.
  revert src idx.
  induction k as [| k IH]; intros src idx Hk H0 Hl Hm D.
  - now elim D.
  - destruct src as [| x rest]; [cbn [length] in Hk; lia |].
    cbn [length] in Hk.
    destruct (cut1 s (offset + idx)) as [pre [y [post [Es Lp]]]];
      [lia | lia |].
    assert (Sk : skipn (Z.to_nat (offset + idx)) s = y :: post).
    { rewrite Es. rewrite <- Lp. unfold len. rewrite Nat2Z.id.
      rewrite skipn_app, skipn_all, Nat.sub_diag. reflexivity. }
    assert (Ix : index s (offset + idx) = Ok y)
      by (rewrite Es, <- Lp; apply index_app).
    cbn [equal_scan]. unfold int_add.
    rewrite wrap64_small by (unfold min_int, max_int in *; lia).
    rewrite Ix. cbn [obind].
    destruct (Byte.eqb x y) eqn:Exy; [| reflexivity].
    apply Byte.byte_dec_bl in Exy. subst y.
    apply IH; try lia.
    intros E. apply D. rewrite Sk. cbn [firstn]. f_equal.
    rewrite E. f_equal.
    replace (Z.to_nat (offset + (idx + 1)))
      with (1 + Z.to_nat (offset + idx))%nat by lia.
    rewrite <- skipn_skipn, Sk. reflexivity.
Qed.

Lemma index_past_end {A} (s : list A) : index s (len s) = Panic.
Proof.
  unfold index. assert (H := len_nonneg s). now tests.
Qed.

(** The comparison loop runs off the array when the array ends inside
    [src] and everything up to there is equal. *)
Lemma equal_scan_overrun (pre t1 t2 extra : list byte) (x : byte) :
  len pre + len t1 + len t2 <= max_int ->
  equal_scan (t2 ++ x :: extra) (pre ++ t1 ++ t2) (len pre) (len t1)
  = Panic.
Proof.
  revert t1. induction t2 as [| y t2 IH]; intros t1 Hm.
  - cbn [app equal_scan]. unfold int_add.
    assert (H1 := len_nonneg pre). assert (H2 := len_nonneg t1).
    change (len (@nil byte)) with 0 in Hm.
    rewrite wrap64_small by (unfold min_int, max_int in *; lia).
    rewrite app_nil_r, <- len_app, index_past_end. reflexivity.
  - cbn [app equal_scan]. unfold int_add.
    assert (H1 := len_nonneg pre). assert (H2 := len_nonneg t1).
    assert (H3 := len_nonneg t2).
    assert (Hy : len (y :: t2) = 1 + len t2)
      by (unfold len; cbn [length]; lia).
    rewrite wrap64_small by (unfold min_int, max_int in *; lia).
    rewrite <- len_app. rewrite (app_assoc pre t1). rewrite index_app.
    cbn [obind]. rewrite byte_eqb_refl.
    replace (len t1 + 1) with (len (t1 ++ [y]))
      by (rewrite len_app; reflexivity).
    replace ((pre ++ t1) ++ y :: t2) with (pre ++ (t1 ++ [y]) ++ t2)
      by (rewrite <- !app_assoc; reflexivity).
    apply IH. rewrite len_app. change (len [y]) with 1. lia.
Qed.

Lemma GetBuffer_at (pre mid post : list byte) (d : bool) :
  len (pre ++ mid ++ post) <= max_int ->
  GetBuffer (len pre) (len mid) (mkBuffer (pre ++ mid ++ post) d None)
  = Ok (mid, mkBuffer (pre ++ mid ++ post) d None).
Proof.
  intros Hm. rewrite !len_app in Hm.
  assert (H1 := len_nonneg pre). assert (H2 := len_nonneg mid).
  assert (H3 := len_nonneg post).
  unfold GetBuffer. run.
  unfold int_add. rewrite wrap64_small by (unfold min_int, max_int in *; lia).
  rewrite !len_app. tests. unfold make. tests. rewrite len_repeat.
  rewrite slice_app_mid. cbv beta iota.
  assert (C := copy_into_app [] (repeat x00 (Z.to_nat (len mid))) [] mid).
  cbn [app] in C. rewrite app_nil_r in C.
  change (len (@nil byte)) with 0 in C. rewrite Z.add_0_l in C.
  rewrite len_repeat in C.
  rewrite C by lia. rewrite app_nil_r. reflexivity.
Qed.

(** X6. On an error-free buffer [GetBuffer(o, n)] with the region inside
    the content returns the [n] bytes at [o] and leaves the buffer as it
    was. *)
Theorem GetBuffer_region (b : Buffer) (o n : Z) :
  err b = None -> 0 <= o -> 0 <= n -> o + n <= len (buf b) ->
  len (buf b) <= max_int ->
  GetBuffer o n b
  = Ok (firstn (Z.to_nat n) (skipn (Z.to_nat o) (buf b)), b).
Proof.
  destruct b as [s d e]. cbn [buf err]. intros -> Ho Hn Hl Hm.
  destruct (region_cut s o n) as [pre [mid [post [Es [Lp [Lm [_ [Em _]]]]]]]];
    try lia.
  rewrite <- Em. rewrite <- Lp, <- Lm.
  rewrite Es in Hm |- *. now apply GetBuffer_at.
Qed.

Lemma GetBuffer_region_witness :
  let b := mkBuffer [x01; x02; x03; x04] false None in
  GetBuffer 1 2 b = Ok ([x02; x03], b).
Proof.
  intros b. apply (GetBuffer_region b 1 2).
  - reflexivity.
  - lia.
  - lia.
  - unfold len. cbn. lia.
  - unfold len, max_int. cbn. lia.
Defined.

(** X7. On an error-free buffer [PutBuffer(o, src)] with the region
    inside the content writes [src] at [o] and keeps every other byte;
    when the region already holds [src] the buffer stays exactly as it
    was, otherwise the modified flag is raised.  [GetBuffer] at the same
    place then returns [src]. *)
Theorem PutBuffer_then_GetBuffer (b : Buffer) (o : Z) (src : list byte) :
  err b = None -> 0 <= o -> o + len src <= len (buf b) ->
  len (buf b) <= max_int ->
  let region := firstn (length src) (skipn (Z.to_nat o) (buf b)) in
  exists b',
    PutBuffer o src b = Ok (tt, b')
    /\ buf b' = firstn (Z.to_nat o) (buf b) ++ src
                  ++ skipn (Z.to_nat (o + len src)) (buf b)
    /\ err b' = None
    /\ (region = src -> b' = b)
    /\ (region <> src -> dirty b' = true)
    /\ GetBuffer o (len src) b' = Ok (src, b').
Proof.
  destruct b as [s d e]. cbn [buf err]. intros -> Ho Hl Hm.
  set (region := firstn (length src) (skipn (Z.to_nat o) s)).
  assert (Hn := len_nonneg src).
  destruct (region_cut s o (len src))
    as [pre [mid [post [Es [Lp [Lm [Ep [Em Eq]]]]]]]]; try lia.
  assert (Er : region = mid).
  { unfold region. rewrite Em. unfold len. now rewrite Nat2Z.id. }
  assert (G : forall d', GetBuffer o (len src)
                (mkBuffer (pre ++ src ++ post) d' None)
              = Ok (src, mkBuffer (pre ++ src ++ post) d' None)).
  { intros d'. rewrite <- Lp. apply GetBuffer_at.
    rewrite Es in Hm. rewrite !len_app in *. lia. }
  destruct (equal_scan_decides src s o 0) as [eq [Eeq Heq]];
    try lia.
  rewrite Z.add_0_r in Heq. fold region in Heq.
  unfold PutBuffer. run. unfold int_add.
  rewrite wrap64_small by (unfold min_int, max_int in *; lia).
  tests. rewrite Eeq. cbv beta iota.
  rewrite <- Ep, <- Eq.
  destruct eq.
  - assert (E : region = src) by now apply Heq.
    rewrite Er in E. clear Em Er. subst mid.
    exists (mkBuffer s d None). cbn [buf err dirty].
    split; [reflexivity |]. split; [exact Es |].
    split; [reflexivity |]. split; [intros _; reflexivity |].
    split; [intros N; elim N; now apply Heq |].
    rewrite Es. apply G.
  - assert (N : region <> src).
    { intros E. apply Heq in E. discriminate E. }
    pose proof (copy_into_app pre mid post src (eq_sym Lm)) as C.
    rewrite Lp, Lm, <- Es in C. rewrite C. cbv beta iota.
    exists (mkBuffer (pre ++ src ++ post) true None). cbn [buf err dirty].
    split; [reflexivity |]. split; [reflexivity |].
    split; [reflexivity |]. split; [intros E; now elim N |].
    split; [reflexivity |]. apply G.
Qed.

Lemma PutBuffer_then_GetBuffer_witness :
  let b := mkBuffer [x01; x02; x03; x04] false None in
  exists b',
    PutBuffer 1 [x07; x08] b = Ok (tt, b')
    /\ buf b' = [x01] ++ [x07; x08] ++ [x04]
    /\ err b' = None
    /\ ([x02; x03] = [x07; x08] -> b' = b)
    /\ ([x02; x03] <> [x07; x08] -> dirty b' = true)
    /\ GetBuffer 1 2 b' = Ok ([x07; x08], b').
Proof.
  intros b. apply (PutBuffer_then_GetBuffer b 1 [x07; x08]).
  - reflexivity.
  - lia.
  - unfold len. cbn. lia.
  - unfold len, max_int. cbn. lia.
Defined.

(** X8. A negative size passes the range test of [GetBuffer] whenever
    the offset is inside the content, and the call then panics in
    [make]. *)
Theorem GetBuffer_negative_size_panics (b : Buffer) (o n : Z) :
  err b = None -> 0 <= o <= len (buf b) -> n < 0 -> min_int <= o + n ->
  len (buf b) <= max_int ->
  GetBuffer o n b = Panic.
Proof.
  destruct b as [s d e]. cbn [buf err]. intros -> Ho Hn Hmin Hm.
  unfold GetBuffer. run. unfold int_add.
  rewrite wrap64_small by (unfold min_int, max_int in *; lia).
  tests. unfold make. now tests.
Qed.

Lemma GetBuffer_negative_size_panics_witness :
  GetBuffer 1 (-1) (mkBuffer [x01; x02; x03; x04] false None) = Panic.
Proof.
  apply GetBuffer_negative_size_panics.
  - reflexivity.
  - unfold len. cbn. lia.
  - lia.
  - unfold min_int. lia.
  - unfold len, max_int. cbn. lia.
Defined.
(** ** GetStringEx and PutStringEx without a charmap *)

Lemma terminated_unique (r1 r2 rest1 rest2 : list byte) :
  terminated r1 rest1 -> terminated r2 rest2 ->
  r1 ++ rest1 = r2 ++ rest2 -> r1 = r2.
Proof.
  revert r2. induction r1 as [| x r1 IH]; intros r2 [F1 T1] [F2 T2] E.
  - destruct r2 as [| y r2]; [reflexivity |]. exfalso.
    destruct T1 as [-> | [t ->]]; cbn [app] in E; [discriminate E |].
    injection E as E _. apply Forall_inv in F2. now apply F2.
  - destruct r2 as [| y r2].
    + exfalso.
      destruct T2 as [-> | [t ->]]; cbn [app] in E; [discriminate E |].
      injection E as E _. apply Forall_inv in F1. now apply F1.
    + cbn [app] in E. injection E as -> E. f_equal.
      apply Forall_inv_tail in F1. apply Forall_inv_tail in F2.
      apply (IH r2); [split | split |]; assumption.
Qed.

Lemma split_at_zero (l : list byte) :
  exists r rest, l = r ++ rest /\ terminated r rest.
Proof.
  induction l as [| x l [r [rest [E [F T]]]]].
  - exists [], []. repeat split; [constructor | now left].
  - destruct (Byte.eqb x x00) eqn:Ex.
    + apply Byte.byte_dec_bl in Ex. subst x.
      exists [], (x00 :: l). repeat split; [constructor | right; eauto].
    + exists (x :: r), rest. split; [cbn [app]; now rewrite E |].
      split; [| exact T]. constructor; [| exact F].
      intros ->. rewrite byte_eqb_refl in Ex. discriminate Ex.
Qed.

Lemma null_scan_finds (s : list byte) (offset : Z) (steps : nat) (idx : Z) :
  0 <= offset + idx -> offset + idx + Z.of_nat steps <= len s ->
  len s <= max_int ->
  exists r rest,
    firstn steps (skipn (Z.to_nat (offset + idx)) s) = r ++ rest
    /\ terminated r rest
    /\ null_scan s offset idx steps
       = Ok (match rest with [] => None | _ => Some (idx + len r) end).
Proof.
  revert idx. induction steps as [| k IH]; intros idx H0 Hl Hm.
  - exists [], []. repeat split; [constructor | now left].
  - destruct (cut1 s (offset + idx)) as [pre [y [post [Es Lp]]]];
      [lia | lia |].
    assert (Sk : skipn (Z.to_nat (offset + idx)) s = y :: post).
    { rewrite Es. rewrite <- Lp. unfold len. rewrite Nat2Z.id.
      rewrite skipn_app, skipn_all, Nat.sub_diag. reflexivity. }
    assert (Ix : index s (offset + idx) = Ok y)
      by (rewrite Es, <- Lp; apply index_app).
    cbn [null_scan]. unfold int_add.
    rewrite wrap64_small by (unfold min_int, max_int in *; lia).
    rewrite Ix, Sk. cbn [obind firstn].
    destruct (Byte.eqb y x00) eqn:Ey.
    + apply Byte.byte_dec_bl in Ey. subst y.
      exists [], (x00 :: firstn k post).
      split; [reflexivity |]. split.
      * split; [constructor | right; eauto].
      * change (len []) with 0. now rewrite Z.add_0_r.
    + destruct (IH (idx + 1)) as [r [rest [E [[F T] R]]]];
        [lia | lia | assumption |].
      replace (Z.to_nat (offset + (idx + 1)))
        with (1 + Z.to_nat (offset + idx))%nat in E by lia.
      rewrite <- skipn_skipn, Sk in E. cbn [skipn] in E.
      exists (y :: r), rest. split; [cbn [app]; now rewrite E |].
      split.
      * split; [| exact T]. constructor; [| exact F].
        intros ->. rewrite byte_eqb_refl in Ey. discriminate Ey.
      * rewrite R. destruct rest; [reflexivity |]. do 2 f_equal.
        unfold len. cbn [length]. lia.
Qed.

Lemma zero_fill_app (pre done rest post : list byte) :
  len pre + len done + len rest <= max_int ->
  zero_fill (pre ++ done ++ rest ++ post) (len pre) (len done)
    (length rest)
  = Ok (pre ++ done ++ repeat x00 (length rest) ++ post).
Proof.
  revert done. induction rest as [| x rest IH]; intros done Hm.
  - reflexivity.
  - cbn [length zero_fill repeat]. unfold int_add.
    assert (H1 := len_nonneg pre). assert (H2 := len_nonneg done).
    assert (H3 := len_nonneg rest).
    assert (Hx : len (x :: rest) = 1 + len rest)
      by (unfold len; cbn [length]; lia).
    rewrite wrap64_small by (unfold min_int, max_int in *; lia).
    assert (St : store (pre ++ done ++ (x :: rest) ++ post)
                   (len pre + len done) x00
                 = Ok (pre ++ (done ++ [x00]) ++ rest ++ post)).
    { rewrite <- len_app. rewrite (app_assoc pre done).
      cbn [app]. rewrite store_app. f_equal.
      rewrite <- !app_assoc. reflexivity. }
    rewrite St. cbn [obind].
    replace (len done + 1) with (len (done ++ [x00]))
      by (rewrite len_app; reflexivity).
    rewrite IH.
    + f_equal. rewrite <- !app_assoc. reflexivity.
    + rewrite len_app. change (len [x00]) with 1. lia.
Qed.

Section Strings.
Context `{Charmaps}.

Lemma GetStringEx_at (pre r rest post : list byte) (d null : bool) :
  (if null then terminated r rest else rest = []) ->
  0 < len (r ++ rest) -> len (pre ++ (r ++ rest) ++ post) <= max_int ->
  GetStringEx (len pre) (len (r ++ rest)) null None
    (mkBuffer (pre ++ (r ++ rest) ++ post) d None)
  = Ok (r, mkBuffer (pre ++ (r ++ rest) ++ post) d None).
Proof.
  intros Hnull Hn Hm.
  set (mid := r ++ rest) in *. set (s := pre ++ mid ++ post) in *.
  set (o := len pre). set (n := len mid) in *.
  assert (H1 := len_nonneg pre). fold o in H1.
  assert (H3 := len_nonneg post).
  assert (Ls : len s = o + n + len post)
    by (unfold s, o, n; rewrite !len_app; lia).
  assert (W : slice s o (o + n) = Ok mid) by apply slice_app_mid.
  assert (Reg : firstn (Z.to_nat n) (skipn (Z.to_nat o) s) = mid).
  { unfold s, o, n, len. rewrite !Nat2Z.id.
    rewrite skipn_app, skipn_all, Nat.sub_diag. cbn [app skipn].
    rewrite firstn_app, Nat.sub_diag, firstn_all. cbn [firstn].
    apply app_nil_r. }
  unfold GetStringEx. run. unfold int_add.
  rewrite wrap64_small by (unfold min_int, max_int in *; lia).
  tests. rewrite W. cbv beta iota.
  destruct null.
  - destruct (null_scan_finds s o (Z.to_nat n) 0)
      as [r' [rest' [E [T R]]]]; [lia | lia | assumption |].
    rewrite Z.add_0_r, Reg in E.
    assert (Er : r' = r)
      by (symmetry; apply (terminated_unique r r' rest rest' Hnull T E)).
    subst r'. apply app_inv_head in E. subst rest'.
    rewrite R. cbv beta iota.
    destruct rest as [| z rest'].
    + unfold mid. now rewrite app_nil_r.
    + assert (Lr : len r < n).
      { unfold n, mid. rewrite len_app. unfold len. cbn [length]. lia. }
      assert (Hr := len_nonneg r).
      rewrite wrap64_small by (unfold min_int, max_int in *; lia).
      rewrite Z.add_0_l.
      assert (Z : slice s o (o + len r) = Ok r).
      { unfold s, mid. rewrite <- app_assoc. apply slice_app_mid. }
      rewrite Z. reflexivity.
  - subst rest. unfold mid. now rewrite app_nil_r.
Qed.

(** X9. On an error-free buffer [GetStringEx] without a charmap returns
    the bytes of the field and leaves the buffer as it was; with [null]
    set, what it returns stops before the first zero byte of the field,
    if there is one. *)
Theorem GetStringEx_raw (b : Buffer) (o n : Z) (null : bool) :
  err b = None -> 0 <= o -> 0 < n -> o + n <= len (buf b) ->
  len (buf b) <= max_int ->
  exists r rest,
    GetStringEx o n null None b = Ok (r, b)
    /\ firstn (Z.to_nat n) (skipn (Z.to_nat o) (buf b)) = r ++ rest
    /\ (null = false -> rest = [])
    /\ (null = true -> terminated r rest).
Proof.
  destruct b as [s d e]. cbn [buf err]. intros -> Ho Hn Hl Hm.
  destruct (region_cut s o n)
    as [pre [mid [post [Es [Lp [Lm [_ [Em _]]]]]]]]; try lia.
  rewrite <- Em. clear Em.
  destruct null.
  - destruct (split_at_zero mid) as [r [rest [E T]]].
    exists r, rest.
    split; [| split; [exact E | split; [discriminate | now intros _]]].
    rewrite Es, <- Lp, <- Lm, E.
    apply GetStringEx_at; [exact T | rewrite <- E; lia |].
    rewrite <- E, <- Es. exact Hm.
  - exists mid, []. rewrite app_nil_r.
    split; [| split; [reflexivity | split; [reflexivity | discriminate]]].
    rewrite Es, <- Lp, <- Lm.
    pose proof (GetStringEx_at pre mid [] post d false eq_refl) as G.
    rewrite app_nil_r in G. apply G; [lia | now rewrite <- Es].
Qed.

Lemma PutStringEx_at (pre mid post : list byte) (d : bool)
  (value : gostring) :
  0 < len mid -> len (pre ++ mid ++ post) <= max_int ->
  let m := Nat.min (length value) (length mid) in
  firstn m value <> firstn m mid ->
  PutStringEx (len pre) (len mid) value None
    (mkBuffer (pre ++ mid ++ post) d None)
  = Ok (tt, mkBuffer
              (pre ++ firstn (length mid) value
                 ++ repeat x00 (length mid - length value) ++ post)
              true None).
Proof.
  intros Hn Hm m D.
  set (s := pre ++ mid ++ post) in *.
  set (o := len pre). set (size := len mid) in *.
  assert (H1 := len_nonneg pre). fold o in H1.
  assert (H3 := len_nonneg post).
  assert (Ls : len s = o + size + len post)
    by (unfold s, o, size; rewrite !len_app; lia).
  assert (Sk : skipn (Z.to_nat o) s = mid ++ post).
  { unfold s, o, len. rewrite Nat2Z.id.
    now rewrite skipn_app, skipn_all, Nat.sub_diag. }
  assert (S0 : equal_scan value s o 0 = Ok false).
  { apply (equal_scan_differs m); unfold m, size, len in *; try lia.
    rewrite Z.add_0_r, Sk. rewrite firstn_app.
    replace (Nat.min (length value) (length mid) - length mid)%nat
      with 0%nat by lia.
    cbn [firstn]. now rewrite app_nil_r. }
  unfold PutStringEx. run. unfold int_add.
  rewrite wrap64_small by (unfold min_int, max_int in *; lia).
  tests. rewrite S0. cbv beta iota.
  destruct (Z.le_gt_cases (len value) size) as [Short | Long].
  - pose proof (copy_into_app_short pre mid post value) as C.
    fold s o size in C. rewrite C by lia. cbv beta iota.
    assert (Lr : length (skipn (length value) mid)
                 = Z.to_nat (size - len value))
      by (rewrite length_skipn; unfold size, len in *; lia).
    pose proof (zero_fill_app pre value (skipn (length value) mid) post)
      as Zf.
    fold o in Zf. rewrite Lr in Zf. rewrite Zf.
    + cbv beta iota.
      rewrite (firstn_all2 value) by (unfold size, len in *; lia).
      replace (length mid - length value)%nat
        with (Z.to_nat (size - len value)) by (unfold size, len in *; lia).
      reflexivity.
    + assert (L2 : len (skipn (length value) mid) = size - len value)
        by (unfold size, len in *; lia).
      rewrite L2. lia.
  - pose proof (copy_into_app_long pre mid post value) as C.
    fold s o size in C. rewrite C by lia. cbv beta iota.
    replace (Z.to_nat (size - len value)) with 0%nat by lia.
    replace (length mid - length value)%nat with 0%nat
      by (unfold size, len in *; lia).
    cbn [zero_fill repeat app err]. reflexivity.
Qed.

(** X10. On an error-free buffer, when the text differs from the field
    somewhere in the bytes the two have in common, [PutStringEx]
    without a charmap writes the text, cut to the size of the field,
    fills what is left of the field with zero bytes, keeps every byte
    outside the field and raises the modified flag. *)
Theorem PutStringEx_layout (b : Buffer) (o size : Z) (value : gostring) :
  err b = None -> 0 <= o -> 0 < size -> o + size <= len (buf b) ->
  len (buf b) <= max_int ->
  let m := Nat.min (length value) (Z.to_nat size) in
  firstn m value <> firstn m (skipn (Z.to_nat o) (buf b)) ->
  PutStringEx o size value None b
  = Ok (tt, mkBuffer
              (firstn (Z.to_nat o) (buf b)
                 ++ firstn (Z.to_nat size) value
                 ++ repeat x00 (Z.to_nat (size - len value))
                 ++ skipn (Z.to_nat (o + size)) (buf b))
              true None).
Proof.
  destruct b as [s d e]. cbn [buf err]. intros -> Ho Hn Hl Hm.
  set (m := Nat.min (length value) (Z.to_nat size)). intros D.
  destruct (region_cut s o size)
    as [pre [mid [post [Es [Lp [Lm [Ep [Em Eq]]]]]]]]; try lia.
  rewrite <- Ep, <- Eq.
  assert (Lmid : length mid = Z.to_nat size) by (unfold len in *; lia).
  pose proof (PutStringEx_at pre mid post d value) as P.
  cbv zeta in P. rewrite Lp, Lm, <- Es, Lmid in P. fold m in P.
  rewrite P; [| lia | exact Hm |].
  - replace (Z.to_nat size - length value)%nat
      with (Z.to_nat (size - len value)) by (unfold len; lia).
    reflexivity.
  - intros E. apply D. rewrite E, Em. rewrite firstn_firstn.
    f_equal. unfold m. lia.
Qed.

(** X11. On an error-free buffer, writing with [PutStringEx] a text
    that has no zero byte, fits the field and is not what the field
    starts with, and reading the field back with [GetStringEx] and
    [null] set, both without a charmap, gives the text; the write keeps
    the length of the content and raises the modified flag. *)
Theorem PutStringEx_then_GetStringEx (b : Buffer) (o size : Z)
  (value : gostring) :
  err b = None -> 0 <= o -> o + size <= len (buf b) ->
  len (buf b) <= max_int ->
  len value <= size -> Forall nonzero value ->
  firstn (length value) (skipn (Z.to_nat o) (buf b)) <> value ->
  exists b',
    PutStringEx o size value None b = Ok (tt, b')
    /\ len (buf b') = len (buf b) /\ dirty b' = true
    /\ GetStringEx o size true None b' = Ok (value, b').
Proof.
  destruct b as [s d e]. cbn [buf err]. intros -> Ho Hl Hm Hv F D.
  assert (Hpos : 0 < len value).
  { destruct value; [now elim D |]. unfold len. cbn [length]. lia. }
  destruct (region_cut s o size)
    as [pre [mid [post [Es [Lp [Lm [Ep [Em Eq]]]]]]]]; try lia.
  assert (Lmid : length mid = Z.to_nat size) by (unfold len in *; lia).
  pose proof (PutStringEx_at pre mid post d value) as P.
  cbv zeta in P. rewrite Lp, Lm, <- Es in P.
  replace (Nat.min (length value) (length mid)) with (length value) in P
    by (unfold len in *; lia).
  rewrite firstn_all in P.
  rewrite (firstn_all2 value) in P by (unfold len in *; lia).
  rewrite P; [| lia | exact Hm |].
  2: { intros E. apply D.
       transitivity (firstn (length value) mid); [| now symmetry].
       rewrite Em, firstn_firstn. f_equal. unfold len in *. lia. }
  set (zeros := repeat x00 (length mid - length value)).
  assert (Lz : len zeros = size - len value)
    by (unfold zeros; rewrite len_repeat; unfold len in *; lia).
  assert (Lt : len (pre ++ value ++ zeros ++ post) = len s)
    by (rewrite Es, !len_app; lia).
  eexists. split; [reflexivity |]. cbn [buf dirty].
  split; [exact Lt |]. split; [reflexivity |].
  pose proof (GetStringEx_at pre value zeros post true true) as G.
  rewrite len_app, Lp, Lz in G.
  replace (len value + (size - len value)) with size in G by lia.
  rewrite <- app_assoc in G. apply G.
  - split; [exact F |]. unfold zeros.
    destruct (length mid - length value)%nat; [now left | right].
    cbn [repeat]. eauto.
  - lia.
  - rewrite Lt. exact Hm.
Qed.

(** X12. On an error-free buffer, a text that is longer than what is
    left of the content from the offset on and that agrees with the
    content up to its end makes [PutStringEx] panic: the comparison
    loop reads the content with an index out of range before anything
    is written. *)
Theorem PutStringEx_overrun_panics (b : Buffer) (o size : Z)
  (value : gostring) :
  err b = None -> 0 <= o -> 0 < size -> o + size <= len (buf b) ->
  len (buf b) <= max_int ->
  len (buf b) - o < len value ->
  firstn (Z.to_nat (len (buf b) - o)) value
  = skipn (Z.to_nat o) (buf b) ->
  PutStringEx o size value None b = Panic.
Proof.
  destruct b as [s d e]. cbn [buf err]. intros -> Ho Hn Hl Hm Hv E.
  destruct (cut_at s o) as [pre [t [Es Lp]]]; [lia |].
  assert (Sk : skipn (Z.to_nat o) s = t).
  { rewrite Es, <- Lp. unfold len. rewrite Nat2Z.id.
    now rewrite skipn_app, skipn_all, Nat.sub_diag. }
  rewrite Sk in E.
  assert (Lt : len t = len s - o) by (rewrite Es, len_app; lia).
  rewrite <- Lt in E.
  assert (V : value = t ++ skipn (length t) value).
  { rewrite <- E at 1. unfold len. rewrite Nat2Z.id.
    symmetry. apply firstn_skipn. }
  destruct (skipn (length t) value) as [| x extra] eqn:Ex.
  { exfalso. rewrite app_nil_r in V. rewrite V in Hv. lia. }
  assert (P : equal_scan value s o 0 = Panic).
  { rewrite V, Es, <- Lp.
    apply (equal_scan_overrun pre [] t extra x).
    change (len (@nil byte)) with 0. rewrite Es, len_app in Hm. lia. }
  unfold PutStringEx. run. unfold int_add.
  rewrite wrap64_small by (unfold min_int, max_int in *; lia).
  tests. rewrite P. reflexivity.
Qed.

End Strings.

Section StringRuns.
Existing Instance doubles.plain_charmaps.

Lemma GetStringEx_raw_witness :
  let b := mkBuffer [x41; x42; x00; x43; x44] false None in
  exists r rest,
    GetStringEx 0 4 true None b = Ok (r, b)
    /\ [x41; x42; x00; x43] = r ++ rest
    /\ (true = false -> rest = [])
    /\ (true = true -> terminated r rest).
Proof.
  intros b. apply (GetStringEx_raw b 0 4 true).
  - reflexivity.
  - lia.
  - lia.
  - unfold len. cbn. lia.
  - unfold len, max_int. cbn. lia.
Defined.

Lemma PutStringEx_layout_witness :
  PutStringEx 1 3 [x58] None (mkBuffer [x41; x42; x43; x44; x45] false None)
  = Ok (tt, mkBuffer [x41; x58; x00; x00; x45] true None)
  /\ PutStringEx 1 2 [x58; x59; x5a] None
       (mkBuffer [x41; x42; x43; x44; x45] false None)
     = Ok (tt, mkBuffer [x41; x58; x59; x44; x45] true None).
Proof.
  split.
  - apply (PutStringEx_layout
             (mkBuffer [x41; x42; x43; x44; x45] false None) 1 3 [x58]).
    + reflexivity.
    + lia.
    + lia.
    + unfold len. cbn. lia.
    + unfold len, max_int. cbn. lia.
    + cbn. discriminate.
  - apply (PutStringEx_layout
             (mkBuffer [x41; x42; x43; x44; x45] false None) 1 2
             [x58; x59; x5a]).
    + reflexivity.
    + lia.
    + lia.
    + unfold len. cbn. lia.
    + unfold len, max_int. cbn. lia.
    + cbn. discriminate.
Defined.

Lemma PutStringEx_then_GetStringEx_witness :
  let b := mkBuffer [x41; x42; x43; x44; x45] false None in
  exists b',
    PutStringEx 1 3 [x58; x59] None b = Ok (tt, b')
    /\ len (buf b') = len (buf b) /\ dirty b' = true
    /\ GetStringEx 1 3 true None b' = Ok ([x58; x59], b').
Proof.
  intros b. apply (PutStringEx_then_GetStringEx b 1 3 [x58; x59]).
  - reflexivity.
  - lia.
  - unfold len. cbn. lia.
  - unfold len, max_int. cbn. lia.
  - unfold len. cbn. lia.
  - repeat constructor; discriminate.
  - cbn. discriminate.
Defined.

Lemma PutStringEx_overrun_panics_witness :
  PutStringEx 1 2 [x42; x43; x44] None (mkBuffer [x41; x42; x43] false None)
  = Panic.
Proof.
  apply PutStringEx_overrun_panics.
  - reflexivity.
  - lia.
  - lia.
  - unfold len. cbn. lia.
  - unfold len, max_int. cbn. lia.
  - unfold len. cbn. lia.
  - reflexivity.
Defined.

End StringRuns.
(** ** GetOffsetArray *)

Lemma offset_loop_fills (ofs size idx : Z) (steps : nat) :
  forall done rest : list Z,
    length rest = steps -> len done + Z.of_nat steps <= max_int ->
    offset_loop (done ++ rest) ofs size idx (idx + len done) steps
    = Ok (done ++ map (fun j => int_add ofs
                                  (int_mul (idx + Z.of_nat j) size))
                      (seq (length done) steps)).
Proof.
  induction steps as [| k IH]; intros done rest L Hm.
  - destruct rest; [| discriminate L]. reflexivity.
  - destruct rest as [| x rest]; [discriminate L |].
    cbn [length] in L. injection L as L.
    cbn [offset_loop seq map]. unfold int_sub.
    replace (idx + len done - idx) with (len done) by lia.
    assert (Hd := len_nonneg done).
    rewrite wrap64_small by (unfold min_int, max_int in *; lia).
    rewrite store_app. cbn [obind].
    replace (idx + len done + 1) with (idx + len (done ++ [int_add ofs
               (int_mul (idx + len done) size)]))
      by (rewrite len_app; change (len [_]) with 1; lia).
    replace (done ++ int_add ofs (int_mul (idx + len done) size) :: rest)
      with ((done ++ [int_add ofs (int_mul (idx + len done) size)]) ++ rest)
      by (rewrite <- app_assoc; reflexivity).
    rewrite IH; [| exact L | rewrite len_app; change (len [_]) with 1; lia].
    f_equal. rewrite <- app_assoc. cbn [app]. do 2 f_equal.
    rewrite length_app. cbn [length].
    replace (length done + 1)%nat with (S (length done)) by lia.
    reflexivity.
Qed.

(** X13. On an error-free buffer, with a well-formed argument tuple
    whose offset, count and index fields read [O], [C] and
    [I] (the start index is 0 when no index field is configured),
    [GetOffsetArray] returns the offsets [O + i*size] for [i] from [I]
    to [C - 1] when [O > 0], [C > 0] and [I <= C], and nil otherwise;
    the buffer stays as it was. *)
Theorem GetOffsetArray_offsets (b : Buffer) (O C I : Z)
  (ofs ofsSize cnt cntSize idx idxSize size : Z) (rest : list Z) :
  err b = None ->
  0 < ofs -> ofsSize = 2 \/ ofsSize = 4 ->
  0 < cnt -> cntSize = 1 \/ cntSize = 2 \/ cntSize = 4 ->
  0 <= idxSize <= 4 -> 0 < size < 2 ^ 31 ->
  read_124 ofsSize ofs b = Ok (O, b) ->
  read_124 cntSize cnt b = Ok (C, b) ->
  (0 < idx -> read_124 idxSize idx b = Ok (I, b)) ->
  (idx <= 0 -> I = 0) ->
  let call := GetOffsetArray
                ([ofs; ofsSize; cnt; cntSize; idx; idxSize; size] ++ rest)
                b in
  (0 < O -> 0 < C -> I <= C ->
   call = Ok (Some (offsets O size I C), b))
  /\ (O <= 0 \/ C <= 0 \/ C < I -> call = Ok (None, b)).
Proof.
  intros He Hofs Hos Hcnt Hcs His Hsz RO RC RI RI0.
  pose proof (read_124_range _ _ _ _ _ RO) as HO.
  pose proof (read_124_range _ _ _ _ _ RC) as HC.
  assert (HI : - 2 ^ 31 <= I < 2 ^ 31).
  { destruct (Z.lt_ge_cases 0 idx) as [P | N].
    - apply (read_124_range _ _ _ _ _ (RI P)).
    - rewrite RI0 by lia. lia. }
  assert (Start :
            (GetOffsetArray
               ([ofs; ofsSize; cnt; cntSize; idx; idxSize; size] ++ rest) b
             = (if (0 <? O) && (0 <? C) && (I <=? C) then
                  (retVal <- lift (make 0 (int_sub C I)) ;;
                   retVal <- lift (offset_loop retVal O size I I
                                     (Z.to_nat (C - I))) ;;
                   ret (Some retVal)) b
                else Ok (None, b)))).
  { unfold GetOffsetArray.
    unfold bind at 1. unfold get at 1. rewrite He. cbn [is_set].
    assert (L : (len ([ofs; ofsSize; cnt; cntSize; idx; idxSize; size]
                      ++ rest) <? 7) = false).
    { apply Z.ltb_ge. unfold len. cbn [app length]. lia. }
    rewrite L. cbn [nth app].
    test_false (ofs <=? 0). test_false (cnt <=? 0). cbn [orb].
    assert (T1 : negb (ofsSize =? 2) && negb (ofsSize =? 4) = false)
      by (destruct Hos; subst; reflexivity).
    rewrite T1.
    assert (T2 : (cntSize <? 1) || (4 <? cntSize) || (cntSize =? 3)
                 = false)
      by (destruct Hcs as [-> | [-> | ->]]; reflexivity).
    rewrite T2.
    assert (T3 : (idxSize <? 0) || (4 <? idxSize) || (cntSize =? 3)
                 = false).
    { test_false (idxSize <? 0). test_false (4 <? idxSize).
      destruct Hcs as [-> | [-> | ->]]; reflexivity. }
    rewrite T3.
    test_false (size <=? 0). cbv iota.
    unfold bind at 1.
    match goal with
    | |- match ?c with _ => _ end = _ => assert (RO' : c = Ok (O, b))
    end.
    { revert RO. unfold read_124. destruct Hos; subst; cbn; auto. }
    rewrite RO'.
    unfold bind at 1. rewrite RC.
    unfold bind at 1.
    match goal with
    | |- match ?c with _ => _ end = _ => assert (RI' : c = Ok (I, b))
    end.
    { destruct (Z.ltb_spec 0 idx) as [P | N]; [now apply RI |].
      rewrite RI0 by lia. reflexivity. }
    rewrite RI'.
    destruct ((0 <? O) && (0 <? C) && (I <=? C)); reflexivity. }
  cbv zeta. rewrite Start. clear Start. split.
  - intros PO PC PI. tests.
    unfold bind, lift, ret, make, int_sub.
    rewrite wrap64_small by (unfold min_int, max_int; lia).
    tests.
    pose proof (offset_loop_fills O size I (Z.to_nat (C - I)) []
                  (repeat 0 (Z.to_nat (C - I)))) as F.
    cbn [app length] in F. change (len []) with 0 in F.
    rewrite Z.add_0_r in F. rewrite F.
    + do 3 f_equal. unfold offsets. apply map_ext_in.
      intros j Hj. apply in_seq in Hj. unfold int_add, int_mul.
      rewrite (wrap64_small ((I + Z.of_nat j) * size))
        by (unfold min_int, max_int; nia).
      apply wrap64_small. unfold min_int, max_int. nia.
    + apply repeat_length.
    + unfold max_int. lia.
  - intros N.
    assert (T : (0 <? O) && (0 <? C) && (I <=? C) = false).
    { destruct (Z.ltb_spec 0 O), (Z.ltb_spec 0 C), (Z.leb_spec I C);
        try reflexivity; lia. }
    now rewrite T.
Qed.

Lemma GetOffsetArray_offsets_witness :
  let b := mkBuffer [x00; x08; x00; x05; x02; xff] false None in
  GetOffsetArray ([1; 2; 3; 1; 4; 1; 16] ++ []) b
  = Ok (Some [40; 56; 72], b)
  /\ GetOffsetArray ([1; 2; 3; 1; 0; 0; 16] ++ []) b
     = Ok (Some [8; 24; 40; 56; 72], b)
  /\ GetOffsetArray ([1; 2; 4; 1; 3; 1; 16] ++ []) b = Ok (None, b).
Proof.
  intros b. split; [| split].
  - apply (proj1 (GetOffsetArray_offsets b 8 5 2 1 2 3 1 4 1 16 []
                    eq_refl ltac:(lia) ltac:(left; reflexivity)
                    ltac:(lia) ltac:(left; reflexivity) ltac:(lia)
                    ltac:(lia) eq_refl eq_refl
                    ltac:(intros _; reflexivity) ltac:(lia)));
      lia.
  - apply (proj1 (GetOffsetArray_offsets b 8 5 0 1 2 3 1 0 0 16 []
                    eq_refl ltac:(lia) ltac:(left; reflexivity)
                    ltac:(lia) ltac:(left; reflexivity) ltac:(lia)
                    ltac:(lia) eq_refl eq_refl
                    ltac:(lia) ltac:(intros _; reflexivity)));
      lia.
  - apply (proj2 (GetOffsetArray_offsets b 8 2 5 1 2 4 1 3 1 16 []
                    eq_refl ltac:(lia) ltac:(left; reflexivity)
                    ltac:(lia) ltac:(left; reflexivity) ltac:(lia)
                    ltac:(lia) eq_refl eq_refl
                    ltac:(intros _; reflexivity) ltac:(lia))).
    right. right. lia.
Defined.
(** ** DecompressReplace and CompressReplace *)

Section Replace.
Context `{Charmaps} `{StreamCodec} `{Sink}.

Lemma replace_region_layout (s : list byte) (d : bool) (o size : Z)
  (data : list byte) :
  0 <= o -> 0 <= size -> o + size <= len s ->
  len s + len data <= max_int ->
  replace_region o size (Some data) (mkBuffer s d None)
  = Ok (len data,
        mkBuffer
          (firstn (Z.to_nat o) s ++ data
             ++ (if (size <=? len data) || (o + len data =? 0)
                    || (size - len data <? len s - (o + size))
                 then skipn (Z.to_nat (o + size)) s
                 else firstn (Z.to_nat (len s - (o + size)))
                        (skipn (Z.to_nat (o + len data)) s)))
          true None).
Proof.
  intros Ho Hs Hl Hm.
  assert (Hn := len_nonneg data). set (n := len data) in *.
  destruct (region_cut s o size)
    as [pre [mid [post [Es [Lp [Lm [Ep [_ Eq]]]]]]]]; try lia.
  assert (Lpost : len post = len s - (o + size)).
  { rewrite Es, !len_app. lia. }
  assert (Hpost := len_nonneg post).
  rewrite <- Ep.
  unfold replace_region. cbn [len_opt or_empty]. fold n.
  unfold int_add, int_sub.
  destruct (Z.ltb_spec size n) as [Grow | NoGrow].
  - (* the block grows *)
    rewrite !wrap64_small by (unfold min_int, max_int in *; lia).
    unfold bind at 1.
    rewrite InsertBytes_grows; cbn [buf err]; try lia; trivial.
    rewrite inserted_parts by (unfold len in *; lia).
    unfold bind, get, lift, set_buf, set_dirty, ret. cbn [is_set err buf].
    assert (Tail : skipn (Z.to_nat (o + size)) s = post) by now symmetry.
    assert (Head : firstn (Z.to_nat (o + size)) s = pre ++ mid).
    { rewrite Es, app_assoc.
      replace (Z.to_nat (o + size)) with (length (pre ++ mid))
        by (rewrite length_app; unfold len in *; lia).
      rewrite firstn_app, Nat.sub_diag, firstn_all. cbn [firstn].
      apply app_nil_r. }
    rewrite Tail, Head.
    set (gap := firstn (Z.to_nat (n - size))
                  (post ++ repeat x00 (Z.to_nat (n - size)))).
    assert (Lgap : len gap = n - size).
    { unfold gap, len in *. rewrite length_firstn, length_app, repeat_length.
      lia. }
    pose proof (copy_into_app pre (mid ++ gap) post data) as C.
    rewrite len_app, Lp, Lm, Lgap in C.
    replace (o + (size + (n - size))) with (o + n) in C by lia.
    rewrite <- !app_assoc in *. rewrite C by (unfold n; lia).
    cbv beta iota.
    fold n. test_true (size <=? n). cbn [orb err]. reflexivity.
  - destruct (Z.ltb_spec n size) as [Shrink | Same].
    + (* the block shrinks *)
      rewrite !wrap64_small by (unfold min_int, max_int in *; lia).
      unfold bind at 1.
      rewrite DeleteBytes_result; cbn [buf err]; try lia; trivial.
      unfold bind, get, lift, set_buf, set_dirty, ret.
      cbn [is_set err buf].
      replace (o + n + (size - n)) with (o + size) by lia.
      fold n. test_false (size <=? n). cbn [orb].
      replace (o + size <? len s - (size - n))
        with (size - n <? len s - (o + size))
        by (destruct (Z.ltb_spec (size - n) (len s - (o + size))),
              (Z.ltb_spec (o + size) (len s - (size - n)));
            try reflexivity; lia).
      destruct ((o + n =? 0) || (size - n <? len s - (o + size))) eqn:Sh.
      * (* the gap is closed *)
        rewrite <- Eq.
        assert (Head : firstn (Z.to_nat (o + n)) s
                       = pre ++ firstn (Z.to_nat n) mid).
        { rewrite Es.
          replace (Z.to_nat (o + n)) with (length pre + Z.to_nat n)%nat
            by (unfold len in *; lia).
          rewrite firstn_app_2, firstn_app.
          replace (Z.to_nat n - length mid)%nat with 0%nat
            by (unfold len in *; lia).
          cbn [firstn]. now rewrite app_nil_r. }
        rewrite Head.
        pose proof (copy_into_app pre (firstn (Z.to_nat n) mid) post data)
          as C.
        assert (Lf : len (firstn (Z.to_nat n) mid) = n)
          by (unfold len in *; rewrite length_firstn; lia).
        rewrite Lp, Lf in C. rewrite <- !app_assoc in *.
        rewrite C by (unfold n; lia). reflexivity.
      * (* the end of the array is dropped *)
        set (k := len s - (o + size)).
        assert (Cut : firstn (Z.to_nat (len s - (size - n))) s
                      = pre ++ firstn (Z.to_nat n) mid
                          ++ firstn (Z.to_nat k)
                               (skipn (Z.to_nat (o + n)) s)).
        { rewrite <- (firstn_skipn (Z.to_nat (o + n))
                        (firstn (Z.to_nat (len s - (size - n))) s)).
          rewrite firstn_firstn.
          replace (Nat.min (Z.to_nat (o + n))
                     (Z.to_nat (len s - (size - n))))
            with (Z.to_nat (o + n)) by (unfold k in *; lia).
          rewrite skipn_firstn_comm.
          replace (Z.to_nat (len s - (size - n)) - Z.to_nat (o + n))%nat
            with (Z.to_nat k) by (unfold k; lia).
          rewrite app_assoc. f_equal.
          rewrite Es.
          replace (Z.to_nat (o + n)) with (length pre + Z.to_nat n)%nat
            by (unfold len in *; lia).
          rewrite firstn_app_2, firstn_app.
          replace (Z.to_nat n - length mid)%nat with 0%nat
            by (unfold len in *; lia).
          cbn [firstn]. now rewrite app_nil_r. }
        rewrite Cut.
        pose proof (copy_into_app pre (firstn (Z.to_nat n) mid)
                      (firstn (Z.to_nat k) (skipn (Z.to_nat (o + n)) s))
                      data) as C.
        assert (Lf : len (firstn (Z.to_nat n) mid) = n)
          by (unfold len in *; rewrite length_firstn; lia).
        rewrite Lp, Lf in C.
        rewrite C by (unfold n; lia). reflexivity.
    + (* same size *)
      assert (En : n = size) by lia.
      unfold bind, get, lift, set_buf, set_dirty, ret.
      cbn [is_set err buf].
      rewrite !wrap64_small by (unfold min_int, max_int in *; lia).
      pose proof (copy_into_app pre mid post data) as C.
      rewrite Lp, Lm, <- Es in C. rewrite <- En in C.
      rewrite C by (unfold n; lia). cbv beta iota.
      fold n.
      test_true (size <=? n). cbn [orb]. now rewrite <- Eq.
Qed.

(** The two ways a block of [size] bytes at [o] ends up replaced by
    [data]: [closed] when the bytes after the block follow the new
    block, [cut] when the end of the array was dropped and bytes of the
    old block follow the new one. *)
Lemma replace_region_cases (s : list byte) (d : bool) (o size : Z)
  (data : list byte) :
  0 <= o -> 0 <= size -> o + size <= len s ->
  len s + len data <= max_int ->
  let n := len data in
  let rest := len s - (o + size) in
  (size <= n \/ o + n = 0 \/ size - n < rest ->
   replace_region o size (Some data) (mkBuffer s d None)
   = Ok (n, mkBuffer (firstn (Z.to_nat o) s ++ data
                        ++ skipn (Z.to_nat (o + size)) s) true None))
  /\ (n < size -> 0 < o + n -> rest <= size - n ->
      replace_region o size (Some data) (mkBuffer s d None)
      = Ok (n, mkBuffer (firstn (Z.to_nat o) s ++ data
                           ++ firstn (Z.to_nat rest)
                                (skipn (Z.to_nat (o + n)) s)) true None)).
Proof.
  intros Ho Hs Hl Hm n rest.
  assert (Hn := len_nonneg data). fold n in Hn.
  rewrite replace_region_layout by assumption. fold n. fold rest.
  split.
  - intros Hc.
    assert (T : (size <=? n) || (o + n =? 0) || (size - n <? rest) = true).
    { destruct (Z.leb_spec size n), (Z.eqb_spec (o + n) 0),
        (Z.ltb_spec (size - n) rest); try reflexivity; lia. }
    now rewrite T.
  - intros Hlt Hp Hr.
    assert (T : (size <=? n) || (o + n =? 0) || (size - n <? rest) = false).
    { destruct (Z.leb_spec size n), (Z.eqb_spec (o + n) 0),
        (Z.ltb_spec (size - n) rest); try reflexivity; unfold rest in *;
        lia. }
    now rewrite T.
Qed.

(** X14. [DecompressReplace] on an error-free buffer and a region
    that inflates to [data]: the region
    is replaced by [data] and the bytes after it follow, unless the
    region shrinks by at least as many bytes as follow it; then the end
    of the array is dropped instead and bytes of the old region follow
    [data]. *)
Theorem DecompressReplace_layout (b : Buffer) (o size : Z)
  (data : list byte) :
  err b = None -> 0 <= o -> 0 < size -> o + size <= len (buf b) ->
  len (buf b) + len data <= max_int ->
  inflate (firstn (Z.to_nat size) (skipn (Z.to_nat o) (buf b)))
  = Stream data None ->
  let n := len data in
  let rest := len (buf b) - (o + size) in
  (size <= n \/ size - n < rest ->
   DecompressReplace o size b
   = Ok (n, mkBuffer (firstn (Z.to_nat o) (buf b) ++ data
                        ++ skipn (Z.to_nat (o + size)) (buf b))
              true None))
  /\ (n < size -> 0 < o + n -> rest <= size - n ->
      DecompressReplace o size b
      = Ok (n, mkBuffer (firstn (Z.to_nat o) (buf b) ++ data
                           ++ firstn (Z.to_nat rest)
                                (skipn (Z.to_nat (o + n)) (buf b)))
                 true None)).
Proof.
  destruct b as [s d e]. cbv beta iota delta [buf err].
  intros -> Ho Hs Hl Hm I n rest.
  assert (Hn := len_nonneg data). fold n in Hn.
  assert (Start : DecompressReplace o size (mkBuffer s d None)
                  = replace_region o size (Some data) (mkBuffer s d None)).
  { unfold DecompressReplace. run. test_false (size <? 0).
    unfold DecompressInto. run. unfold int_add.
    rewrite !wrap64_small by (unfold min_int, max_int in *; lia).
    tests.
    destruct (region_cut s o size)
      as [pre [mid [post [Es [Lp [Lm [_ [Em _]]]]]]]]; try lia.
    assert (W : slice s o (o + size) = Ok mid).
    { rewrite Es at 1. rewrite <- Lp, <- Lm. apply slice_app_mid. }
    rewrite W. cbv beta iota. rewrite Em, I.
    cbn [len_opt]. change (0 =? 0) with true. cbv iota.
    unfold make. tests. reflexivity. }
  rewrite Start.
  destruct (replace_region_cases s d o size data) as [Closed Cut];
    try assumption; try lia.
  split; [intros Hc; apply Closed; lia | exact Cut].
Qed.

(** X15. [CompressReplace] on an error-free buffer and a region the
    zlib writer takes without error:
    the block written is the writer's output cut to as many bytes as
    [Write] reported input bytes; it replaces the region and the bytes
    after the region follow, unless the region shrinks by at least as
    many bytes as follow it; then the end of the array is dropped
    instead and bytes of the old region follow the block. *)
Theorem CompressReplace_layout (b : Buffer) (o size level : Z) :
  err b = None -> 0 <= o -> 0 <= size -> o + size <= len (buf b) ->
  let z := deflate (clamp_level level)
             (firstn (Z.to_nat size) (skipn (Z.to_nat o) (buf b))) in
  let out := firstn (Z.to_nat (zw_written z)) (zw_out z) in
  let n := len out in
  let rest := len (buf b) - (o + size) in
  zw_write_err z = None -> zw_flush_err z = None -> 0 <= zw_written z ->
  len (buf b) + n <= max_int ->
  (size <= n \/ o + n = 0 \/ size - n < rest ->
   CompressReplace o size level b
   = Ok (n, mkBuffer (firstn (Z.to_nat o) (buf b) ++ out
                        ++ skipn (Z.to_nat (o + size)) (buf b))
              true None))
  /\ (n < size -> 0 < o + n -> rest <= size - n ->
      CompressReplace o size level b
      = Ok (n, mkBuffer (firstn (Z.to_nat o) (buf b) ++ out
                           ++ firstn (Z.to_nat rest)
                                (skipn (Z.to_nat (o + n)) (buf b)))
                 true None)).
Proof.
  destruct b as [s d e]. cbv beta iota delta [buf err].
  intros -> Ho Hs Hl z out n rest We Fe Hw Hm.
  assert (Hn := len_nonneg out). fold n in Hn.
  assert (Start : CompressReplace o size level (mkBuffer s d None)
                  = replace_region o size (Some out) (mkBuffer s d None)).
  { unfold CompressReplace. run. test_false (size <? 0).
    unfold CompressInto. run. unfold int_add.
    rewrite !wrap64_small by (unfold min_int, max_int in *; lia).
    tests.
    assert (E : (if level <? -2 then -2 else if 9 <? level then 9 else level)
                = clamp_level level).
    { unfold clamp_level.
      destruct (Z.ltb_spec level (-2)), (Z.ltb_spec 9 level); lia. }
    rewrite E.
    assert (NW : NewWriterLevel_err (clamp_level level) = None).
    { unfold NewWriterLevel_err, clamp_level, HuffmanOnly, BestCompression.
      destruct (Z.ltb_spec (Z.max (-2) (Z.min 9 level)) (-2)); [lia |].
      destruct (Z.ltb_spec 9 (Z.max (-2) (Z.min 9 level))); [lia |].
      reflexivity. }
    rewrite NW.
    destruct (region_cut s o size)
      as [pre [mid [post [Es [Lp [Lm [_ [Em _]]]]]]]]; try lia.
    assert (W : slice s o (o + size) = Ok mid).
    { rewrite Es at 1. rewrite <- Lp, <- Lm. apply slice_app_mid. }
    rewrite W. cbv beta iota. rewrite Em. fold z.
    rewrite We, Fe. cbn [is_set or_empty app].
    destruct (Z.ltb_spec (zw_written z) (len (zw_out z))) as [Lt | Ge].
    - unfold slice_to, slice. tests. rewrite Z.sub_0_r.
      change (Z.to_nat 0) with 0%nat. cbn [skipn]. reflexivity.
    - unfold out. rewrite firstn_all2 by (unfold len in *; lia).
      reflexivity. }
  rewrite Start.
  apply replace_region_cases; assumption.
Qed.

End Replace.

Section ReplaceRuns.
Existing Instance doubles.plain_charmaps.
Existing Instance doubles.memory_sink.

Lemma DecompressReplace_layout_witness :
  let b := mkBuffer [x01; x02; x03; x04; x05; x06; x07] false None in
  @DecompressReplace shrinking.halving_codec 1 2 b
  = Ok (1, mkBuffer [x01; x02; x04; x05; x06; x07] true None)
  /\ @DecompressReplace shrinking.halving_codec 1 4 b
     = Ok (2, mkBuffer [x01; x02; x03; x04; x05] true None).
Proof.
  intros b. split.
  - apply (proj1 (@DecompressReplace_layout shrinking.halving_codec
                    b 1 2 [x02] eq_refl ltac:(lia) ltac:(lia)
                    ltac:(unfold len; cbn; lia)
                    ltac:(unfold len, max_int; cbn; lia) eq_refl)).
    right. unfold len. cbn. lia.
  - apply (proj2 (@DecompressReplace_layout shrinking.halving_codec
                    b 1 4 [x02; x03] eq_refl ltac:(lia) ltac:(lia)
                    ltac:(unfold len; cbn; lia)
                    ltac:(unfold len, max_int; cbn; lia) eq_refl)).
    + unfold len. cbn. lia.
    + unfold len. cbn. lia.
    + unfold len. cbn. lia.
Defined.

Lemma CompressReplace_layout_witness :
  let b := mkBuffer [x01; x02; x03; x04; x05; x06; x07] false None in
  @CompressReplace doubles.stored_codec 1 2 9 b
  = Ok (2, mkBuffer [x01; x02; x03; x04; x05; x06; x07] true None)
  /\ @CompressReplace shrinking.halving_codec 1 4 9 b
     = Ok (2, mkBuffer [x01; x02; x03; x04; x05] true None).
Proof.
  intros b. split.
  - apply (proj1 (@CompressReplace_layout doubles.stored_codec
                    b 1 2 9 eq_refl ltac:(lia) ltac:(lia)
                    ltac:(unfold len; cbn; lia) eq_refl eq_refl
                    ltac:(vm_compute; discriminate)
                    ltac:(vm_compute; discriminate))).
    left. vm_compute. discriminate.
  - apply (proj2 (@CompressReplace_layout shrinking.halving_codec
                    b 1 4 9 eq_refl ltac:(lia) ltac:(lia)
                    ltac:(unfold len; cbn; lia) eq_refl eq_refl
                    ltac:(vm_compute; discriminate)
                    ltac:(vm_compute; discriminate))).
    + vm_compute. reflexivity.
    + vm_compute. reflexivity.
    + vm_compute. discriminate.
Defined.

End ReplaceRuns.
(** ** What no call does *)

Section Keeps.
Variable R : Buffer -> Buffer -> Prop.
Hypothesis R_refl : forall b, R b b.
Hypothesis R_trans : forall a b c, R a b -> R b c -> R a c.

Lemma keeps_ret {A} (v : A) : keeps R (ret v).
Proof. intros b v' b' E. inversion E. subst. apply R_refl. Qed.

Lemma keeps_get : keeps R get.
Proof. intros b v' b' E. inversion E. subst. apply R_refl. Qed.

Lemma keeps_lift {A} (o : outcome A) : keeps R (lift o).
Proof.
  intros b v' b' E. unfold lift in E. destruct o; [| discriminate E].
  inversion E. subst. apply R_refl.
Qed.

Lemma keeps_bind {A B} (m : M A) (k : A -> M B) :
  keeps R m -> (forall x, keeps R (k x)) -> keeps R (bind m k).
Proof.
  intros Hm Hk b v b' E. unfold bind in E.
  destruct (m b) as [[x b1] |] eqn:E1; [| discriminate E].
  eapply R_trans; [eapply Hm; exact E1 | eapply Hk; exact E].
Qed.

End Keeps.

(** One step through a method body, by the shape of the body. *)
Ltac keep_step :=
  match goal with
  | |- keeps _ (bind _ _) => apply keeps_bind; [assumption | | intros ?]
  | |- keeps _ (ret _) => apply keeps_ret; assumption
  | |- keeps _ get => apply keeps_get; assumption
  | |- keeps _ (lift _) => apply keeps_lift; assumption
  | |- keeps _ (if ?c then _ else _) => destruct c
  | |- keeps _ (match ?x with _ => _ end) => destruct x
  | |- keeps _ _ => solve [auto]
  end.

Ltac open_calls :=
  unfold run, Save, Bytes, Error, ClearError, BufferLength, IsModified,
    ClearModified, GetString, GetStringEx, GetBuffer, GetUint, GetInt,
    GetOffsetArray2, GetOffsetArray, read_124,
    GetInt8, GetInt16, GetInt32, GetUint8, GetUint16, GetUint32,
    PutString, PutStringEx, PutBuffer, PutInt8, PutInt16, PutInt32,
    PutUint8, PutUint16, PutUint32, ReplaceBuffer,
    DecompressReplace, CompressReplace, replace_region,
    DecompressInto, CompressInto, InsertBytes, DeleteBytes,
    out_of_range, illegal_arguments.

Ltac opened E :=
  unfold out_of_range, illegal_arguments in E;
  unfold bind, get, ret, lift, set_buf, set_dirty, set_err in E;
  cbn [buf dirty err fst snd is_set] in E.

Ltac value_of E :=
  apply (f_equal (fun r => match r with Ok y => len y | Panic => 0 end))
    in E;
  cbv beta iota in E; rewrite <- E.

Lemma store_len {A} (s s' : list A) (i : Z) (x : A) :
  store s i x = Ok s' -> len s' = len s.
Proof.
  unfold store.
  destruct (Z.ltb_spec i 0); [discriminate |].
  destruct (Z.leb_spec (len s) i); [discriminate |].
  cbn [orb]. intros E. value_of E. unfold len in *.
  rewrite length_app, length_firstn, length_cons, length_skipn. lia.
Qed.

Lemma copy_into_keeps_len {A} (s s' src : list A) (lo hi : Z) :
  copy_into s lo hi src = Ok s' -> len s' = len s.
Proof.
  unfold copy_into.
  destruct (Z.ltb_spec lo 0); [discriminate |].
  destruct (Z.ltb_spec hi lo); [discriminate |].
  destruct (Z.ltb_spec (len s) hi); [discriminate |].
  cbn [orb]. intros E. value_of E. unfold len in *.
  rewrite !length_app, !length_firstn, length_skipn. lia.
Qed.

Lemma zero_fill_len (steps : nat) (s s' : list byte) (offset idx : Z) :
  zero_fill s offset idx steps = Ok s' -> len s' = len s.
Proof.
  revert s idx. induction steps as [| k IH]; intros s idx E.
  - inversion E. reflexivity.
  - cbn [zero_fill] in E.
    destruct (store s (int_add offset idx) x00) as [s1 |] eqn:S1;
      [| discriminate E].
    cbn [obind] in E. rewrite (IH _ _ E). eapply store_len, S1.
Qed.

Lemma LE_PutUint16_len (t t' : list byte) (v : Z) :
  LE_PutUint16 t v = Ok t' -> len t' = len t.
Proof.
  unfold LE_PutUint16. intros E.
  destruct (index t 1); [| discriminate E]. cbn [obind] in E.
  destruct (store t 0 _) as [t0 |] eqn:S0; [| discriminate E].
  cbn [obind] in E.
  rewrite (store_len _ _ _ _ E). eapply store_len, S0.
Qed.

Lemma LE_PutUint32_len (t t' : list byte) (v : Z) :
  LE_PutUint32 t v = Ok t' -> len t' = len t.
Proof.
  unfold LE_PutUint32. intros E.
  destruct (index t 3); [| discriminate E]. cbn [obind] in E.
  destruct (store t 0 _) as [t0 |] eqn:S0; [| discriminate E].
  cbn [obind] in E.
  destruct (store t0 1 _) as [t1 |] eqn:S1; [| discriminate E].
  cbn [obind] in E.
  destruct (store t1 2 _) as [t2 |] eqn:S2; [| discriminate E].
  cbn [obind] in E.
  rewrite (store_len _ _ _ _ E), (store_len _ _ _ _ S2),
    (store_len _ _ _ _ S1). eapply store_len, S0.
Qed.

Lemma through_from_len (s s' : list byte) (lo : Z)
  (f : list byte -> outcome (list byte)) :
  (forall t t', f t = Ok t' -> len t' = len t) ->
  through_from s lo f = Ok s' -> len s' = len s.
Proof.
  intros Hf. unfold through_from, slice_from, slice.
  destruct (Z.ltb_spec lo 0); [discriminate |].
  destruct (Z.ltb_spec (len s) lo); [discriminate |].
  destruct (Z.ltb_spec (len s) (len s)); [lia |].
  cbn [orb obind].
  destruct (f _) as [t' |] eqn:F; [| discriminate].
  cbn [obind]. intros E. value_of E.
  apply Hf in F. rewrite len_app, F. unfold len in *.
  rewrite !length_firstn, length_skipn. lia.
Qed.

Ltac length_kept :=
  cbn [buf]; try reflexivity;
  repeat match goal with
  | E : store _ _ _ = Ok _ |- _ => apply store_len in E
  | E : copy_into _ _ _ _ = Ok _ |- _ => apply copy_into_keeps_len in E
  | E : zero_fill _ _ _ _ = Ok _ |- _ => apply zero_fill_len in E
  | E : through_from _ _ (fun t => LE_PutUint16 t _) = Ok _ |- _ =>
      apply through_from_len in E;
      [| intros ? ?; apply LE_PutUint16_len]
  | E : through_from _ _ (fun t => LE_PutUint32 t _) = Ok _ |- _ =>
      apply through_from_len in E;
      [| intros ? ?; apply LE_PutUint32_len]
  end; try congruence.

Section Invariants.
Context `{Charmaps} `{StreamCodec} `{Sink}.

Lemma reading_keeps (c : op) :
  reads c = true ->
  keeps (fun a a' => buf a' = buf a /\ dirty a' = dirty a) (run c).
Proof.
  intros Hc.
  set (R := fun a a' : Buffer => buf a' = buf a /\ dirty a' = dirty a).
  assert (R_refl : forall a, R a a) by (intros a; split; reflexivity).
  assert (R_trans : forall x y z, R x y -> R y z -> R x z).
  { intros x y z [B1 D1] [B2 D2]. split; congruence. }
  assert (R_err : forall e, keeps R (set_err e)).
  { intros e a u a' Ea. inversion Ea. subst. split; reflexivity. }
  destruct c; cbn [reads] in Hc; try discriminate Hc;
    try match type of Hc with
        | match ?t with _ => _ end = true =>
            destruct t; [discriminate Hc |]
        end;
    open_calls; repeat keep_step.
Qed.

(** With any target, [DecompressInto] and [CompressInto] leave the
    length of the content as it was. *)
Lemma into_keeps_length (offset size level : Z)
  (target : option (list byte)) :
  keeps (fun a a' => len (buf a') = len (buf a))
    (run (op_DecompressInto offset size target))
  /\ keeps (fun a a' => len (buf a') = len (buf a))
       (run (op_CompressInto offset size level target)).
Proof.
  set (R := fun a a' : Buffer => len (buf a') = len (buf a)).
  assert (R_refl : forall a, R a a) by (intros a; reflexivity).
  assert (R_trans : forall x y z, R x y -> R y z -> R x z).
  { intros x y z B1 B2. unfold R in *. congruence. }
  assert (R_err : forall e, keeps R (set_err e)).
  { intros e a u a' Ea. inversion Ea. subst. reflexivity. }
  split; open_calls; repeat keep_step.
Qed.

(** X16. A call that only reads ([Bytes], [Error], [BufferLength],
    [IsModified], the typed, string and raw [Get] calls, the two
    [GetOffsetArray] calls, and [DecompressInto] and [CompressInto]
    with a nil target), whatever its other arguments and whatever the
    state of the buffer, leaves the content and the modified flag as
    they were whenever it returns: it can change nothing but the error
    state. *)
Theorem reads_keep_content (c : op) (b b' : Buffer) (v : value) :
  reads c = true -> run c b = Ok (v, b') ->
  buf b' = buf b /\ dirty b' = dirty b.
Proof.
  intros Hc E. exact (reading_keeps c Hc _ _ _ E).
Qed.

(** X17. No call but [Save] and [ClearModified] lowers the modified
    flag: once it is up it stays up through every other call that
    returns. *)
Theorem modified_flag_stays_up (c : op) (b b' : Buffer) (v : value) :
  lowers_flag c = false -> run c b = Ok (v, b') ->
  dirty b = true -> dirty b' = true.
Proof.
  intros Hc E.
  set (R := fun a a' : Buffer => dirty a = true -> dirty a' = true).
  assert (R_refl : forall a, R a a) by (intros a D; exact D).
  assert (R_trans : forall x y z, R x y -> R y z -> R x z).
  { intros x y z F G D. apply G, F, D. }
  assert (R_err : forall e, keeps R (set_err e)).
  { intros e a u a' Ea. inversion Ea. subst. intros D. exact D. }
  assert (R_buf : forall s, keeps R (set_buf s)).
  { intros s a u a' Ea. inversion Ea. subst. intros D. exact D. }
  assert (R_dirty : keeps R (set_dirty true)).
  { intros a u a' Ea. inversion Ea. subst. intros _. reflexivity. }
  assert (K : keeps R (run c)).
  { destruct c; try discriminate Hc; open_calls; repeat keep_step. }
  exact (K _ _ _ E).
Qed.

(** X18. A call other than [ReplaceBuffer], [InsertBytes],
    [DeleteBytes], [DecompressReplace] and [CompressReplace], whatever
    its arguments and whatever the state of the buffer, leaves the
    length of the content as it was whenever it returns. *)
Theorem length_changes_only_by_resizing (c : op) (b b' : Buffer)
  (v : value) :
  resizes c = false -> run c b = Ok (v, b') ->
  len (buf b') = len (buf b).
Proof.
  intros Hc E.
  destruct (reads c) eqn:Rd.
  { now rewrite (proj1 (reading_keeps c Rd _ _ _ E)). }
  destruct c; try discriminate Hc; try discriminate Rd;
    try (exact (proj1 (into_keeps_length _ _ 0 _) _ _ _ E));
    try (exact (proj2 (into_keeps_length _ _ _ _) _ _ _ E));
    unfold run, Save, ClearError, ClearModified,
      PutString, PutStringEx, PutBuffer, PutInt8, PutInt16, PutInt32,
      PutUint8, PutUint16, PutUint32, ietools.Utf8ToAnsi in E;
    opened E; repeat crack; length_kept.
Qed.

End Invariants.

Section InvariantRuns.
Existing Instance doubles.plain_charmaps.
Existing Instance doubles.stored_codec.
Existing Instance doubles.memory_sink.

Lemma reads_keep_content_witness :
  let b := mkBuffer [x01; x02; x03] true None in
  let b' := mkBuffer [x01; x02; x03] true (Some ErrOffsetOutOfRange) in
  run (op_GetUint32 1) b = Ok (VInt 0, b')
  /\ buf b' = buf b /\ dirty b' = dirty b.
Proof.
  intros b b'. split; [reflexivity |].
  apply (reads_keep_content (op_GetUint32 1) b b' (VInt 0)).
  - reflexivity.
  - reflexivity.
Defined.

Lemma modified_flag_stays_up_witness :
  let b := mkBuffer [x01; x02; x03] true None in
  let b' := mkBuffer [x01; x02; x03] true None in
  run (op_PutUint8 1 2) b = Ok (VInt 2, b') /\ dirty b' = true.
Proof.
  intros b b'. split; [reflexivity |].
  apply (modified_flag_stays_up (op_PutUint8 1 2) b b' (VInt 2)).
  - reflexivity.
  - reflexivity.
  - reflexivity.
Defined.

Lemma length_changes_only_by_resizing_witness :
  let b := mkBuffer [x41; x42; x43] false None in
  let b' := mkBuffer [x41; x58; x00] true None in
  run (op_PutString 1 2 [x58]) b = Ok (VUnit, b')
  /\ len (buf b') = len (buf b).
Proof.
  intros b b'. split; [reflexivity |].
  apply (length_changes_only_by_resizing (op_PutString 1 2 [x58]) b b'
           VUnit).
  - reflexivity.
  - reflexivity.
Defined.

End InvariantRuns.

End buffers_more.

(* ================================================================== *)
(** * The compression level

    The statement numbered C10: what [CompressInto] and
    [CompressReplace] do with a level outside [-2 .. 9]. *)

Module buffers_levels.
Import buffers buffers_calls buffers_spec buffers_more.

Section Facts.
Context `{Charmaps} `{StreamCodec} `{Sink}.





End Facts.

Section Runs.
Existing Instance doubles.plain_charmaps.
Existing Instance doubles.stored_codec.
Existing Instance doubles.memory_sink.


End Runs.
End buffers_levels.

(* ================================================================== *)
(** * Further properties of package pvrz

    The statements numbered X19 to X24 are read off the code of the
    package: what a successful import guarantees, what the setters and
    [SetDimension] store, the bytes of an exported header, the images
    [Save] refuses, and what [Load] makes of what [Save] wrote. *)

Module pvrz_more.
Import buffers_views buffers_more.
Import pvrz pvrz_calls pvrz_views pvrz_spec.

(** ** Words of a header *)

Lemma len_words (ws : list Z) : len (words ws) = 4 * Z.of_nat (length ws).
Proof.
  induction ws as [| w ws IH]; [reflexivity |].
  unfold words in *. cbn [flat_map]. rewrite len_app, IH.
  unfold len. cbn [length le32]. lia.
Qed.

Lemma words_app (a b : list Z) : words (a ++ b) = words a ++ words b.
Proof. apply flat_map_app. Qed.

Lemma nth_split (ws : list Z) (k : nat) :
  (k < length ws)%nat ->
  ws = firstn k ws ++ nth k ws 0 :: skipn (S k) ws.
Proof.
  revert ws. induction k as [| k IH]; intros [| w ws] Hk;
    cbn [length] in Hk; try lia.
  - reflexivity.
  - cbn [firstn nth skipn app]. f_equal. apply IH. lia.
Qed.

Lemma to_uint32_to_int32 (x : Z) : to_uint32 (to_int32 x) = to_uint32 x.
Proof. modular. Qed.

Lemma to_int32_small (x : Z) : - 2 ^ 31 <= x < 2 ^ 31 -> to_int32 x = x.
Proof. intros Hx. modular. Qed.

Lemma to_int32_to_uint32 (x : Z) : to_int32 (to_uint32 x) = to_int32 x.
Proof. modular. Qed.

Lemma PutInt32_word (ws : list Z) (k : nat) (o v : Z) (post : list byte)
  (d : bool) :
  o = 4 * Z.of_nat k -> (k < length ws)%nat ->
  len (words ws ++ post) <= max_int ->
  exists old d',
    buffers.PutInt32 o v (buffers.mkBuffer (words ws ++ post) d None)
    = Ok (old, buffers.mkBuffer
                 (words (firstn k ws ++ to_uint32 v :: skipn (S k) ws)
                    ++ post) d' None).
Proof.
  intros -> Hk Hm.
  set (w := nth k ws 0).
  assert (E : forall u,
            words (firstn k ws ++ u :: skipn (S k) ws) ++ post
            = words (firstn k ws)
                ++ byte_of_Z u :: byte_of_Z (Z.shiftr u 8)
                :: byte_of_Z (Z.shiftr u 16)
                :: byte_of_Z (Z.shiftr u 24)
                :: (words (skipn (S k) ws) ++ post)).
  { intros u. rewrite !words_app. cbn [words flat_map].
    rewrite <- !app_assoc. reflexivity. }
  assert (E0 : words ws ++ post
               = words (firstn k ws ++ w :: skipn (S k) ws) ++ post).
  { unfold w. now rewrite <- (nth_split ws k Hk). }
  assert (La : len (words (firstn k ws)) = 4 * Z.of_nat k).
  { rewrite len_words, length_firstn. lia. }
  rewrite E0, E in Hm |- *. rewrite E. rewrite <- La.
  unfold buffers.PutInt32, bind, ret.
  rewrite PutUint32_at by exact Hm.
  do 2 eexists. reflexivity.
Qed.

Lemma GetInt32_word (ws : list Z) (k : nat) (o : Z) (post : list byte)
  (d : bool) :
  o = 4 * Z.of_nat k -> (k < length ws)%nat ->
  Forall (fun w => 0 <= w < 2 ^ 32) ws ->
  len (words ws ++ post) <= max_int ->
  buffers.GetInt32 o (buffers.mkBuffer (words ws ++ post) d None)
  = Ok (to_int32 (nth k ws 0),
        buffers.mkBuffer (words ws ++ post) d None).
Proof.
  intros -> Hk F Hm.
  assert (Hw : 0 <= nth k ws 0 < 2 ^ 32).
  { rewrite Forall_forall in F. apply F. apply nth_In. exact Hk. }
  set (w := nth k ws 0) in *.
  assert (E : words ws ++ post
              = words (firstn k ws)
                  ++ byte_of_Z w :: byte_of_Z (Z.shiftr w 8)
                  :: byte_of_Z (Z.shiftr w 16)
                  :: byte_of_Z (Z.shiftr w 24)
                  :: (words (skipn (S k) ws) ++ post)).
  { rewrite (nth_split ws k Hk) at 1. fold w.
    rewrite !words_app. cbn [words flat_map].
    rewrite <- !app_assoc. reflexivity. }
  assert (La : len (words (firstn k ws)) = 4 * Z.of_nat k).
  { rewrite len_words, length_firstn. lia. }
  rewrite E in Hm |- *. rewrite <- La.
  unfold buffers.GetInt32, bind, ret.
  rewrite GetUint32_at by exact Hm.
  now rewrite le32_value.
Qed.

Lemma PutBuffer_at (pre mid post src : list byte) (d : bool) :
  len src = len mid -> len (pre ++ mid ++ post) <= max_int ->
  exists d',
    buffers.PutBuffer (len pre) src (buffers.mkBuffer (pre ++ mid ++ post) d None)
    = Ok (tt, buffers.mkBuffer (pre ++ src ++ post) d' None).
Proof.
  intros L Hm. rewrite !len_app in Hm.
  assert (H1 := len_nonneg pre). assert (H2 := len_nonneg mid).
  assert (H3 := len_nonneg post).
  destruct (equal_scan_decides src (pre ++ mid ++ post) (len pre) 0)
    as [eq [Eeq Heq]]; [lia | rewrite !len_app; lia | rewrite !len_app; lia |].
  unfold buffers.PutBuffer, bind, get, ret, lift, buffers.set_buf,
    buffers.set_dirty, buffers.out_of_range.
  cbn [buffers.buf buffers.err buffers.dirty is_set].
  unfold int_add. rewrite wrap64_small by (unfold min_int, max_int in *; lia).
  rewrite !len_app. tests. rewrite Eeq. cbv beta iota.
  destruct eq.
  - assert (E : mid = src).
    { destruct Heq as [Heq _]. specialize (Heq eq_refl).
      rewrite Z.add_0_r in Heq. unfold len in Heq, L.
      rewrite Nat2Z.id, skipn_app, skipn_all, Nat.sub_diag in Heq.
      cbn [app skipn] in Heq. rewrite firstn_app in Heq.
      replace (length src - length mid)%nat with 0%nat in Heq by lia.
      cbn [firstn] in Heq. rewrite app_nil_r in Heq.
      rewrite <- Heq. symmetry. apply firstn_all2. lia. }
    subst mid. eexists. reflexivity.
  - rewrite L. rewrite copy_into_app by exact L. cbv beta iota.
    eexists. reflexivity.
Qed.

Lemma header_words_range (i : pvrInfo) :
  Forall (fun w => 0 <= w < 2 ^ 32) (header_words i).
Proof.
  unfold header_words. apply Forall_map, Forall_forall. intros x _.
  unfold to_uint32. apply Z.mod_pos_bound. reflexivity.
Qed.

Lemma round4_aligned (x : Z) :
  1 <= x <= max_int -> Z.land x 3 = 0 ->
  Z.land (int_add x 3) (Z.lnot 3) = x.
Proof.
  intros Hx A.
  change 3 with (Z.ones 2) in A. rewrite Z.land_ones in A by lia.
  change (2 ^ 2) with 4 in A.
  assert (Hs : x + 3 <= max_int).
  { unfold max_int in *. change (2 ^ 63 - 1) with (4 * 2305843009213693951 + 3) in *.
    pose proof (Z.div_mod x 4 ltac:(lia)) as D. lia. }
  unfold int_add. rewrite wrap64_small by (unfold min_int, max_int in *; lia).
  change (Z.lnot 3) with (Z.lnot (Z.ones 2)).
  rewrite <- Z.ldiff_land, Z.ldiff_ones_r by lia.
  rewrite Z.shiftr_div_pow2, Z.shiftl_mul_pow2 by lia.
  change (2 ^ 2) with 4.
  pose proof (Z.div_mod x 4 ltac:(lia)) as D.
  pose proof (Z.div_mod (x + 3) 4 ltac:(lia)) as D3.
  pose proof (Z.mod_pos_bound (x + 3) 4 ltac:(lia)) as B3.
  assert (Q : (x + 3) / 4 = x / 4).
  { replace (x + 3) with (3 + x / 4 * 4) by lia.
    rewrite Z.div_add by lia. reflexivity. }
  rewrite Q. lia.
Qed.

Section Facts.
Context `{Charmaps} `{StreamCodec} `{Sink} `{Squish}.

(** ** A successful import *)

Lemma decodeTexture_some (data : option (list byte)) (w h pt : Z)
  (im : Image) :
  decodeTexture data w h pt = Some im ->
  0 < w /\ 0 < h /\ pixelTypeSupported pt = true.
Proof.
  unfold decodeTexture, pixelTypeSupported.
  destruct data as [d |]; [| discriminate].
  destruct (Z.leb_spec w 0); [discriminate |].
  destruct (Z.leb_spec h 0); [discriminate |]. cbn [orb].
  destruct (pt =? TYPE_BC1); [intros _; repeat split; assumption |].
  destruct (pt =? TYPE_BC2); [intros _; repeat split; assumption |].
  destruct (pt =? TYPE_BC3); [intros _; repeat split; assumption |].
  discriminate.
Qed.

Ltac bounds :=
  repeat match goal with
  | E : decodeTexture _ _ _ _ = Some _ |- _ =>
      apply decodeTexture_some in E; destruct E as [? [? ?]]
  | E : negb _ = false |- _ => apply negb_false_iff in E
  | E : _ || _ = false |- _ => apply orb_false_iff in E; destruct E
  | E : (_ <? _) = false |- _ => apply Z.ltb_ge in E
  | E : (_ =? _) = true |- _ => apply Z.eqb_eq in E
  end.

Lemma parsePvr_success (sig : Z) (b : buffers.Buffer) (p p' : Pvr)
  (a : unit) :
  parsePvr sig b p = Ok (a, p') -> err p' = None ->
  accepted (info p') /\ sig = versionSig.
Proof.
  unfold parsePvr, call, fail, bind, lift, ret, set_err, set_info, set_img.
  intros E D.
  repeat crack; cbn [err info img quality weightByAlpha useMetric] in *;
    try discriminate D;
    bounds; unfold accepted;
    cbn [pixelType colorSpace channelType height width depth numSurfaces
         numFaces numMipMaps];
    unfold SPACE_LRGB, SPACE_SRGB, CHAN_UBN, CHAN_SB in *;
    repeat split; try assumption; try lia.
Qed.

Lemma importPvr_success
  (data : option (list byte)) (p p' : Pvr) (a : unit) :
  importPvr data p = Ok (a, p') -> err p' = None -> accepted (info p').
Proof.
  unfold importPvr. intros E D.
  destruct data as [d |].
  - unfold call, fail, bind, lift, ret, set_err in E.
    destruct (buffers.Error (buffers.Wrap (Some d))) as [[e b] |] eqn:Eb;
      [| discriminate E].
    destruct (is_set e) eqn:Ie.
    { inversion E; subst. cbn [err] in D. subst e. discriminate Ie. }
    destruct (buffers.BufferLength b) as [[n b1] |]; [| discriminate E].
    destruct (n <? 4).
    { inversion E; subst. discriminate D. }
    destruct (buffers.GetInt32 0 b1) as [[sig b2] |]; [| discriminate E].
    destruct (negb (sig =? versionSig)).
    + destruct (unwrapPvrz sig b2 p) as [[r p1] |] eqn:U; [| discriminate E].
      destruct r as [[sig' b3] |].
      * eapply parsePvr_success; eassumption.
      * exfalso. inversion E; subst. clear E.
        unfold unwrapPvrz, call, fail, bind, lift, ret, set_err in U.
        repeat crack; cbn [err] in *; try discriminate D.
        subst. discriminate.
    + eapply parsePvr_success; eassumption.
  - unfold fail, bind, ret, set_err in E. inversion E; subst. discriminate D.
Qed.

(** X19. Whatever the input and whatever the container held before,
    when [importPvr] returns and leaves the error state clear, the
    header of the container is one [importPvr] accepts: a supported
    pixel type, a colour space and a channel type of their
    enumerations, a height and a width in [1 .. 4096] that are
    multiples of 4, and depth, surfaces, faces and mip maps all 1.  The
    same holds of the container [Load] returns with a clear error
    state. *)
Theorem import_success_gives_accepted_header :
  (forall (data : option (list byte)) (p p' : Pvr) (a : unit),
     importPvr data p = Ok (a, p') -> err p' = None -> accepted (info p'))
  /\ (forall (read_all : list byte * option error) (p' : Pvr),
        Load read_all = Ok p' -> err p' = None -> accepted (info p')).
Proof.
  split; [exact importPvr_success |].
  intros read_all p'. unfold Load. intros E D.
  destruct (is_set (snd read_all)) eqn:Ie.
  - unfold set_err in E. cbn [obind snd] in E. inversion E; subst.
    cbn [err] in D. rewrite D in Ie. discriminate Ie.
  - destruct (importPvr (Some (fst read_all)) (CreateNew 0 0 TYPE_BC1))
      as [[a q] |] eqn:I; [| discriminate E].
    cbn [obind snd] in E. inversion E; subst.
    eapply importPvr_success; eassumption.
Qed.

(** ** Setters and getters *)

(** X20. On an error-free container every setter called with a value
    of its domain stores it: [SetPixelType] with a supported type,
    [SetChannelType] with a channel type of the enumeration,
    [SetColorSpace] with one of the two colour spaces,
    [SetWeightByAlpha] and [SetPerceptiveMetric] with any boolean
    return with the error state clear and the matching getter then
    returns the value; [SetQuality] accepts any value and [GetQuality]
    then returns it clamped to [QUALITY_LOW .. QUALITY_HIGH].  None of
    them touches the image, the metadata or the dimension. *)
Theorem setters_then_getters (p : Pvr) :
  err p = None ->
  (forall v, pixelTypeSupported v = true ->
     sets_then_gets (SetPixelType v) GetPixelType v p)
  /\ (forall v, CHAN_UBN <= v <= CHAN_SB ->
        sets_then_gets (SetChannelType v) GetChannelType v p)
  /\ (forall v, v = SPACE_LRGB \/ v = SPACE_SRGB ->
        sets_then_gets (SetColorSpace v) GetColorSpace v p)
  /\ (forall q,
        sets_then_gets (SetQuality q) GetQuality
          (Z.max QUALITY_LOW (Z.min QUALITY_HIGH q)) p)
  /\ (forall x, sets_then_gets (SetWeightByAlpha x) GetWeightByAlpha x p)
  /\ (forall x,
        sets_then_gets (SetPerceptiveMetric x) IsPerceptiveMetric x p).
Proof.
  destruct p as [i im e q wa um]. cbn [err]. intros ->.
  unfold sets_then_gets.
  split; [| split; [| split; [| split; [| split]]]].
  - intros v Hv.
    unfold SetPixelType, GetPixelType, bind, get, ret, set_info.
    cbn [err info is_set]. rewrite Hv. cbn [negb].
    eexists. repeat split.
  - intros v Hv.
    unfold SetChannelType, GetChannelType, bind, get, ret, set_info.
    cbn [err info is_set].
    unfold CHAN_UBN, CHAN_SB in *. tests.
    eexists. repeat split.
  - intros v Hv.
    unfold SetColorSpace, GetColorSpace, bind, get, ret, set_info.
    cbn [err info is_set].
    assert (T : negb (v =? SPACE_LRGB) && negb (v =? SPACE_SRGB) = false)
      by (destruct Hv; subst; reflexivity).
    rewrite T. eexists. repeat split.
  - intros q'.
    unfold SetQuality, GetQuality, bind, get, ret, set_quality.
    cbn [err info is_set quality].
    assert (Q : (if QUALITY_HIGH <? (if q' <? QUALITY_LOW then QUALITY_LOW
                                     else q')
                 then QUALITY_HIGH
                 else if q' <? QUALITY_LOW then QUALITY_LOW else q')
                = Z.max QUALITY_LOW (Z.min QUALITY_HIGH q')).
    { unfold QUALITY_LOW, QUALITY_HIGH.
      destruct (Z.ltb_spec q' 0); destruct (Z.ltb_spec 2 q');
        try destruct (Z.ltb_spec 2 0); lia. }
    rewrite Q. eexists. repeat split.
  - intros x.
    unfold SetWeightByAlpha, GetWeightByAlpha, bind, get, ret,
      set_weightByAlpha.
    cbn [err is_set]. eexists. repeat split.
  - intros x.
    unfold SetPerceptiveMetric, IsPerceptiveMetric, bind, get, ret,
      set_useMetric.
    cbn [err is_set]. eexists. repeat split.
Qed.

(** X21. On an error-free container, with an image library in which
    a new canvas has the bounds it was asked for and drawing keeps the
    bounds of the target, [SetDimension(w, h, preserve)] with [w] and
    [h] at least 1 returns with the error state clear and the metadata
    untouched, and [GetWidth] and [GetHeight] then return [w] and [h].
    With [w < 1] or [h < 1] it sets [ErrIllegalArguments] and changes
    nothing else, unless the call asks for the present dimension with
    [preserve] set, which is accepted as a no-op before the test. *)
Theorem SetDimension_then_GetWidth (p : Pvr) (w h : Z) (preserve : bool) :
  err p = None ->
  Bounds (NewRGBA (Rect 0 0 w h)) = Rect 0 0 w h ->
  (forall dst r src sp, Bounds (Draw dst r src sp) = Bounds dst) ->
  (1 <= w <= max_int -> 1 <= h <= max_int ->
   exists p',
     SetDimension w h preserve p = Ok (tt, p')
     /\ GetWidth p' = Ok (w, p') /\ GetHeight p' = Ok (h, p')
     /\ err p' = None /\ meta (info p') = meta (info p))
  /\ (w < 1 \/ h < 1 ->
      w <> width (info p) \/ h <> height (info p) \/ preserve = false ->
      SetDimension w h preserve p
      = Ok (tt, with_err p (Some PvrzErrIllegalArguments))).
Proof.
  destruct p as [i im e q wa um]. cbn [err]. intros -> BN BD.
  unfold SetDimension, GetWidth, GetHeight, bind, get, ret, fail, set_err,
    set_info, set_img, with_err.
  cbn [err info img is_set quality weightByAlpha useMetric].
  split.
  - intros Hw Hh.
    destruct ((w =? width i) && (h =? height i) && preserve) eqn:Same.
    + apply andb_true_iff in Same. destruct Same as [Same _].
      apply andb_true_iff in Same. destruct Same as [Ew Eh].
      apply Z.eqb_eq in Ew. apply Z.eqb_eq in Eh. subst w h.
      eexists. repeat split.
    + tests. unfold resizeCanvas.
      destruct preserve; cbv beta iota;
        cbn [err info img is_set width height meta with_dimension];
        rewrite ?BD, ?BN;
        (assert (Dw : Dx (Rect 0 0 w h) = w);
         [unfold Dx, Rect, int_sub; test_false (w <? 0); test_false (h <? 0);
          cbn [Min Max X Y];
          rewrite Z.sub_0_r;
          apply wrap64_small; unfold min_int, max_int in *; lia |]);
        (assert (Dh : Dy (Rect 0 0 w h) = h);
         [unfold Dy, Rect, int_sub; test_false (w <? 0); test_false (h <? 0);
          cbn [Min Max X Y];
          rewrite Z.sub_0_r;
          apply wrap64_small; unfold min_int, max_int in *; lia |]);
        rewrite Dw, Dh; eexists; repeat split.
  - intros Hbad Hdiff.
    assert (Same : (w =? width i) && (h =? height i) && preserve = false).
    { destruct Hdiff as [D | [D | D]].
      - apply Z.eqb_neq in D. now rewrite D.
      - apply Z.eqb_neq in D. rewrite D. now rewrite andb_false_r.
      - subst. apply andb_false_r. }
    rewrite Same.
    destruct (Z.ltb_spec w 1); [reflexivity |].
    destruct (Z.ltb_spec h 1); [reflexivity | lia].
Qed.

(** ** The exported header *)

(** One step of the header writer. *)
Ltac put_word k :=
  unfold bind at 1;
  match goal with
  | |- context [buffers.PutInt32 ?o ?v
                  (buffers.mkBuffer (words ?ws ++ ?post) ?d None)] =>
      let old := fresh "old" in
      let d' := fresh "d" in
      let E := fresh "E" in
      destruct (PutInt32_word ws k o v post d) as [old [d' E]];
      [reflexivity | cbn [length]; lia
      | rewrite len_app, len_words; cbn [length];
        unfold max_int; lia
      | rewrite E; clear E; cbv beta iota;
        cbn [firstn skipn app] ]
  end.

Lemma prepareHeader_layout (p : Pvr) :
  len (meta (info p)) + 308 <= max_int ->
  prepareHeader p
  = Ok (words (header_words (info p)) ++ meta (info p) ++ repeat x00 256).
Proof.
  intros Hm. set (i := info p) in *.
  assert (Hl := len_nonneg (meta i)).
  unfold prepareHeader. fold i. cbv zeta.
  assert (E0 : buffers.InsertBytes 0 52 buffers.Create
               = Ok (tt, buffers.mkBuffer
                           (words [0; 0; 0; 0; 0; 0; 0; 0; 0; 0; 0; 0; 0]
                              ++ repeat x00 256)
                           true None))
    by (vm_compute; reflexivity).
  unfold bind at 1. rewrite E0. cbv beta iota.
  remember (repeat x00 256) as zeros eqn:Ez.
  assert (Lz : len zeros = 256) by (subst zeros; apply len_repeat).
  put_word 0%nat. put_word 1%nat. put_word 2%nat. put_word 3%nat.
  put_word 4%nat. put_word 5%nat. put_word 6%nat. put_word 7%nat.
  put_word 8%nat. put_word 9%nat. put_word 10%nat. put_word 11%nat.
  put_word 12%nat.
  rewrite !to_uint32_to_int32.
  change [to_uint32 versionSig; to_uint32 (flags i); to_uint32 (pixelType i);
          to_uint32 0; to_uint32 (colorSpace i); to_uint32 (channelType i);
          to_uint32 (height i); to_uint32 (width i); to_uint32 (depth i);
          to_uint32 (numSurfaces i); to_uint32 (numFaces i);
          to_uint32 (numMipMaps i); to_uint32 (len (meta i))]
    with (header_words i).
  set (W := words (header_words i)).
  assert (LW : len W = 52) by (unfold W; rewrite len_words; reflexivity).
  unfold bind at 1.
  destruct (Z.ltb_spec 0 (len (meta i))) as [Hpos | Hzero].
  - unfold bind at 1.
    rewrite buffers_spec.InsertBytes_grows;
      cbn [buffers.buf buffers.err]; trivial;
      try (rewrite len_app, LW, Lz; lia).
    rewrite inserted_parts
      by (rewrite length_app; unfold len in LW, Lz; lia).
    cbv beta iota.
    assert (Hd : firstn (Z.to_nat 52) (W ++ zeros) = W).
    { rewrite <- LW. unfold len. rewrite Nat2Z.id.
      rewrite firstn_app, Nat.sub_diag, firstn_all. cbn [firstn].
      apply app_nil_r. }
    assert (Tl : skipn (Z.to_nat 52) (W ++ zeros) = zeros).
    { rewrite <- LW. unfold len. rewrite Nat2Z.id.
      now rewrite skipn_app, skipn_all, Nat.sub_diag. }
    rewrite Hd, Tl.
    set (gap := firstn (Z.to_nat (len (meta i)))
                  (zeros ++ repeat x00 (Z.to_nat (len (meta i))))).
    assert (Lg : len gap = len (meta i)).
    { unfold gap, len in *. rewrite length_firstn, length_app, repeat_length.
      lia. }
    destruct (PutBuffer_at W gap zeros (meta i) true)
      as [d' E]; [now symmetry | |].
    { rewrite !len_app, LW, Lg, Lz. lia. }
    rewrite LW in E. rewrite E. cbv beta iota.
    unfold buffers.Bytes, bind, get, ret. cbn [buffers.err is_set obind fst].
    reflexivity.
  - assert (Em : meta i = []).
    { destruct (meta i); [reflexivity |]. unfold len in Hzero.
      cbn [length] in Hzero. lia. }
    rewrite Em. unfold ret at 1. cbv beta iota.
    unfold buffers.Bytes, bind, get, ret. cbn [buffers.err is_set obind fst].
    reflexivity.
Qed.

(** X22. The header [prepareHeader] returns is 256 bytes longer than
    the PVR layout: it is the thirteen 32-bit words of the fixed part
    (signature, flags, pixel type, 0, colour space, channel type,
    height, width, depth, surfaces, faces, mip maps, metadata size),
    each low byte first, then the metadata, then the 256 zero bytes of
    the buffer [buffers.Create] returned. *)
Theorem prepareHeader_ends_in_256_zero_bytes (p : Pvr) :
  len (meta (info p)) + 308 <= max_int ->
  exists hdr,
    prepareHeader p = Ok hdr
    /\ hdr = words (header_words (info p)) ++ meta (info p)
               ++ repeat x00 256
    /\ len hdr = 0x34 + len (meta (info p)) + 256.
Proof.
  intros Hm. eexists. split; [now apply prepareHeader_layout |].
  split; [reflexivity |].
  rewrite !len_app, len_words, len_repeat. cbn [length header_words map].
  lia.
Qed.

(** ** Images [Save] refuses *)

Lemma Dx_range (r : Rectangle) : min_int <= Dx r <= max_int.
Proof.
  unfold Dx, int_sub, wrap64, min_int, max_int.
  pose proof (Z.mod_pos_bound (X (Max r) - X (Min r) + 2 ^ 63) (2 ^ 64)
                ltac:(lia)). lia.
Qed.

Lemma Dy_range (r : Rectangle) : min_int <= Dy r <= max_int.
Proof.
  unfold Dy, int_sub, wrap64, min_int, max_int.
  pose proof (Z.mod_pos_bound (Y (Max r) - Y (Min r) + 2 ^ 63) (2 ^ 64)
                ltac:(lia)). lia.
Qed.

Lemma encodeTexture_cases (im : Image) (pt q : Z) (wa um : bool) :
  (~ aligned im \/ pixelTypeSupported pt = false ->
   encodeTexture im pt q wa um = None)
  /\ (aligned im -> pixelTypeSupported pt = true ->
      exists flags,
        encodeTexture im pt q wa um
        = CompressImage
            (Draw (NewNRGBA (Bounds im)) (Bounds (NewNRGBA (Bounds im))) im
               (Min (Bounds im)))
            flags (if um then METRIC_PERCEPTUAL else METRIC_UNIFORM)).
Proof.
  unfold aligned, encodeTexture, pixelTypeSupported.
  set (w := Dx (Bounds im)). set (h := Dy (Bounds im)).
  assert (Rw := Dx_range (Bounds im)). fold w in Rw.
  assert (Rh := Dy_range (Bounds im)). fold h in Rh.
  split.
  - intros [N | U].
    + destruct (Z.ltb_spec w 1); [reflexivity |].
      destruct (Z.eqb_spec (Z.land w 3) 0); [| reflexivity].
      destruct (Z.ltb_spec h 1); [reflexivity |].
      destruct (Z.eqb_spec (Z.land h 3) 0); [| reflexivity].
      exfalso. apply N. repeat split; assumption.
    + destruct ((w <? 1) || negb (Z.land w 3 =? 0) || (h <? 1)
                || negb (Z.land h 3 =? 0)); [reflexivity |].
      destruct (pt =? TYPE_BC1); [discriminate U |].
      destruct (pt =? TYPE_BC2); [discriminate U |].
      destruct (pt =? TYPE_BC3); [discriminate U |]. reflexivity.
  - intros [Hw [Aw [Hh Ah]]] S.
    test_false (w <? 1). test_false (h <? 1). rewrite Aw, Ah.
    cbn [Z.eqb negb orb]. cbv beta iota zeta.
    rewrite (round4_aligned w), (round4_aligned h) by (assumption || lia).
    rewrite !Z.eqb_refl. cbn [negb orb].
    destruct (pt =? TYPE_BC1); [eexists; reflexivity |].
    destruct (pt =? TYPE_BC2); [eexists; reflexivity |].
    destruct (pt =? TYPE_BC3); [eexists; reflexivity |]. discriminate S.
Qed.

(** X23. [encodeTexture] pads nothing: on an error-free container
    whose image has a width or a height that is not a positive multiple
    of 4, or whose pixel type is not supported, [Save] writes nothing to
    the sink, hands it back as it was and sets the error "Unable to
    encode texture data"; nothing else of the container changes. *)
Theorem Save_refuses_unaligned_image (p : Pvr) (w : Writer)
  (compress : bool) :
  err p = None -> len (meta (info p)) + 308 <= max_int ->
  ~ aligned (img p) \/ pixelTypeSupported (pixelType (info p)) = false ->
  Save w compress p
  = Ok (w, with_err p (Some (Errorf "Unable to encode texture data" []))).
Proof.
  intros He Hm Hbad.
  unfold Save, exportPvr, bind, get, ret, lift, fail, set_err.
  rewrite He. cbn [is_set].
  rewrite prepareHeader_layout by exact Hm.
  rewrite (proj1 (encodeTexture_cases _ _ _ _ _) Hbad).
  cbn [err is_set]. reflexivity.
Qed.

(** ** Save followed by Load *)

Lemma accepted_pixelType (i : pvrInfo) :
  accepted i ->
  pixelType i = TYPE_BC1 \/ pixelType i = TYPE_BC2 \/ pixelType i = TYPE_BC3.
Proof.
  intros [P _]. unfold pixelTypeSupported in P.
  destruct (Z.eqb_spec (pixelType i) TYPE_BC1); [now left |].
  destruct (Z.eqb_spec (pixelType i) TYPE_BC2); [now right; left |].
  destruct (Z.eqb_spec (pixelType i) TYPE_BC3); [now right; right |].
  discriminate P.
Qed.

Lemma decodeTexture_accepted (i : pvrInfo) (data : list byte) :
  accepted i ->
  exists im,
    decodeTexture (Some data) (width i) (height i) (pixelType i) = Some im.
Proof.
  intros A. pose proof (accepted_pixelType i A) as T.
  destruct A as [_ [_ [_ [Hh [_ [Hw _]]]]]].
  unfold decodeTexture. test_false (width i <=? 0).
  test_false (height i <=? 0). cbn [orb].
  destruct T as [-> | [-> | ->]]; unfold TYPE_BC1, TYPE_BC2, TYPE_BC3;
    cbn [Z.eqb Pos.eqb]; cbv beta iota;
    match goal with
    | |- context [is_draw_Image ?x] => destruct (is_draw_Image x)
    end; eauto.
Qed.

(** One read of the header parser. *)
Ltac get_word k :=
  match goal with
  | |- context [buffers.GetInt32 ?o
                  (buffers.mkBuffer (words ?ws ++ ?post) ?d None)] =>
      rewrite (GetInt32_word ws k o post d);
      [ cbv beta iota;
        match goal with
        | |- context [nth ?n (header_words ?j) 0] =>
            let v := eval cbn [nth header_words map]
                     in (nth n (header_words j) 0) in
            change (nth n (header_words j) 0) with v
        end;
        rewrite to_int32_to_uint32
      | reflexivity | cbn [length header_words map]; lia
      | apply header_words_range | assumption ]
  end.

Lemma importPvr_of_exported (i : pvrInfo) (tex : list byte) (p0 : Pvr)
  (im : Image) :
  accepted i -> - 2 ^ 31 <= flags i < 2 ^ 31 -> len (meta i) < 2 ^ 31 ->
  len tex <= 2 ^ 62 ->
  (let dxt := if pixelType i =? TYPE_BC1 then FLAGS_DXT1
              else if pixelType i =? TYPE_BC2 then FLAGS_DXT3
              else FLAGS_DXT5 in
   GetStorageRequirements (width i) (height i) dxt <= 256 + len tex) ->
  decodeTexture (Some (repeat x00 256 ++ tex)) (width i) (height i)
    (pixelType i) = Some im ->
  importPvr
    (Some (words (header_words i) ++ meta i ++ repeat x00 256 ++ tex)) p0
  = Ok (tt, mkPvr i im (err p0) (quality p0) (weightByAlpha p0)
              (useMetric p0)).
Proof.
  intros A Hf Hml Htex Hreq Hdec.
  pose proof (accepted_pixelType i A) as PT.
  destruct A as [Ps [Hcs [Hct [Hh [Ah [Hw [Aw [Hd [Hs [Hfa Hmm]]]]]]]]]].
  unfold SPACE_LRGB, SPACE_SRGB, CHAN_UBN, CHAN_SB in *.
  assert (Hl := len_nonneg (meta i)). assert (Hlt := len_nonneg tex).
  remember (repeat x00 256) as zeros eqn:Ez.
  assert (Lz : len zeros = 256) by (subst zeros; apply len_repeat).
  remember (meta i ++ zeros ++ tex) as post eqn:Ep.
  assert (Lp : len post = len (meta i) + 256 + len tex)
    by (subst post; rewrite !len_app, Lz; lia).
  assert (LW : len (words (header_words i)) = 52)
    by (rewrite len_words; reflexivity).
  assert (Hm : len (words (header_words i) ++ post) <= max_int).
  { rewrite len_app, LW, Lp. unfold max_int.
    change (2 ^ 31) with 2147483648 in *.
    change (2 ^ 62) with 4611686018427387904 in *. lia. }
  assert (Ln : len (words (header_words i) ++ post)
               = 52 + len (meta i) + 256 + len tex)
    by (rewrite len_app, LW, Lp; lia).
  unfold importPvr, buffers.Wrap.
  unfold call, fail, bind, lift, ret, set_err.
  unfold buffers.Error, buffers.BufferLength, bind, get, ret.
  cbn [buffers.err buffers.buf is_set]. cbv beta iota.
  rewrite Ln. test_false (52 + len (meta i) + 256 + len tex <? 4).
  get_word 0%nat.
  change (to_int32 versionSig) with versionSig.
  rewrite Z.eqb_refl. cbn [negb].
  unfold parsePvr.
  unfold call, fail, bind, lift, ret, set_err, set_info, set_img.
  unfold buffers.Error, buffers.BufferLength, buffers.Bytes, bind, get, ret.
  cbn [buffers.err buffers.buf is_set]. cbv beta iota.
  rewrite Z.eqb_refl. cbn [negb].
  rewrite Ln. test_false (52 + len (meta i) + 256 + len tex <? 52).
  get_word 1%nat. rewrite (to_int32_small (flags i)) by exact Hf.
  get_word 3%nat. change (to_int32 0) with 0. cbn [Z.eqb Pos.eqb negb]. cbv beta iota.
  get_word 2%nat.
  rewrite (to_int32_small (pixelType i))
    by (destruct PT as [-> | [-> | ->]];
        unfold TYPE_BC1, TYPE_BC2, TYPE_BC3; lia).
  rewrite Ps. cbn [negb].
  get_word 4%nat. rewrite (to_int32_small (colorSpace i)) by lia.
  test_false (colorSpace i <? 0). test_false (1 <? colorSpace i).
  cbn [orb].
  get_word 5%nat. rewrite (to_int32_small (channelType i)) by lia.
  unfold CHAN_UBN, CHAN_SB.
  test_false (channelType i <? 0). test_false (3 <? channelType i).
  cbn [orb].
  get_word 6%nat. rewrite (to_int32_small (height i)) by lia.
  test_false (height i <? 0). test_false (4096 <? height i). cbn [orb].
  rewrite Ah. cbn [Z.eqb Pos.eqb negb]. cbv beta iota.
  get_word 7%nat. rewrite (to_int32_small (width i)) by lia.
  test_false (width i <? 0). test_false (4096 <? width i). cbn [orb].
  rewrite Aw. cbn [Z.eqb Pos.eqb negb]. cbv beta iota.
  get_word 8%nat. rewrite Hd. change (to_int32 1) with 1. cbn [Z.eqb Pos.eqb negb]. cbv beta iota.
  get_word 9%nat. rewrite Hs. change (to_int32 1) with 1. cbn [Z.eqb Pos.eqb negb]. cbv beta iota.
  get_word 10%nat. rewrite Hfa. change (to_int32 1) with 1.
  cbn [Z.eqb Pos.eqb negb]. cbv beta iota.
  get_word 11%nat. rewrite Hmm. change (to_int32 1) with 1.
  cbn [Z.eqb Pos.eqb negb]. cbv beta iota.
  get_word 12%nat. rewrite (to_int32_small (len (meta i))) by lia.
  test_false (len (meta i) <? 0).
  unfold int_add, int_sub.
  rewrite !wrap64_small by (unfold min_int, max_int in *; lia).
  cbn [buffers.err buffers.buf is_set]. rewrite !Ln.
  test_false (52 + len (meta i) + 256 + len tex <? 52 + len (meta i)).
  set (b := buffers.mkBuffer (words (header_words i) ++ post) false None).
  match goal with
  | |- match ?X with _ => _ end = _ =>
      assert (Meta : X = Ok ((meta i, b), p0))
  end.
  { destruct (Z.ltb_spec 0 (len (meta i))) as [Pos | Zero].
    - unfold b. rewrite <- LW. rewrite Ep in Hm |- *.
      rewrite GetBuffer_at; [reflexivity | exact Hm].
    - destruct (meta i); [reflexivity |].
      unfold len in Zero. cbn [length] in Zero. lia. }
  rewrite Meta. cbv beta iota.
  assert (Dxt : (if pixelType i =? TYPE_BC1 then FLAGS_DXT1
                 else if pixelType i =? TYPE_BC2 then FLAGS_DXT3
                 else if pixelType i =? TYPE_BC3 then FLAGS_DXT5 else 0)
                = (if pixelType i =? TYPE_BC1 then FLAGS_DXT1
                   else if pixelType i =? TYPE_BC2 then FLAGS_DXT3
                   else FLAGS_DXT5)).
  { destruct PT as [-> | [-> | ->]]; reflexivity. }
  rewrite Dxt. cbv zeta in Hreq.
  unfold b. cbn [buffers.err buffers.buf is_set]. rewrite !Ln.
  rewrite !wrap64_small by (unfold min_int, max_int in *; lia).
  match goal with
  | |- context [?a <? GetStorageRequirements ?w ?h ?f] =>
      test_false (a <? GetStorageRequirements w h f)
  end.
  assert (Sl : slice_from (words (header_words i) ++ post)
                 (52 + len (meta i))
               = Ok (zeros ++ tex)).
  { rewrite Ep. rewrite app_assoc.
    replace (52 + len (meta i))
      with (len (words (header_words i) ++ meta i))
      by (rewrite len_app, LW; lia).
    apply slice_from_app. }
  rewrite Sl. cbv beta iota. rewrite Hdec.
  clear - Hd Hs Hfa Hmm. destruct i.
  cbn [flags pixelType colorSpace channelType height width depth
       numSurfaces numFaces numMipMaps meta] in *.
  subst. reflexivity.
Qed.

(** X24. On an error-free container with an accepted header whose
    image [encodeTexture] encodes to [tex], [Save] without compression
    writes the header words, the metadata, 256 zero bytes and then
    [tex].  [Load] of these bytes succeeds whenever the texture size
    the codec asks for is at most [256 + len tex], and returns a
    container with the same header and with default encoding
    parameters; its image is decoded from the 256 zero bytes followed
    by [tex], not from [tex]. *)
Theorem Save_then_Load (p : Pvr) (w : Writer) (tex : list byte) :
  err p = None -> accepted (info p) ->
  - 2 ^ 31 <= flags (info p) < 2 ^ 31 -> len (meta (info p)) < 2 ^ 31 ->
  len tex <= 2 ^ 62 ->
  encodeTexture (img p) (pixelType (info p)) (quality p) (weightByAlpha p)
    (useMetric p) = Some tex ->
  (let dxt := if pixelType (info p) =? TYPE_BC1 then FLAGS_DXT1
              else if pixelType (info p) =? TYPE_BC2 then FLAGS_DXT3
              else FLAGS_DXT5 in
   GetStorageRequirements (width (info p)) (height (info p)) dxt
   <= 256 + len tex) ->
  let data := words (header_words (info p)) ++ meta (info p)
                ++ repeat x00 256 ++ tex in
  exists im,
    Save w false p = Ok (fst (sink_Write w data), p)
    /\ decodeTexture (Some (repeat x00 256 ++ tex)) (width (info p))
         (height (info p)) (pixelType (info p)) = Some im
    /\ Load (data, None)
       = Ok (mkPvr (info p) im None QUALITY_DEFAULT false false).
Proof.
  intros He A Hf Hml Htex Henc Hreq data.
  destruct (decodeTexture_accepted (info p) (repeat x00 256 ++ tex) A)
    as [im Hdec].
  assert (Hm : len (meta (info p)) + 308 <= max_int).
  { unfold max_int. change (2 ^ 31) with 2147483648 in Hml. lia. }
  exists im. split; [| split; [exact Hdec |]].
  - unfold Save, exportPvr, bind, get, ret, lift, call.
    rewrite He. cbn [is_set].
    rewrite prepareHeader_layout by exact Hm. rewrite Henc.
    rewrite He. cbn [is_set].
    unfold buffers.Wrap, buffers.Bytes, bind, get, ret.
    cbn [buffers.err buffers.buf is_set]. unfold data.
    rewrite <- !app_assoc. reflexivity.
  - unfold Load. cbn [snd fst is_set]. unfold data.
    rewrite (importPvr_of_exported (info p) tex (CreateNew 0 0 TYPE_BC1) im)
      by assumption.
    reflexivity.
Qed.

End Facts.

Section Runs.
Existing Instance doubles.plain_charmaps.
Existing Instance doubles.stored_codec.
Existing Instance doubles.memory_sink.
Existing Instance doubles.outline_imaging.
Existing Instance doubles.blank_squish.

Lemma import_success_gives_accepted_header_witness :
  let data := words (header_words (mkInfo 0 7 0 0 4 4 1 1 1 1 []))
                ++ repeat x00 8 in
  let p := CreateNew 8 8 TYPE_BC1 in
  let p' := mkPvr (mkInfo 0 7 0 0 4 4 1 1 1 1 []) (Rect 0 0 4 4) None
              QUALITY_DEFAULT false false in
  (importPvr (Some data) p = Ok (tt, p') /\ accepted (info p'))
  /\ (Load (data, None) = Ok p' /\ accepted (info p')).
Proof.
  intros data p p'. split.
  - split; [vm_compute; reflexivity |].
    apply (proj1 import_success_gives_accepted_header (Some data) p p' tt).
    + vm_compute. reflexivity.
    + reflexivity.
  - split; [vm_compute; reflexivity |].
    apply (proj2 import_success_gives_accepted_header (data, None) p').
    + vm_compute. reflexivity.
    + reflexivity.
Defined.

Lemma setters_then_getters_witness :
  let p := CreateNew 8 8 TYPE_BC1 in
  sets_then_gets (SetPixelType TYPE_BC3) GetPixelType TYPE_BC3 p
  /\ sets_then_gets (SetChannelType CHAN_SB) GetChannelType CHAN_SB p
  /\ sets_then_gets (SetColorSpace SPACE_SRGB) GetColorSpace SPACE_SRGB p
  /\ sets_then_gets (SetQuality 7) GetQuality QUALITY_HIGH p.
Proof.
  intros p.
  pose proof (setters_then_getters p eq_refl) as [S1 [S2 [S3 [S4 _]]]].
  split; [| split; [| split]].
  - apply S1. reflexivity.
  - apply S2. unfold CHAN_UBN, CHAN_SB. lia.
  - apply S3. right. reflexivity.
  - apply (S4 7).
Defined.

Lemma SetDimension_then_GetWidth_witness :
  let p := CreateNew 8 8 TYPE_BC1 in
  (exists p',
     SetDimension 16 4 true p = Ok (tt, p')
     /\ GetWidth p' = Ok (16, p') /\ GetHeight p' = Ok (4, p')
     /\ err p' = None /\ meta (info p') = meta (info p))
  /\ SetDimension 0 4 true p
     = Ok (tt, with_err p (Some PvrzErrIllegalArguments)).
Proof.
  intros p. split.
  - apply (proj1 (SetDimension_then_GetWidth p 16 4 true eq_refl eq_refl
                    (fun _ _ _ _ => eq_refl))).
    + unfold max_int. lia.
    + unfold max_int. lia.
  - apply (proj2 (SetDimension_then_GetWidth p 0 4 true eq_refl eq_refl
                    (fun _ _ _ _ => eq_refl))).
    + left. lia.
    + left. cbn. lia.
Defined.

Lemma prepareHeader_ends_in_256_zero_bytes_witness :
  let p := CreateNew 8 8 TYPE_BC1 in
  exists hdr,
    prepareHeader p = Ok hdr
    /\ hdr = words (header_words (info p)) ++ meta (info p)
               ++ repeat x00 256
    /\ len hdr = 0x34 + len (meta (info p)) + 256.
Proof.
  intros p. apply (prepareHeader_ends_in_256_zero_bytes p).
  vm_compute. discriminate.
Defined.

Lemma Save_refuses_unaligned_image_witness :
  let p := CreateNew 6 8 TYPE_BC1 in
  Save ([] : @Writer doubles.memory_sink) true p
  = Ok ([] : @Writer doubles.memory_sink,
        with_err p (Some (Errorf "Unable to encode texture data" []))).
Proof.
  intros p.
  apply (Save_refuses_unaligned_image p ([] : @Writer doubles.memory_sink)
           true).
  - reflexivity.
  - vm_compute. discriminate.
  - left. intros [_ [A _]]. vm_compute in A. discriminate A.
Defined.

Lemma Save_then_Load_witness :
  let p := CreateNew 8 8 TYPE_BC1 in
  let tex := repeat x00 32 in
  let data := words (header_words (info p)) ++ meta (info p)
                ++ repeat x00 256 ++ tex in
  exists im,
    Save ([] : @Writer doubles.memory_sink) false p
    = Ok (fst (sink_Write ([] : @Writer doubles.memory_sink) data), p)
    /\ decodeTexture (Some (repeat x00 256 ++ tex)) (width (info p))
         (height (info p)) (pixelType (info p)) = Some im
    /\ Load (data, None)
       = Ok (mkPvr (info p) im None QUALITY_DEFAULT false false).
Proof.
  intros p tex.
  apply (Save_then_Load p ([] : @Writer doubles.memory_sink) tex).
  - reflexivity.
  - unfold accepted. cbn. repeat split; try lia; discriminate.
  - cbn. lia.
  - cbn. lia.
  - vm_compute. discriminate.
  - reflexivity.
  - vm_compute. discriminate.
Defined.

End Runs.

End pvrz_more.

(* ================================================================== *)
(** * Properties of package tables

    The statements numbered X25 to X30 are read off the code of the
    table methods: how rows are numbered, what [PutItem],
    [InsertItem], [DeleteItem], [InsertRow] and [DeleteRow] leave in
    the table, and when [Is2DA] fails. *)

Module tables_more.
Import buffers_more.
Import tables tables_views.

(** ** The loops *)

Lemma shift_up_moves {A} (b a post : list A) (y : A) (steps : nat) :
  (length b < steps)%nat ->
  shift_up (a ++ b ++ y :: post) (len a + len b) (len a) steps
  = Ok (a ++ hd y b :: b ++ post).
Proof.
  revert y post steps.
  induction b as [| x b IH] using rev_ind; intros y post steps Hs.
  - destruct steps as [| k]; [cbn [length] in Hs; lia |].
    cbn [shift_up app hd]. change (len (@nil A)) with 0.
    rewrite Z.add_0_r. now tests.
  - destruct steps as [| k]; [lia |].
    rewrite length_app in Hs. cbn [length] in Hs.
    cbn [shift_up]. rewrite len_app.
    assert (L1 : len [x] = 1) by reflexivity. rewrite L1.
    assert (Hb := len_nonneg b). tests.
    assert (I1 : index (a ++ (b ++ [x]) ++ y :: post)
                   (len a + (len b + 1) - 1) = Ok x).
    { replace (len a + (len b + 1) - 1) with (len (a ++ b))
        by (rewrite len_app; lia).
      replace (a ++ (b ++ [x]) ++ y :: post)
        with ((a ++ b) ++ x :: y :: post)
        by (rewrite <- !app_assoc; reflexivity).
      apply index_app. }
    assert (S1 : store (a ++ (b ++ [x]) ++ y :: post)
                   (len a + (len b + 1)) x
                 = Ok (a ++ b ++ x :: x :: post)).
    { replace (len a + (len b + 1)) with (len ((a ++ b) ++ [x]))
        by (rewrite !len_app, L1; lia).
      replace (a ++ (b ++ [x]) ++ y :: post)
        with (((a ++ b) ++ [x]) ++ y :: post)
        by (rewrite <- !app_assoc; reflexivity).
      rewrite store_app. f_equal. rewrite <- !app_assoc. reflexivity. }
    rewrite I1. cbn [obind]. rewrite S1. cbn [obind].
    replace (len a + (len b + 1) - 1) with (len a + len b) by lia.
    rewrite IH by lia. f_equal. f_equal.
    destruct b as [| b0 b']; cbn [hd app]; [reflexivity |].
    rewrite <- !app_assoc. reflexivity.
Qed.

Lemma copy_forward_repeats {A} (b a : list A) (x : A) (steps : nat) :
  (length b < steps)%nat ->
  copy_forward (a ++ x :: b) (len a + 1) steps
  = Ok (a ++ x :: repeat x (length b)).
Proof.
  revert a steps. induction b as [| y b IH]; intros a steps Hs.
  - destruct steps as [| k]; [cbn [length] in Hs; lia |].
    cbn [copy_forward repeat length]. rewrite len_app.
    change (len [x]) with 1. now tests.
  - destruct steps as [| k]; [lia |]. cbn [length] in Hs.
    cbn [copy_forward]. rewrite len_app.
    assert (L : len (x :: y :: b) = 2 + len b)
      by (unfold len; cbn [length]; lia).
    rewrite L. assert (Hb := len_nonneg b). tests.
    replace (len a + 1 - 1) with (len a) by lia.
    rewrite index_app. cbn [obind].
    assert (S1 : store (a ++ x :: y :: b) (len a + 1) x
                 = Ok ((a ++ [x]) ++ x :: b)).
    { replace (len a + 1) with (len (a ++ [x]))
        by (rewrite len_app; reflexivity).
      replace (a ++ x :: y :: b) with ((a ++ [x]) ++ y :: b)
        by (rewrite <- app_assoc; reflexivity).
      apply store_app. }
    rewrite S1. cbn [obind].
    replace (len a + 1 + 1) with (len (a ++ [x]) + 1)
      by (rewrite len_app; reflexivity).
    rewrite IH by lia. rewrite <- app_assoc. reflexivity.
Qed.

Lemma last_of_cons {A} (l : list A) (a x y : A) :
  last (a :: l) x = last (a :: l) y.
Proof.
  revert a. induction l as [| b l IH]; intros a; [reflexivity |].
  change (last (a :: b :: l) x) with (last (b :: l) x).
  change (last (a :: b :: l) y) with (last (b :: l) y). apply IH.
Qed.

Lemma shift_down_moves {A} (b a : list A) (x : A) (steps : nat) :
  (length b < steps)%nat ->
  shift_down (a ++ x :: b) (len a + 1) steps
  = Ok (a ++ b ++ [last b x]).
Proof.
  revert a x steps. induction b as [| y b IH]; intros a x steps Hs.
  - destruct steps as [| k]; [cbn [length] in Hs; lia |].
    cbn [shift_down last app]. rewrite len_app.
    change (len [x]) with 1. now tests.
  - destruct steps as [| k]; [lia |]. cbn [length] in Hs.
    cbn [shift_down]. rewrite len_app.
    assert (L : len (x :: y :: b) = 2 + len b)
      by (unfold len; cbn [length]; lia).
    rewrite L. assert (Hb := len_nonneg b). tests.
    assert (I1 : index (a ++ x :: y :: b) (len a + 1) = Ok y).
    { replace (len a + 1) with (len (a ++ [x]))
        by (rewrite len_app; reflexivity).
      replace (a ++ x :: y :: b) with ((a ++ [x]) ++ y :: b)
        by (rewrite <- app_assoc; reflexivity).
      apply index_app. }
    rewrite I1. cbn [obind].
    replace (len a + 1 - 1) with (len a) by lia.
    rewrite store_app. cbn [obind].
    replace (a ++ y :: y :: b) with ((a ++ [y]) ++ y :: b)
      by (rewrite <- app_assoc; reflexivity).
    replace (len a + 1 + 1) with (len (a ++ [y]) + 1)
      by (rewrite len_app; reflexivity).
    rewrite IH by lia. rewrite <- app_assoc.
    destruct b as [| z b]; [reflexivity |].
    change (last (y :: z :: b) x) with (last (z :: b) x).
    now rewrite (last_of_cons b z y x).
Qed.

(** With a negative lower end the loop of [InsertRow] reads [s[-1]]. *)
Lemma shift_up_below_zero {A} (n : nat) (s : list A) (c lo : Z)
  (steps : nat) :
  lo < 0 -> Z.to_nat c = n -> 0 <= c < len s -> (n < steps)%nat ->
  shift_up s c lo steps = Panic.
Proof.
  revert s c steps. induction n as [| n IH]; intros s c steps Hlo Hn Hc Hs.
  - destruct steps as [| k]; [lia |]. cbn [shift_up].
    assert (c = 0) by lia. subst c. tests.
    unfold index. now tests.
  - destruct steps as [| k]; [lia |]. cbn [shift_up]. tests.
    destruct (index_ok s (c - 1)) as [x Ex]; [lia |].
    rewrite Ex. cbn [obind].
    destruct (store s c x) as [s' |] eqn:Es; [| reflexivity].
    cbn [obind]. apply IH; try lia.
    apply store_len in Es. lia.
Qed.

(** ** Counting and finding rows *)

Lemma rows_scan_counts (rows : list (list gostring)) (cols n : Z) :
  rows_scan rows cols n
  = n + len (filter (fun v => cols <=? len v) rows).
Proof.
  revert n. induction rows as [| v rows IH]; intros n.
  - cbn [rows_scan filter]. change (len (@nil (list gostring))) with 0. lia.
  - cbn [rows_scan filter]. rewrite IH.
    destruct (cols <=? len v); [| reflexivity].
    unfold len. cbn [length]. lia.
Qed.

Lemma len_wide_le (minCols : Z) (rows : list (list gostring)) :
  len (wide minCols rows) <= len rows.
Proof.
  unfold wide, len. apply inj_le. apply filter_length_le.
Qed.

Lemma wide_app (minCols : Z) (a b : list (list gostring)) :
  wide minCols (a ++ b) = wide minCols a ++ wide minCols b.
Proof. apply filter_app. Qed.

(** The scan stops at the row that has [row - matched] wide rows
    before it, and returns -1 when there is no such row. *)
Lemma absolute_scan_finds (rows : list (list gostring))
  (r matched row minCols : Z) :
  matched <= row ->
  (forall pre v post,
      rows = pre ++ v :: post ->
      len (filter (fun v => minCols <=? len v) pre) = row - matched ->
      minCols <= len v ->
      absolute_scan rows r matched row minCols = r + len pre)
  /\ (len (filter (fun v => minCols <=? len v) rows) <= row - matched ->
      absolute_scan rows r matched row minCols = -1).
Proof.
  revert r matched. induction rows as [| u rows IH]; intros r matched Hm.
  - split.
    + intros [| ? ?] ? ? E; discriminate E.
    + reflexivity.
  - split.
    + intros pre v post E Hpre Hv. cbn [absolute_scan].
      destruct pre as [| p pre].
      * cbn [app] in E. injection E as -> ->.
        change (len (filter _ [])) with 0 in Hpre.
        tests. change (len (@nil (list gostring))) with 0. lia.
      * cbn [app] in E. injection E as -> ->.
        cbn [filter] in Hpre.
        assert (Lp : len (p :: pre) = 1 + len pre)
          by (unfold len; cbn [length]; lia).
        rewrite Lp.
        destruct (minCols <=? len p) eqn:Ep.
        -- assert (Lf : forall l : list (list gostring),
                      len (p :: l) = 1 + len l)
             by (intros; unfold len; cbn [length]; lia).
           rewrite Lf in Hpre.
           assert (Hf := len_nonneg
                           (filter (fun v => minCols <=? len v) pre)).
           tests.
           rewrite (proj1 (IH (r + 1) (matched + 1) ltac:(lia))
                      pre v post eq_refl); lia.
        -- rewrite (proj1 (IH (r + 1) matched ltac:(lia))
                      pre v post eq_refl); lia.
    + intros Hn. cbn [absolute_scan]. cbn [filter] in Hn.
      destruct (minCols <=? len u) eqn:Eu.
      * assert (Lf : forall l : list (list gostring),
                   len (u :: l) = 1 + len l)
          by (intros; unfold len; cbn [length]; lia).
        rewrite Lf in Hn.
        assert (Hf := len_nonneg
                        (filter (fun v => minCols <=? len v) rows)).
        tests. apply IH; lia.
      * apply IH; lia.
Qed.

(** A row number below the count of wide rows picks a wide row. *)
Lemma wide_cut (minCols : Z) (rows : list (list gostring)) (row : Z) :
  0 <= row < len (wide minCols rows) ->
  exists pre v post,
    rows = pre ++ v :: post /\ len (wide minCols pre) = row
    /\ Z.max 0 minCols <= len v.
Proof.
  revert row. induction rows as [| u rows IH]; intros row Hr.
  - change (len (wide minCols [])) with 0 in Hr. lia.
  - unfold wide in Hr. cbn [filter] in Hr.
    destruct (Z.max 0 minCols <=? len u) eqn:Eu.
    + destruct (Z.eq_dec row 0) as [-> | Hn].
      * exists [], u, rows. repeat split. now apply Z.leb_le.
      * assert (Lf : forall l : list (list gostring),
                   len (u :: l) = 1 + len l)
          by (intros; unfold len; cbn [length]; lia).
        rewrite Lf in Hr.
        destruct (IH (row - 1)) as (pre & v & post & E & Hp & Hv);
          [unfold wide; lia |].
        exists (u :: pre), v, post. subst rows.
        repeat split; [| exact Hv].
        unfold wide. cbn [filter]. rewrite Eu. rewrite Lf.
        unfold wide in Hp. lia.
    + destruct (IH row) as (pre & v & post & E & Hp & Hv);
        [exact Hr |].
      exists (u :: pre), v, post. subst rows.
      repeat split; [| exact Hv].
      unfold wide. cbn [filter]. now rewrite Eu.
Qed.

Lemma fill_row_keeps `{Strings} (items row : list gostring) :
  fill_row row items = row ++ kept_items items.
Proof.
  revert row. induction items as [| v items IH]; intros row.
  - cbn. now rewrite app_nil_r.
  - cbn [fill_row]. rewrite IH. unfold kept_items. cbn [map filter].
    destruct (0 <? len (TrimSpace v)); [| reflexivity].
    rewrite <- app_assoc. reflexivity.
Qed.

Lemma floor_is_max (m : Z) : (if m <? 0 then 0 else m) = Z.max 0 m.
Proof. destruct (Z.ltb_spec m 0); lia. Qed.

Lemma wide_all (minCols : Z) (rows : list (list gostring)) :
  minCols <= 0 -> wide minCols rows = rows.
Proof.
  intros Hm. unfold wide. replace (Z.max 0 minCols) with 0 by lia.
  induction rows as [| v rows IH]; [reflexivity |].
  cbn [filter]. assert (Hv := len_nonneg v). tests. now f_equal.
Qed.

Lemma string_eqb_eq (s t : gostring) : string_eqb s t = true <-> s = t.
Proof.
  revert t. induction s as [| x s IH]; intros [| y t]; cbn [string_eqb];
    try (split; [discriminate | discriminate]); [tauto |].
  rewrite andb_true_iff, IH. split.
  - intros [Exy ->]. apply Byte.byte_dec_bl in Exy. now subst.
  - intros [= -> ->]. split; [apply byte_eqb_refl | reflexivity].
Qed.

Lemma len_zero_nil {A} (s : list A) : len s = 0 <-> s = [].
Proof.
  destruct s; unfold len; cbn [length]; split; intros E;
    try reflexivity; try discriminate E; lia.
Qed.

Section Facts.
Context `{Charmaps} `{Strings}.

Lemma absoluteRow_at (t : Table) (row minCols : Z)
  (pre : list (list gostring)) (v : list gostring)
  (post : list (list gostring)) :
  row_at (table t) row minCols pre v post ->
  absoluteRow t row minCols = len pre.
Proof.
  intros (E & Hp & Hv). unfold absoluteRow. rewrite floor_is_max.
  assert (H1 := len_nonneg (wide minCols pre)).
  assert (H2 := len_wide_le minCols pre).
  assert (H3 : len (table t) = len pre + 1 + len post).
  { rewrite E, len_app. unfold len. cbn [length]. lia. }
  assert (H4 := len_nonneg post). tests.
  rewrite (proj1 (absolute_scan_finds (table t) 0 0 row (Z.max 0 minCols)
                    ltac:(lia)) pre v post E); [lia | | exact Hv].
  unfold wide in Hp. lia.
Qed.

Lemma absoluteRow_none (t : Table) (row minCols : Z) :
  ~ 0 <= row < len (wide minCols (table t)) ->
  absoluteRow t row minCols = -1.
Proof.
  intros Hn. unfold absoluteRow. rewrite floor_is_max.
  destruct (Z.leb_spec 0 row) as [Hrow |]; [| reflexivity].
  destruct (Z.ltb_spec row (len (table t))); [| reflexivity].
  cbn [andb].
  apply (proj2 (absolute_scan_finds (table t) 0 0 row (Z.max 0 minCols)
                  ltac:(lia))).
  unfold wide in Hn. lia.
Qed.

Lemma absoluteRow_floor (t : Table) (row minCols : Z) :
  absoluteRow t row (if minCols <? 0 then 0 else minCols)
  = absoluteRow t row minCols.
Proof.
  unfold absoluteRow. rewrite !floor_is_max.
  now replace (Z.max 0 (Z.max 0 minCols)) with (Z.max 0 minCols) by lia.
Qed.

Lemma Rows_counts (t : Table) (cols : Z) :
  err t = None ->
  Rows cols t = Ok (len (wide cols (table t)), t).
Proof.
  intros He. unfold Rows, bind, get, ret. rewrite He. cbn [is_set].
  rewrite floor_is_max.
  destruct (Z.ltb_spec 0 (Z.max 0 cols)) as [Hc | Hc].
  - rewrite rows_scan_counts. reflexivity.
  - rewrite wide_all by lia. reflexivity.
Qed.

Lemma RowColumns_at (t : Table) (row minCols : Z)
  (pre : list (list gostring)) (v : list gostring)
  (post : list (list gostring)) :
  err t = None -> row_at (table t) row minCols pre v post ->
  RowColumns row minCols t = Ok (len v, t).
Proof.
  intros He R. unfold RowColumns, bind, get, ret, lift.
  rewrite He. cbn [is_set]. rewrite (absoluteRow_at _ _ _ _ _ _ R).
  assert (H1 := len_nonneg pre). tests.
  destruct R as (E & _). rewrite E, index_app. reflexivity.
Qed.

Lemma GetItem_at (t : Table) (row minCols : Z)
  (pre : list (list gostring)) (a : list gostring) (x : gostring)
  (b : list gostring) (post : list (list gostring)) :
  err t = None -> row_at (table t) row minCols pre (a ++ x :: b) post ->
  GetItem row (len a) minCols t = Ok (x, t).
Proof.
  intros He R. unfold GetItem, bind, get, ret, lift.
  rewrite He. cbn [is_set].
  assert (Hrow : 0 <= row).
  { destruct R as (_ & <- & _). apply len_nonneg. }
  assert (H1 := len_nonneg a). assert (H2 := len_nonneg pre).
  assert (H3 := len_nonneg b). tests.
  rewrite absoluteRow_floor, (absoluteRow_at _ _ _ _ _ _ R). tests.
  destruct R as (E & _). rewrite E, index_app.
  rewrite len_app.
  assert (L : len (x :: b) = 1 + len b) by (unfold len; cbn [length]; lia).
  rewrite L. tests. rewrite index_app. reflexivity.
Qed.

(** X25. Rows are numbered among the rows of at least [minCols] items:
    on an error-free table [Rows(minCols)] is the number of such rows;
    for a row number below it [RowColumns] returns the length of that
    row and [GetItem] returns its item in column [col], or sets
    [ErrIllegalArguments] when the row has no such column; for any
    other row number [RowColumns] returns -1 and [GetItem] sets
    [ErrIllegalArguments].  None of these calls changes the table. *)
Theorem rows_are_numbered_among_wide_rows (t : Table)
  (row col minCols : Z) :
  err t = None ->
  Rows minCols t = Ok (len (wide minCols (table t)), t)
  /\ (forall pre v post,
        row_at (table t) row minCols pre v post ->
        RowColumns row minCols t = Ok (len v, t)
        /\ (forall a x b, v = a ++ x :: b -> len a = col ->
              GetItem row col minCols t = Ok (x, t))
        /\ (col < 0 \/ len v <= col ->
              GetItem row col minCols t
              = Ok ([], with_err t (Some ErrIllegalArguments))))
  /\ (~ 0 <= row < len (wide minCols (table t)) ->
        RowColumns row minCols t = Ok (-1, t)
        /\ GetItem row col minCols t
           = Ok ([], with_err t (Some ErrIllegalArguments))).
Proof.
  intros He. split; [now apply Rows_counts |]. split.
  - intros pre v post R. split; [now apply (RowColumns_at _ _ _ pre v post) |].
    split.
    + intros a x b -> <-. now apply (GetItem_at _ _ _ pre a x b post).
    + intros Hc. unfold GetItem, bind, get, ret, lift, illegal_arguments,
        bind, set_err, ret.
      rewrite He. cbn [is_set].
      assert (Hrow : 0 <= row).
      { destruct R as (_ & <- & _). apply len_nonneg. }
      destruct (Z.ltb_spec col 0) as [Hn | Hn].
      * tests. reflexivity.
      * tests. rewrite absoluteRow_floor, (absoluteRow_at _ _ _ _ _ _ R).
        assert (H2 := len_nonneg pre). tests.
        destruct R as (E & _). rewrite E, index_app.
        assert (Hl : (len v <=? col) = true) by (apply Z.leb_le; lia).
        rewrite Hl. reflexivity.
  - intros Hn. split.
    + unfold RowColumns, bind, get, ret. rewrite He. cbn [is_set].
      rewrite (absoluteRow_none _ _ _ Hn). reflexivity.
    + unfold GetItem, bind, get, ret, lift, illegal_arguments,
        bind, set_err, ret.
      rewrite He. cbn [is_set].
      destruct ((row <? 0) || (col <? 0)); [reflexivity |].
      rewrite absoluteRow_floor, (absoluteRow_none _ _ _ Hn). reflexivity.
Qed.

Lemma row_at_nonneg (rows : list (list gostring)) (row minCols : Z)
  (pre : list (list gostring)) (v : list gostring)
  (post : list (list gostring)) :
  row_at rows row minCols pre v post -> 0 <= row.
Proof. intros (_ & <- & _). apply len_nonneg. Qed.

Lemma len_cons {A} (x : A) (s : list A) : len (x :: s) = 1 + len s.
Proof. unfold len. cbn [length]. lia. Qed.

(** X26. [PutItem] followed by [GetItem]: on an error-free table, for
    an existing item [x] at [row], [col] and an [item] that is not
    blank, [PutItem] replaces [x] by the trimmed [item] and nothing
    else, raises the modified flag exactly when the two differ, and
    [GetItem] at the same place then returns the trimmed [item].  A
    blank [item] is refused with [ErrIllegalArguments]. *)
Theorem PutItem_then_GetItem (t : Table) (row col minCols : Z)
  (item : gostring) (pre : list (list gostring)) (a : list gostring)
  (x : gostring) (b : list gostring) (post : list (list gostring)) :
  err t = None ->
  row_at (table t) row minCols pre (a ++ x :: b) post -> len a = col ->
  (TrimSpace item <> [] ->
   exists t',
     PutItem row col minCols item t = Ok (tt, t')
     /\ table t' = pre ++ (a ++ TrimSpace item :: b) :: post
     /\ err t' = None /\ cmap t' = cmap t
     /\ (x = TrimSpace item -> dirty t' = dirty t)
     /\ (x <> TrimSpace item -> dirty t' = true)
     /\ GetItem row col minCols t' = Ok (TrimSpace item, t'))
  /\ (TrimSpace item = [] ->
      PutItem row col minCols item t
      = Ok (tt, with_err t (Some ErrIllegalArguments))).
Proof.
  intros He R <-.
  assert (Hr := row_at_nonneg _ _ _ _ _ _ R).
  assert (H1 := len_nonneg a). assert (H2 := len_nonneg pre).
  assert (H3 := len_nonneg b).
  split.
  - intros Hi.
    assert (Li : len (TrimSpace item) <> 0)
      by (now rewrite len_zero_nil).
    assert (Hl := len_nonneg (TrimSpace item)).
    set (d := if string_eqb x (TrimSpace item) then dirty t else true).
    exists (mkTable (pre ++ (a ++ TrimSpace item :: b) :: post) (cmap t) d
              None).
    assert (R' : row_at (pre ++ (a ++ TrimSpace item :: b) :: post)
                   row minCols pre (a ++ TrimSpace item :: b) post).
    { destruct R as (_ & Hp & Hv). repeat split; [exact Hp |].
      rewrite len_app, len_cons in *. lia. }
    split.
    + unfold PutItem, bind, get, ret, lift. rewrite He. cbn [is_set].
      tests. rewrite absoluteRow_floor, (absoluteRow_at _ _ _ _ _ _ R).
      tests. destruct R as (E & _). rewrite E, index_app.
      rewrite len_app, len_cons. tests. rewrite index_app, store_app.
      rewrite store_app. subst d.
      destruct (string_eqb x (TrimSpace item)); cbn [negb];
        unfold set_dirty, set_table, ret; cbn [table cmap dirty err];
        rewrite He; reflexivity.
    + cbn [table err cmap dirty]. repeat split.
      * intros ->. subst d.
        now rewrite (proj2 (string_eqb_eq _ _) eq_refl).
      * intros Hx. subst d.
        destruct (string_eqb x (TrimSpace item)) eqn:Ex; [| reflexivity].
        apply string_eqb_eq in Ex. contradiction.
      * now apply (GetItem_at _ _ _ pre a _ b post).
  - intros Hi. unfold PutItem, bind, get, ret, illegal_arguments, bind,
      set_err, ret.
    rewrite He. cbn [is_set]. rewrite Hi.
    change (len (@nil byte)) with 0. tests.
    reflexivity.
Qed.

(** X27. [InsertItem] on an error-free table, at a column [col] of an
    existing row that is at most the length of the row, with an [item]
    that is not blank: the trimmed [item] is put at [col], the items
    that were at [col] and after it move one place to the right,
    nothing else changes, the table is marked modified, and [GetItem]
    at [row], [col] then returns the trimmed [item].  A column beyond
    the end of the row is refused with [ErrIllegalArguments]. *)
Theorem InsertItem_layout (t : Table) (row col minCols : Z)
  (item : gostring) (pre : list (list gostring)) (a b : list gostring)
  (post : list (list gostring)) :
  err t = None ->
  row_at (table t) row minCols pre (a ++ b) post ->
  TrimSpace item <> [] ->
  (len a = col -> len (a ++ b) < max_int ->
   exists t',
     InsertItem row col minCols item t = Ok (tt, t')
     /\ table t' = pre ++ (a ++ TrimSpace item :: b) :: post
     /\ err t' = None /\ cmap t' = cmap t /\ dirty t' = true
     /\ GetItem row col minCols t' = Ok (TrimSpace item, t')
     /\ RowColumns row minCols t' = Ok (len (a ++ b) + 1, t'))
  /\ (len (a ++ b) < col ->
      InsertItem row col minCols item t
      = Ok (tt, with_err t (Some ErrIllegalArguments))).
Proof.
  intros He R Hi.
  assert (Hr := row_at_nonneg _ _ _ _ _ _ R).
  assert (H1 := len_nonneg a). assert (H2 := len_nonneg pre).
  assert (H3 := len_nonneg b).
  assert (Li : len (TrimSpace item) <> 0) by (now rewrite len_zero_nil).
  assert (Hl := len_nonneg (TrimSpace item)).
  split.
  - intros <- Hm.
    exists (mkTable (pre ++ (a ++ TrimSpace item :: b) :: post) (cmap t)
              true None).
    assert (R' : row_at (pre ++ (a ++ TrimSpace item :: b) :: post)
                   row minCols pre (a ++ TrimSpace item :: b) post).
    { destruct R as (_ & Hp & Hv). repeat split; [exact Hp |].
      rewrite len_app in *. rewrite len_cons. lia. }
    split.
    + unfold InsertItem, bind, get, ret, lift. rewrite He. cbn [is_set].
      tests. rewrite absoluteRow_floor, (absoluteRow_at _ _ _ _ _ _ R).
      tests. destruct R as (E & _). rewrite E, index_app.
      rewrite len_app in *. tests.
      unfold append. rewrite len_app. change (len [[]]) with 1.
      tests.
      assert (L2 : len ((a ++ b) ++ [[]]) = len a + len b + 1)
        by (rewrite !len_app; reflexivity).
      rewrite L2.
      assert (W : int_sub (len a + len b + 1) 1 = len a + len b).
      { unfold int_sub. rewrite wrap64_small;
          unfold min_int, max_int in *; lia. }
      rewrite W.
      replace ((a ++ b) ++ [[]]) with (a ++ b ++ [] :: [])
        by (now rewrite <- app_assoc).
      rewrite shift_up_moves
        by (rewrite !length_app; cbn [length]; lia).
      rewrite store_app, store_app.
      unfold set_table, set_dirty. cbn [table cmap dirty err].
      rewrite He, app_nil_r. reflexivity.
    + cbn [table err cmap dirty]. repeat split.
      * now apply (GetItem_at _ _ _ pre a _ b post).
      * erewrite RowColumns_at; [| reflexivity | exact R'].
        do 2 f_equal. rewrite !len_app, len_cons. lia.
  - intros Hc. unfold InsertItem, bind, get, ret, lift, illegal_arguments,
      bind, set_err, ret.
    rewrite He. cbn [is_set]. rewrite len_app in Hc.
    tests. rewrite absoluteRow_floor, (absoluteRow_at _ _ _ _ _ _ R).
    tests. destruct R as (E & _). rewrite E, index_app.
    rewrite len_app. tests. reflexivity.
Qed.

(** X28. [DeleteItem] on an error-free table returns the item [x] at
    [row], [col] and shortens the row by one, but the item dropped is
    the last one of the row: the loop copies [x] over every item after
    it, so the row keeps the items before [col] followed by [x] in
    every remaining place.  Only when [x] is the last item of the row
    is it the item removed. *)
Theorem DeleteItem_keeps_the_item (t : Table) (row col minCols : Z)
  (pre : list (list gostring)) (a : list gostring) (x : gostring)
  (b : list gostring) (post : list (list gostring)) :
  err t = None ->
  row_at (table t) row minCols pre (a ++ x :: b) post -> len a = col ->
  len (a ++ x :: b) <= max_int ->
  exists t',
    DeleteItem row col minCols t = Ok (x, t')
    /\ table t' = pre ++ (a ++ repeat x (length b)) :: post
    /\ err t' = None /\ cmap t' = cmap t /\ dirty t' = true
    /\ (b = [] -> table t' = pre ++ a :: post)
    /\ (b <> [] -> exists b', table t' = pre ++ (a ++ x :: b') :: post
                               /\ forall y, In y b' -> y = x).
Proof.
  intros He R <- Hm.
  assert (Hr := row_at_nonneg _ _ _ _ _ _ R).
  assert (H1 := len_nonneg a). assert (H2 := len_nonneg pre).
  assert (H3 := len_nonneg b).
  exists (mkTable (pre ++ (a ++ repeat x (length b)) :: post) (cmap t)
            true None).
  split.
  - unfold DeleteItem, bind, get, ret, lift. rewrite He. cbn [is_set].
    tests. rewrite absoluteRow_floor, (absoluteRow_at _ _ _ _ _ _ R).
    tests. destruct R as (E & _). rewrite E, index_app.
    rewrite len_app, len_cons in *. tests. rewrite index_app.
    assert (W : int_add (len a) 1 = len a + 1).
    { unfold int_add. rewrite wrap64_small;
        unfold min_int, max_int in *; lia. }
    rewrite W.
    rewrite copy_forward_repeats
      by (rewrite length_app; cbn [length]; lia).
    assert (L2 : len (a ++ x :: repeat x (length b)) = len a + 1 + len b).
    { rewrite len_app, len_cons, len_repeat. unfold len. lia. }
    rewrite L2.
    assert (W2 : int_sub (len a + 1 + len b) 1 = len a + len b).
    { unfold int_sub. rewrite wrap64_small;
        unfold min_int, max_int in *; lia. }
    rewrite W2.
    assert (S1 : slice_to (a ++ x :: repeat x (length b)) (len a + len b)
                 = Ok (a ++ repeat x (length b))).
    { rewrite repeat_cons.
      replace (len a + len b) with (len a + len (repeat x (length b)))
        by (rewrite len_repeat; reflexivity).
      unfold slice_to.
      pose proof (slice_app_mid [] (a ++ repeat x (length b)) [x]) as K.
      cbn [app] in K. change (len (@nil gostring)) with 0 in K.
      rewrite Z.add_0_l, len_app, <- app_assoc in K. exact K. }
    rewrite S1, store_app.
    unfold set_table, set_dirty. cbn [table cmap dirty err].
    rewrite He. reflexivity.
  - cbn [table err cmap dirty]. repeat split.
    + intros ->. cbn [length repeat]. now rewrite app_nil_r.
    + intros Hb. destruct b as [| y b]; [contradiction |].
      exists (repeat x (length b)). split; [reflexivity |].
      intros z Hz. now apply repeat_spec in Hz.
Qed.

(** X29. [InsertRow] and [DeleteRow]: on an error-free table,
    [InsertRow(k, items)] with [0 <= k <= Rows(0)] and a non-empty
    [items] puts a new row between the first [k] rows and the rest and
    marks the table modified; the new row holds the trimmed items that
    are not blank, and is an empty row when all of them are blank.
    [DeleteRow(k)] then gives back the rows the table had.  With [k]
    outside [0 .. Rows(0)] the call panics. *)
Theorem InsertRow_then_DeleteRow (t : Table) (k : Z)
  (items : list gostring) :
  err t = None -> items <> [] ->
  (forall pre post,
      table t = pre ++ post -> len pre = k -> len (table t) < max_int ->
      exists t',
        InsertRow k (Some items) t = Ok (tt, t')
        /\ table t' = pre ++ kept_items items :: post
        /\ err t' = None /\ cmap t' = cmap t /\ dirty t' = true
        /\ Rows 0 t' = Ok (len (table t) + 1, t')
        /\ DeleteRow k t' = Ok (tt, with_table t' (table t)))
  /\ (k < 0 \/ len (table t) < k -> InsertRow k (Some items) t = Panic).
Proof.
  intros He Hi.
  assert (Li : len items <> 0) by (now rewrite len_zero_nil).
  assert (Hl := len_nonneg items).
  split.
  - intros pre post E <- Hm.
    assert (H1 := len_nonneg pre). assert (H2 := len_nonneg post).
    assert (Lt : len (table t) = len pre + len post)
      by (now rewrite E, len_app).
    exists (mkTable (pre ++ kept_items items :: post) (cmap t) true None).
    split; [| cbn [table err cmap dirty]; repeat split].
    + unfold InsertRow, bind, get, ret, lift. rewrite He.
      cbn [is_set len_opt or_empty]. tests.
      unfold append. change (len [[]]) with 1. tests.
      assert (L2 : len (table t ++ [[]]) = len pre + len post + 1)
        by (rewrite len_app, Lt; reflexivity).
      rewrite L2.
      assert (W : int_sub (len pre + len post + 1) 1 = len pre + len post).
      { unfold int_sub. rewrite wrap64_small;
          unfold min_int, max_int in *; lia. }
      rewrite W, E.
      replace ((pre ++ post) ++ [[]]) with (pre ++ post ++ [] :: [])
        by (now rewrite <- app_assoc).
      rewrite shift_up_moves
        by (rewrite !length_app; cbn [length]; lia).
      rewrite store_app, store_app, fill_row_keeps.
      unfold set_table, set_dirty. cbn [table cmap dirty err app].
      rewrite He, app_nil_r. reflexivity.
    + erewrite Rows_counts by reflexivity. cbn [table].
      rewrite wide_all by lia. do 2 f_equal.
      rewrite len_app, len_cons. lia.
    + unfold DeleteRow, bind, get, ret, lift. cbn [table err is_set].
      rewrite len_app, len_cons. tests.
      assert (W : int_add (len pre) 1 = len pre + 1).
      { unfold int_add. rewrite wrap64_small;
          unfold min_int, max_int in *; lia. }
      rewrite W.
      rewrite shift_down_moves
        by (rewrite length_app; cbn [length]; lia).
      assert (L3 : len (pre ++ post ++ [last post (kept_items items)])
                   = len pre + len post + 1).
      { rewrite !len_app. change (len [last post (kept_items items)])
          with 1. lia. }
      rewrite L3.
      assert (W2 : int_sub (len pre + len post + 1) 1
                   = len pre + len post).
      { unfold int_sub. rewrite wrap64_small;
          unfold min_int, max_int in *; lia. }
      rewrite W2.
      assert (S1 : slice_to
                     (pre ++ post ++ [last post (kept_items items)])
                     (len pre + len post) = Ok (pre ++ post)).
      { unfold slice_to.
        pose proof (slice_app_mid [] (pre ++ post)
                      [last post (kept_items items)]) as K.
        cbn [app] in K. change (len (@nil (list gostring))) with 0 in K.
        rewrite Z.add_0_l, len_app, <- app_assoc in K. exact K. }
      rewrite S1. unfold set_table, set_dirty, with_table.
      cbn [table cmap dirty err]. rewrite E. reflexivity.
  - intros Hk. unfold InsertRow, bind, get, ret, lift. rewrite He.
    cbn [is_set len_opt or_empty]. tests.
    unfold append. change (len [[]]) with 1.
    destruct (max_int <? len (table t) + 1) eqn:Em; [reflexivity |].
    apply Z.ltb_ge in Em.
    assert (Ht := len_nonneg (table t)).
    assert (L2 : len (table t ++ [[]]) = len (table t) + 1)
      by (rewrite len_app; reflexivity).
    rewrite L2.
    assert (W : int_sub (len (table t) + 1) 1 = len (table t)).
    { unfold int_sub. rewrite wrap64_small;
        unfold min_int, max_int in *; lia. }
    rewrite W.
    destruct Hk as [Hk | Hk].
    + rewrite (shift_up_below_zero (Z.to_nat (len (table t))))
        by (try reflexivity; rewrite ?length_app; cbn [length];
            unfold len in *; lia).
      reflexivity.
    + assert (N : shift_up (table t ++ [[]]) (len (table t)) k
                    (length (table t ++ [[]])) = Ok (table t ++ [[]])).
      { rewrite length_app. cbn [length]. rewrite Nat.add_1_r.
        cbn [shift_up]. now tests. }
      rewrite N. unfold store. rewrite L2. now tests.
Qed.

Lemma columns_scan_bounds (rows : list (list gostring)) (n : Z) :
  n <= columns_scan rows n
  /\ forall v, In v rows -> len v <= columns_scan rows n.
Proof.
  revert n. induction rows as [| u rows IH]; intros n.
  - split; [cbn; lia | intros v []].
  - cbn [columns_scan].
    destruct (IH (if n <? len u then len u else n)) as [I1 I2].
    destruct (Z.ltb_spec n (len u)); split; try lia;
      intros v [-> | Hv]; try lia; now apply I2.
Qed.

Lemma index_first {A} (x : A) (s : list A) : index (x :: s) 0 = Ok x.
Proof. now apply index_nth. Qed.

Lemma index_second {A} (x y : A) (s : list A) :
  index (x :: y :: s) 1 = Ok y.
Proof. apply index_nth; [lia | reflexivity]. Qed.

(** X30. [Is2DA] reads [t.table[0][0]] and [t.table[0][1]] without
    looking at the length of the first row.  On an error-free table of
    at least two rows in which some row has two items or more, it
    panics when the first row is empty, and when the first row is the
    single item "2DA" (in any case); when the first row has two items
    or more it returns whether they are "2DA" and "V1.0" (in any case)
    and the second row has exactly one item. *)
Theorem Is2DA_needs_two_items_in_first_row (t : Table)
  (r0 r1 : list gostring) (rest : list (list gostring)) :
  err t = None -> table t = r0 :: r1 :: rest ->
  (exists v, In v (table t) /\ 2 <= len v) ->
  (r0 = [] -> Is2DA t = Panic)
  /\ (forall x, r0 = [x] -> ToUpper x = [x32; x44; x41] ->
        Is2DA t = Panic)
  /\ (forall x y more, r0 = x :: y :: more ->
        Is2DA t
        = Ok (string_eqb (ToUpper x) [x32; x44; x41]
              && string_eqb (ToUpper y) [x56; x31; x2e; x30]
              && (len r1 =? 1), t)).
Proof.
  intros He E (v & Hv & Hv2).
  assert (C : 2 <= columns_scan (table t) 0).
  { pose proof (proj2 (columns_scan_bounds (table t) 0) v Hv). lia. }
  assert (L : len (table t) = 2 + len rest).
  { rewrite E, !len_cons. lia. }
  assert (Hr := len_nonneg rest).
  assert (Start :
             Is2DA t = (r <- lift (index (table t) 0) ;;
                        x <- lift (index r 0) ;;
                        if negb (string_eqb (ToUpper x) [x32; x44; x41])
                        then ret false
                        else
                          r <- lift (index (table t) 0) ;;
                          y <- lift (index r 1) ;;
                          if negb (string_eqb (ToUpper y)
                                     [x56; x31; x2e; x30])
                          then ret false
                          else
                            r1 <- lift (index (table t) 1) ;;
                            if negb (len r1 =? 1) then ret false
                            else ret true) t).
  { unfold Is2DA, Columns, Rows, bind, get, ret.
    cbv beta iota. rewrite He. cbn [is_set]. cbv beta iota.
    rewrite ?He. cbn [is_set]. cbv beta iota.
    test_false (columns_scan (table t) 0 <? 2). cbv beta iota.
    rewrite ?He. cbn [is_set]. cbv beta iota zeta.
    change (0 <? 0) with false. cbv beta iota.
    change (0 <? 0) with false. cbv beta iota.
    test_false (len (table t) <? 2). reflexivity. }
  rewrite Start. clear Start.
  unfold bind, lift, ret. rewrite E.
  rewrite index_first, index_second.
  split; [| split].
  - intros ->. reflexivity.
  - intros x -> Ex. rewrite index_first, Ex. reflexivity.
  - intros x y more ->.
    rewrite index_first, index_second.
    destruct (string_eqb (ToUpper x) [x32; x44; x41]); [| reflexivity].
    destruct (string_eqb (ToUpper y) [x56; x31; x2e; x30]);
      [| reflexivity].
    cbn [negb andb]. destruct (len r1 =? 1); reflexivity.
Qed.

End Facts.

Section Runs.
Existing Instance doubles.plain_charmaps.
Existing Instance lettering.ascii_strings.

Lemma rows_are_numbered_among_wide_rows_witness :
  Rows 2 lettering.sample = Ok (2, lettering.sample)
  /\ RowColumns 1 2 lettering.sample = Ok (3, lettering.sample)
  /\ GetItem 1 1 2 lettering.sample = Ok ([x65], lettering.sample)
  /\ GetItem 2 1 2 lettering.sample
     = Ok ([], with_err lettering.sample (Some ErrIllegalArguments)).
Proof.
  destruct (rows_are_numbered_among_wide_rows lettering.sample 1 1 2 eq_refl)
    as (R & A & _).
  destruct (A [[[x61]; [x62]]; [[x63]]] [[x64]; [x65]; [x66]] [])
    as (C & G & _).
  { split; [reflexivity | split; [reflexivity |]].
    vm_compute. discriminate. }
  destruct (rows_are_numbered_among_wide_rows lettering.sample 2 1 2 eq_refl)
    as (_ & _ & N).
  assert (Out : ~ 0 <= 2 < len (wide 2 (table lettering.sample)))
    by (vm_compute; intros [_ K]; discriminate K).
  destruct (N Out) as (_ & N').
  exact (conj R (conj C (conj (G [[x64]] [x65] [[x66]] eq_refl eq_refl)
                                 N'))).
Defined.

Lemma PutItem_then_GetItem_witness :
  exists t',
    PutItem 1 1 2 [x20; x7a; x20] lettering.sample = Ok (tt, t')
    /\ table t' = [[[x61]; [x62]]; [[x63]]; [[x64]; [x7a]; [x66]]]
    /\ dirty t' = true
    /\ GetItem 1 1 2 t' = Ok ([x7a], t').
Proof.
  destruct (PutItem_then_GetItem lettering.sample 1 1 2 [x20; x7a; x20]
              [[[x61]; [x62]]; [[x63]]] [[x64]] [x65] [[x66]] []
              eq_refl) as (P & _).
  - split; [reflexivity | split; [reflexivity |]].
    vm_compute. discriminate.
  - reflexivity.
  - destruct P as (t' & E & T & _ & _ & _ & D & G).
    + vm_compute. discriminate.
    + assert (Ne : [x65] <> TrimSpace [x20; x7a; x20])
        by (vm_compute; discriminate).
      exists t'. exact (conj E (conj T (conj (D Ne) G))).
Defined.

Lemma InsertItem_layout_witness :
  exists t',
    InsertItem 0 1 0 [x7a] lettering.sample = Ok (tt, t')
    /\ table t' = [[[x61]; [x7a]; [x62]]; [[x63]]; [[x64]; [x65]; [x66]]]
    /\ GetItem 0 1 0 t' = Ok ([x7a], t').
Proof.
  destruct (InsertItem_layout lettering.sample 0 1 0 [x7a]
              [] [[x61]] [[x62]] [[[x63]]; [[x64]; [x65]; [x66]]]
              eq_refl) as (P & _).
  - split; [reflexivity | split; [reflexivity |]].
    vm_compute. discriminate.
  - vm_compute. discriminate.
  - destruct P as (t' & E & T & _ & _ & _ & G & _).
    + reflexivity.
    + vm_compute. reflexivity.
    + exists t'. exact (conj E (conj T G)).
Defined.

Lemma DeleteItem_keeps_the_item_witness :
  exists t',
    DeleteItem 1 0 2 lettering.sample = Ok ([x64], t')
    /\ table t' = [[[x61]; [x62]]; [[x63]]; [[x64]; [x64]]].
Proof.
  destruct (DeleteItem_keeps_the_item lettering.sample 1 0 2
              [[[x61]; [x62]]; [[x63]]] [] [x64] [[x65]; [x66]] []
              eq_refl) as (t' & E & T & _).
  - split; [reflexivity | split; [reflexivity |]].
    vm_compute. discriminate.
  - reflexivity.
  - vm_compute. discriminate.
  - exists t'. split; [exact E | exact T].
Defined.

Lemma InsertRow_then_DeleteRow_witness :
  (exists t',
     InsertRow 1 (Some [[x20; x70]; [x20]; [x71]]) lettering.sample = Ok (tt, t')
     /\ table t'
        = [[[x61]; [x62]]; [[x70]; [x71]]; [[x63]];
           [[x64]; [x65]; [x66]]]
     /\ DeleteRow 1 t' = Ok (tt, with_table t' (table lettering.sample)))
  /\ InsertRow 4 (Some [[x70]]) lettering.sample = Panic.
Proof.
  split.
  - destruct (InsertRow_then_DeleteRow lettering.sample 1
                [[x20; x70]; [x20]; [x71]] eq_refl) as (P & _).
    + discriminate.
    + destruct (P [[[x61]; [x62]]] [[[x63]]; [[x64]; [x65]; [x66]]])
        as (t' & E & T & _ & _ & _ & _ & D).
      * reflexivity.
      * reflexivity.
      * vm_compute. reflexivity.
      * exists t'. exact (conj E (conj T D)).
  - destruct (InsertRow_then_DeleteRow lettering.sample 4 [[x70]] eq_refl)
      as (_ & P).
    + discriminate.
    + apply P. right. vm_compute. reflexivity.
Defined.

Lemma Is2DA_needs_two_items_in_first_row_witness :
  Is2DA (mkTable [[[x32; x64; x61]]; [[x61]; [x62]]] None false None)
  = Panic.
Proof.
  destruct (Is2DA_needs_two_items_in_first_row
              (mkTable [[[x32; x64; x61]]; [[x61]; [x62]]] None false None)
              [[x32; x64; x61]] [[x61]; [x62]] [] eq_refl eq_refl)
    as (_ & P & _).
  - exists [[x61]; [x62]]. split; [right; left; reflexivity |].
    vm_compute. discriminate.
  - apply (P [x32; x64; x61]); reflexivity.
Defined.

End Runs.

End tables_more.
